(** * Call eligibility, attempt ledger, schedule predicate, daily queue and
      dispatch coordinator of the outbound calling system.

    The development embeds the PL/pgSQL functions of the migrations and the
    TypeScript edge functions as Rocq functions over an explicit database
    state, and states the properties of the specification over them.

    Conventions of the embedding.
    - A [TIMESTAMPTZ] is a [Z]: microseconds since 1970-01-01 00:00:00 in the
      session time zone (UTC).  A [DATE] is the day number since that epoch, a
      [TIME] the microseconds since midnight.
    - A nullable SQL value is an [option]; SQL conditions are three-valued
      ([option bool]) and an [IF] takes its branch only when the condition is
      [Some true].  [SELECT ... INTO v] that finds no row assigns NULL to [v].
    - A table with a UNIQUE key is a finite map from the key to the row; a
      table scanned in order is a list of rows.
    - Names inside a function body resolve as the database resolves them: a
      name that is both a variable of the function and a column of the table
      read makes the statement raise, and [current_time] in an expression is
      the keyword CURRENT_TIME, the time of day at which the transaction
      started, whatever variable of that name the function declares.
    - A statement that raises aborts the function: its result is the error
      ([Sql.Raises]) and nothing below the statement runs. *)

From Stdlib Require Import ZArith Lia Bool Ascii.
From stdpp Require Import gmap strings list fin_maps pretty sorting.

Local Open Scope string_scope.
Local Open Scope Z_scope.

(* ===================================================================== *)
(** ** SQL values *)
(* ===================================================================== *)

Module Sql.

(** [IF c THEN]: only a condition that is TRUE takes the branch. *)
Definition is_true (c : option bool) : bool :=
  match c with Some true => true | _ => false end.

Definition not3 (c : option bool) : option bool := negb <$> c.

Definition or3 (a b : option bool) : option bool :=
  match a, b with
  | Some true, _ | _, Some true => Some true
  | Some false, Some false => Some false
  | _, _ => None
  end.

Definition and3 (a b : option bool) : option bool :=
  match a, b with
  | Some false, _ | _, Some false => Some false
  | Some true, Some true => Some true
  | _, _ => None
  end.

Definition cmp3 {A} (op : A -> A -> bool) (a b : option A) : option bool :=
  match a, b with
  | Some x, Some y => Some (op x y)
  | _, _ => None
  end.

Definition lt3 := cmp3 Z.ltb.
Definition gt3 := cmp3 Z.gtb.
Definition ge3 := cmp3 Z.geb.
Definition eq3 := cmp3 String.eqb.

(** [x IN (v1, ..., vn)] for non-null constants [vi]. *)
Definition in3 (x : option string) (vs : list string) : option bool :=
  match x with
  | Some s => Some (existsb (String.eqb s) vs)
  | None => None
  end.

Definition coalesce {A} (a : option A) (d : A) : A :=
  match a with Some x => x | None => d end.

(** [a + b] on nullable integers. *)
Definition add3 (a b : option Z) : option Z :=
  match a, b with
  | Some x, Some y => Some (x + y)
  | _, _ => None
  end.

(** ASCII lower-casing, as [lower()] and ILIKE do on these reasons. *)
Definition lower_ascii (c : ascii) : ascii :=
  let n := Ascii.N_of_ascii c in
  if ((65 <=? n) && (n <=? 90))%N then Ascii.ascii_of_N (n + 32) else c.

Fixpoint lower (s : string) : string :=
  match s with
  | EmptyString => EmptyString
  | String c r => String (lower_ascii c) (lower r)
  end.

(** Does [needle] occur in [s]? *)
Fixpoint contains (needle s : string) : bool :=
  String.prefix needle s ||
  match s with
  | EmptyString => false
  | String _ r => contains needle r
  end.

(** [x ILIKE '%needle%'], [needle] in lower case. *)
Definition ilike_contains (x : option string) (needle : string) : option bool :=
  match x with
  | Some s => Some (contains needle (lower s))
  | None => None
  end.

Fixpoint ltrim (s : string) : string :=
  match s with
  | String " "%char r => ltrim r
  | _ => s
  end.

Fixpoint rtrim (s : string) : string :=
  match s with
  | EmptyString => EmptyString
  | String c r =>
      match c, rtrim r with
      | " "%char, EmptyString => EmptyString
      | _, r' => String c r'
      end
  end.

(** [trim(s)] removes the blanks at both ends. *)
Definition trim (s : string) : string := ltrim (rtrim s).

(** [arr ? s] on a JSONB array of strings. *)
Definition jsonb_exists (arr : option (list string)) (s : string) : option bool :=
  match arr with
  | Some l => Some (existsb (String.eqb s) l)
  | None => None
  end.

(** An error a statement raises; it aborts the function that runs it.
    - [datatype_mismatch n]: "structure of query does not match function
      result type", column [n] of a RETURN QUERY having another type than
      the result column declared in RETURNS TABLE (a text literal where
      VARCHAR is declared);
    - [ambiguous_column c]: "column reference is ambiguous", [c] being both
      a variable of the function (an output column of RETURNS TABLE is one)
      and a column of the table in the FROM clause;
    - [undefined_operator op]: "operator does not exist";
    - [negative_limit]: "LIMIT must not be negative". *)
Inductive error :=
| datatype_mismatch (column : Z)
| ambiguous_column (name : string)
| undefined_operator (operator : string)
| negative_limit.

(** What a call of a function comes to. *)
Inductive outcome (A : Type) :=
| Returns (a : A)
| Raises (e : error).

Arguments Returns {A} a.
Arguments Raises {A} e.

End Sql.

(* ===================================================================== *)
(** ** Time *)
(* ===================================================================== *)

Module Clock.

Definition usec_per_minute : Z := 60000000.
Definition usec_per_hour : Z := 60 * usec_per_minute.
Definition usec_per_day : Z := 24 * usec_per_hour.

(** [t::DATE] *)
Definition to_date (t : Z) : Z := t / usec_per_day.

(** [t::TIME] *)
Definition to_time (t : Z) : Z := t mod usec_per_day.

(** [date_trunc('day', t)] *)
Definition date_trunc_day (t : Z) : Z := to_date t * usec_per_day.

(** [t + (h || ' hours')::INTERVAL] and [t + INTERVAL '1 hour' * h] *)
Definition plus_hours (t : Z) (h : option Z) : option Z :=
  match h with
  | Some n => Some (t + n * usec_per_hour)
  | None => None
  end.

(** [EXTRACT(DOW FROM t)]: 0 = Sunday ... 6 = Saturday (day 0 of the epoch
    is a Thursday). *)
Definition extract_dow (t : Z) : Z := (to_date t + 4) mod 7.

(** [to_char(t, 'Day')]: the capitalised day name blank-padded to 9. *)
Definition to_char_Day (t : Z) : string :=
  match extract_dow t with
  | 0 => "Sunday   "
  | 1 => "Monday   "
  | 2 => "Tuesday  "
  | 3 => "Wednesday"
  | 4 => "Thursday "
  | 5 => "Friday   "
  | _ => "Saturday "
  end.

(** A time of day given as [hh:mm]. *)
Definition hhmm (h m : Z) : Z := h * usec_per_hour + m * usec_per_minute.

(** The instant [hh:mm] of day number [d]. *)
Definition at_day (d h m : Z) : Z := d * usec_per_day + hhmm h m.

End Clock.

(* ===================================================================== *)
(** ** The tables of migration 004 *)
(* ===================================================================== *)

(** A row of [call_attempts], keyed by [(phone_number, call_date)]. *)
Record call_attempt := {
  ca_attempt_count : option Z;
  ca_last_attempt_at : option Z;
  ca_last_call_status : option string;
  ca_last_ended_reason : option string;
  ca_cooldown_until : option Z;
  ca_created_at : Z;
  ca_updated_at : Z
}.

(** A row of [phone_number_history], keyed by [phone_number]. *)
Record phone_history := {
  pnh_total_attempts : option Z;
  pnh_last_successful_call : option Z;
  pnh_last_pickup_call : option Z;
  pnh_permanent_dnc : option bool;
  pnh_dnc_reason : option string;
  pnh_updated_at : Z
}.

(** [call_frequency_settings]: one field per [setting_name], [None] when the
    table has no such row.  Values are taken as well typed (a malformed JSON
    value makes the cast raise). *)
Record call_frequency_settings := {
  default_cooldown_hours : option Z;
  no_pickup_cooldown_hours : option Z;
  failed_connection_cooldown_hours : option Z;
  customer_ended_cooldown_hours : option Z;
  max_attempts_per_day : option Z;
  max_attempts_per_week : option Z;
  max_total_attempts : option Z;
  call_window_start : option Z;
  call_window_end : option Z;
  enabled_days : option (list string)
}.

(** The rows inserted by migration 004. *)
Definition default_frequency_settings : call_frequency_settings := {|
  default_cooldown_hours := Some 24;
  no_pickup_cooldown_hours := Some 72;
  failed_connection_cooldown_hours := Some 6;
  customer_ended_cooldown_hours := Some 168;
  max_attempts_per_day := Some 1;
  max_attempts_per_week := Some 3;
  max_total_attempts := Some 5;
  call_window_start := Some (Clock.hhmm 9 0);
  call_window_end := Some (Clock.hhmm 18 0);
  enabled_days := Some ["monday"; "tuesday"; "wednesday"; "thursday"; "friday"]
|}.

(** A row of [vapi_calls] (the columns this subsystem reads or writes). *)
Record vapi_call := {
  vc_call_id : string;
  vc_phone_number : option string;
  vc_status : option string;
  vc_ended_reason : option string;
  vc_started_at : option Z;
  vc_call_type : option string;
  vc_asked_explicitly_to_not_call_again : option bool
}.

(** The ledger state. *)
Record ledger := {
  settings : call_frequency_settings;
  (** [calling_settings.max_daily_calls ->> 'value'] *)
  max_daily_calls : option Z;
  call_attempts : gmap (string * Z) call_attempt;
  phone_number_history : gmap string phone_history;
  vapi_calls : list vapi_call
}.

(* ===================================================================== *)
(** ** Eligibility engine *)
(* ===================================================================== *)

Module Eligibility.
Import Sql.

(** The row [should_call_phone_number] of migration 004 returns. *)
Record decision := {
  can_call : bool;
  reason : string;
  cooldown_until : option Z;
  attempts_today : option Z;
  total_attempts : option Z
}.

(** [should_call_phone_number(p_phone_number, p_current_time)] of
    migration 004, called in a transaction that started at [now].

    The function never returns a row.  Each RETURN QUERY selects a text
    literal for the second column, [reason], which RETURNS TABLE declares
    VARCHAR: the statement raises.  The SELECT of today's attempts names
    [cooldown_until], a column of [call_attempts] and an output column of the
    function: it raises too, so the checks of the cooldown and of the two
    caps below it are never reached.  The calling window is compared with
    CURRENT_TIME, the clock of the transaction, not with [p_current_time]. *)
Definition should_call_phone_number
    (db : ledger) (p_phone_number : string) (p_current_time now : Z)
  : outcome decision :=
  (* Get settings *)
  let call_window_start := call_window_start (settings db) in
  let call_window_end := call_window_end (settings db) in
  let enabled_days := enabled_days (settings db) in
  (* Check current day and time *)
  let current_day := lower (Clock.to_char_Day p_current_time) in
  (* Check if permanent DNC *)
  let v_permanent_dnc :=
    match phone_number_history db !! p_phone_number with
    | Some h => Some (coalesce (pnh_permanent_dnc h) false)
    | None => None
    end in
  if is_true v_permanent_dnc then
    (* RETURN QUERY SELECT false, 'Permanent Do Not Call', ... *)
    Raises (datatype_mismatch 2)
  (* Check if day is enabled *)
  else if is_true (not3 (jsonb_exists enabled_days (trim current_day))) then
    (* RETURN QUERY SELECT false, 'Outside calling days', ... *)
    Raises (datatype_mismatch 2)
  (* Check if within calling hours *)
  else if is_true (or3 (lt3 (Some (Clock.to_time now)) call_window_start)
                       (gt3 (Some (Clock.to_time now)) call_window_end)) then
    (* RETURN QUERY SELECT false, 'Outside calling hours', ... *)
    Raises (datatype_mismatch 2)
  else
    (* Get today's attempts and cooldown:
       SELECT COALESCE(attempt_count, 0), cooldown_until INTO ... *)
    Raises (ambiguous_column "cooldown_until").

(** *** The redefinition of migration 009 *)

(** The [reason] text of migration 009 is assembled from the counters; the
    constructors carry what the text is built from:
    ['Daily limit reached (' || attempts || '/' || max || ')'],
    ['Total limit reached (' || total || '/' || max || ')'],
    ['Outside calling window (' || start || '-' || end || ')'],
    ['Cooldown active (' || hours || 'h after ' || ended_reason || ')'],
    ['Ready to call']. *)
Inductive reason_009 :=
| Daily_limit_reached (attempts max_daily : Z)
| Total_limit_reached (total max_total : Z)
| Outside_calling_window (window_start window_end : option Z)
| Cooldown_active (hours : Z) (ended_reason : option string)
| Ready_to_call.

Record decision_009 := {
  should_call : bool;
  reason9 : reason_009;
  attempts_today9 : Z;
  total_attempts9 : Z;
  last_attempt : option Z;
  cooldown_until9 : option Z
}.

(** The rows of [call_attempts] of one phone number. *)
Definition attempts_of (db : ledger) (p_phone_number : string) : list call_attempt :=
  (map_to_list (call_attempts db)) ≫= λ kr,
      if String.eqb (fst (fst kr)) p_phone_number then [snd kr] else [].

(** [MAX(x)] over rows: NULL when there is none. *)
Definition max_of (l : list Z) : option Z :=
  foldr (λ x acc, match acc with Some m => Some (Z.max x m) | None => Some x end) None l.

(** [ORDER BY started_at DESC LIMIT 1]: NULL sorts first when descending;
    among equal keys the earlier row of the list is kept. *)
Definition started_after (a b : option Z) : bool :=
  match a, b with
  | None, Some _ => true
  | Some x, Some y => y <? x
  | _, None => false
  end.

Definition latest_call (l : list vapi_call) : option vapi_call :=
  foldr (λ c acc,
           match acc with
           | Some b => if started_after (vc_started_at b) (vc_started_at c)
                       then Some b else Some c
           | None => Some c
           end) None l.

Definition calls_of (db : ledger) (p_phone_number : string) : list vapi_call :=
  filter (λ c, vc_phone_number c = Some p_phone_number) (vapi_calls db).

(** [should_call_phone_number] as migration 009 replaces it, called in a
    transaction that started at [now].  The calling window is compared with
    CURRENT_TIME, the clock of the transaction: the variable [current_time]
    the function assigns from [p_current_time] is never read. *)
Definition should_call_phone_number_009
    (db : ledger) (p_phone_number : string) (p_current_time now : Z) : decision_009 :=
  (* Get max daily calls from calling_settings; if not found, use default *)
  let v_max_daily := coalesce (max_daily_calls db) 100 in
  (* Get other settings from old table; set defaults if not found *)
  let v_max_total := coalesce (max_total_attempts (settings db)) 10 in
  let call_window_start := call_window_start (settings db) in
  let call_window_end := call_window_end (settings db) in
  let current_date_start := Clock.date_trunc_day p_current_time in
  (* Count attempts today *)
  let todays := filter (λ r, current_date_start <= ca_created_at r)
                       (attempts_of db p_phone_number) in
  let v_attempts_today := Z.of_nat (length todays) in
  let v_last_attempt := max_of (ca_created_at <$> todays) in
  (* Count total attempts *)
  let v_total_attempts := Z.of_nat (length (attempts_of db p_phone_number)) in
  (* Get last call ended reason *)
  let v_last_call_ended_reason :=
    match latest_call (calls_of db p_phone_number) with
    | Some c => vc_ended_reason c
    | None => None
    end in
  let result ok why cd :=
    {| should_call := ok; reason9 := why;
       attempts_today9 := v_attempts_today; total_attempts9 := v_total_attempts;
       last_attempt := v_last_attempt; cooldown_until9 := cd |} in
  (* Check daily limit *)
  if v_max_daily <=? v_attempts_today then
    result false (Daily_limit_reached v_attempts_today v_max_daily) None
  (* Check total limit *)
  else if v_max_total <=? v_total_attempts then
    result false (Total_limit_reached v_total_attempts v_max_total) None
  (* Check time window *)
  else if is_true (or3 (lt3 (Some (Clock.to_time now)) call_window_start)
                       (gt3 (Some (Clock.to_time now)) call_window_end)) then
    result false (Outside_calling_window call_window_start call_window_end) None
  else
    (* Check cooldown based on last call result *)
    match v_last_attempt with
    | Some last =>
        let looked_up :=
          match v_last_call_ended_reason with
          | Some "customer-did-not-answer" => no_pickup_cooldown_hours (settings db)
          | Some "twilio-failed-to-connect-call" =>
              failed_connection_cooldown_hours (settings db)
          | Some "customer-ended-call" => customer_ended_cooldown_hours (settings db)
          | _ => default_cooldown_hours (settings db)
          end in
        let v_cooldown_hours := coalesce looked_up 24 in
        let until := last + v_cooldown_hours * Clock.usec_per_hour in
        if p_current_time <? until then
          result false (Cooldown_active v_cooldown_hours v_last_call_ended_reason)
                 (Some until)
        else result true Ready_to_call None
    | None => result true Ready_to_call None
    end.

End Eligibility.

(* ===================================================================== *)
(** ** Attempt ledger *)
(* ===================================================================== *)

Module Ledger.
Import Sql.

(** The cooldown decision table of [record_call_attempt]: the searched
    CASE on [p_ended_reason]; each branch is a [SELECT ... INTO
    v_cooldown_hours] on the settings table. *)
Definition cooldown_hours_for
    (s : call_frequency_settings) (p_ended_reason : option string) : option Z :=
  if is_true (in3 p_ended_reason
                  ["customer-did-not-answer"; "voicemail"; "customer-busy"]) then
    no_pickup_cooldown_hours s
  else if is_true (or3 (or3 (ilike_contains p_ended_reason "twilio")
                            (ilike_contains p_ended_reason "connection"))
                       (ilike_contains p_ended_reason "failed")) then
    failed_connection_cooldown_hours s
  else if is_true (eq3 p_ended_reason (Some "customer-ended-call")) then
    customer_ended_cooldown_hours s
  else
    default_cooldown_hours s.

(** [INSERT INTO call_attempts ... ON CONFLICT (phone_number, call_date)
    DO UPDATE]: the row written for the key. *)
Definition upsert_attempt
    (old : option call_attempt) (p_call_status p_ended_reason : option string)
    (p_call_time : Z) (v_cooldown_until : option Z) (now : Z) : call_attempt :=
  match old with
  | None =>
      {| ca_attempt_count := Some 1;
         ca_last_attempt_at := Some p_call_time;
         ca_last_call_status := p_call_status;
         ca_last_ended_reason := p_ended_reason;
         ca_cooldown_until := v_cooldown_until;
         ca_created_at := now;
         ca_updated_at := now |}
  | Some r =>
      {| ca_attempt_count := add3 (ca_attempt_count r) (Some 1);
         ca_last_attempt_at := Some p_call_time;
         ca_last_call_status := p_call_status;
         ca_last_ended_reason := p_ended_reason;
         ca_cooldown_until := v_cooldown_until;
         ca_created_at := ca_created_at r;
         ca_updated_at := now |}
  end.

(** [INSERT INTO phone_number_history (phone_number, total_attempts)
    VALUES (p, 1) ON CONFLICT (phone_number) DO UPDATE]. *)
Definition upsert_history
    (old : option phone_history) (p_ended_reason : option string)
    (p_call_time : Z) (now : Z) : phone_history :=
  match old with
  | None =>
      {| pnh_total_attempts := Some 1;
         pnh_last_successful_call := None;
         pnh_last_pickup_call := None;
         pnh_permanent_dnc := Some false;
         pnh_dnc_reason := None;
         pnh_updated_at := now |}
  | Some h =>
      {| pnh_total_attempts := add3 (pnh_total_attempts h) (Some 1);
         pnh_last_successful_call :=
           if is_true (or3 (eq3 p_ended_reason (Some "customer-ended-call"))
                           (eq3 p_ended_reason (Some "assistant-ended-call")))
           then Some p_call_time else pnh_last_successful_call h;
         pnh_last_pickup_call :=
           if is_true (not3 (in3 p_ended_reason
                                 ["customer-did-not-answer"; "voicemail";
                                  "customer-busy"; "twilio-failed-to-connect-call"]))
           then Some p_call_time else pnh_last_pickup_call h;
         pnh_permanent_dnc := pnh_permanent_dnc h;
         pnh_dnc_reason := pnh_dnc_reason h;
         pnh_updated_at := now |}
  end.

(** [record_call_attempt(p_phone_number, p_call_status, p_ended_reason,
    p_call_time)] run at clock reading [now]; it always returns true, the
    new state is the result. *)
Definition record_call_attempt
    (db : ledger) (p_phone_number : string)
    (p_call_status p_ended_reason : option string)
    (p_call_time : Z) (now : Z) : ledger :=
  let v_cooldown_hours := cooldown_hours_for (settings db) p_ended_reason in
  let v_cooldown_until := Clock.plus_hours p_call_time v_cooldown_hours in
  let key := (p_phone_number, Clock.to_date p_call_time) in
  {| settings := settings db;
     max_daily_calls := max_daily_calls db;
     call_attempts :=
       <[key := upsert_attempt (call_attempts db !! key) p_call_status
                  p_ended_reason p_call_time v_cooldown_until now]>
         (call_attempts db);
     phone_number_history :=
       <[p_phone_number :=
           upsert_history (phone_number_history db !! p_phone_number)
             p_ended_reason p_call_time now]>
         (phone_number_history db);
     vapi_calls := vapi_calls db |}.

(** [trigger_record_call_attempt], fired AFTER INSERT OR UPDATE on
    [vapi_calls] FOR EACH ROW with the new row. *)
Definition trigger_record_call_attempt (db : ledger) (NEW : vapi_call) (now : Z) : ledger :=
  match vc_phone_number NEW, vc_status NEW with
  | Some phone, Some status =>
      record_call_attempt db phone (Some status) (vc_ended_reason NEW)
        (coalesce (vc_started_at NEW) now) now
  | _, _ => db
  end.

Definition with_vapi_calls (db : ledger) (l : list vapi_call) : ledger :=
  {| settings := settings db;
     max_daily_calls := max_daily_calls db;
     call_attempts := call_attempts db;
     phone_number_history := phone_number_history db;
     vapi_calls := l |}.

(** [UPDATE vapi_calls SET ... WHERE call_id = id]: every matching row is
    rewritten by [set] and the trigger runs for it. *)
Definition update_vapi_calls
    (db : ledger) (id : string) (set : vapi_call -> vapi_call) (now : Z) : ledger :=
  let rows := (λ c, if String.eqb (vc_call_id c) id then set c else c) <$> vapi_calls db in
  let fired := filter (λ c, vc_call_id c = id) rows in
  foldl (λ d c, trigger_record_call_attempt d c now) (with_vapi_calls db rows) fired.

(** [INSERT INTO vapi_calls ... ON CONFLICT (call_id) DO UPDATE], the
    upsert of the provider sync: a new row is appended, an existing one is
    overwritten by [merge old new]; the trigger runs in both cases. *)
Definition upsert_vapi_call
    (db : ledger) (new : vapi_call) (merge : vapi_call -> vapi_call -> vapi_call)
    (now : Z) : ledger :=
  if existsb (λ c, String.eqb (vc_call_id c) (vc_call_id new)) (vapi_calls db)
  then update_vapi_calls db (vc_call_id new) (λ old, merge old new) now
  else trigger_record_call_attempt
         (with_vapi_calls db (vapi_calls db ++ [new])) new now.

(** [formatPhoneForCheck] of the start-calling function. *)
Definition formatPhoneForCheck (phone : string) : string :=
  if String.prefix "+44" phone then phone
  else match phone with
       | String "0"%char rest => "+44" +:+ rest
       | _ => phone
       end.

(** What the start-calling function does right after a call was placed:
    [rpc('record_call_attempt', { p_phone_number, p_call_status:
    'initiated', p_ended_reason: null })], [p_call_time] defaulting to the
    clock. *)
Definition record_dispatch (db : ledger) (phone : string) (now : Z) : ledger :=
  record_call_attempt db (formatPhoneForCheck phone) (Some "initiated") None now now.

End Ledger.

(* ===================================================================== *)
(** ** Schedule predicate *)
(* ===================================================================== *)

Module Schedule.

(** A row of [cron_schedules]. *)
Record cron_schedule := {
  name : string;
  day_type : string;
  start_hour : Z;
  start_minute : Z;
  end_hour : Z;
  end_minute : Z;
  interval_minutes : Z;
  is_active : bool
}.

(** The wall clock in the configured time zone: [EXTRACT(DOW ...)],
    [EXTRACT(HOUR ...)], [EXTRACT(MINUTE ...)] of the converted instant
    ([getDay()], [getHours()], [getMinutes()] in the edge function). *)
Record wall_clock := {
  day_of_week : Z;   (* 0 = Sunday, 1 = Monday, ..., 6 = Saturday *)
  hour : Z;
  minute : Z
}.

Definition wall_clock_of (local : Z) : wall_clock :=
  {| day_of_week := Clock.extract_dow local;
     hour := Clock.to_time local / Clock.usec_per_hour;
     minute := (Clock.to_time local mod Clock.usec_per_hour) / Clock.usec_per_minute |}.

(** *** The schedule query of [should_call_now] (migration 010) *)

(** The minute bounds: the CASE on the start and end hours. *)
Definition minute_in_bounds (now : wall_clock) (s : cron_schedule) : bool :=
  if start_hour s =? end_hour s then
    (start_minute s <=? minute now) && (minute now <=? end_minute s)
  else if hour now =? start_hour s then start_minute s <=? minute now
  else if hour now =? end_hour s then minute now <=? end_minute s
  else true.

(** [CASE day_type WHEN ... ELSE FALSE END] *)
Definition day_type_matches (now : wall_clock) (s : cron_schedule) : bool :=
  if String.eqb (day_type s) "weekday" then
    (1 <=? day_of_week now) && (day_of_week now <=? 5)
  else if String.eqb (day_type s) "weekend" then
    (day_of_week now =? 0) || (day_of_week now =? 6)
  else if String.eqb (day_type s) "saturday" then day_of_week now =? 6
  else if String.eqb (day_type s) "sunday" then day_of_week now =? 0
  else false.

(** The WHERE clause on one row, conjunct after conjunct.  The integer
    [%] raises division_by_zero on a zero interval: [None]. *)
Definition row_matches (now : wall_clock) (s : cron_schedule) : option bool :=
  if negb (is_active s) then Some false
  else if negb ((start_hour s <=? hour now) && (hour now <=? end_hour s)) then Some false
  else if negb (minute_in_bounds now s) then Some false
  else if interval_minutes s =? 0 then None
  else if negb (Z.rem ((hour now - start_hour s) * 60 + (minute now - start_minute s))
                      (interval_minutes s) =? 0) then Some false
  else Some (day_type_matches now s).

(** The first ORDER BY key: more specific day types first. *)
Definition day_type_priority (s : cron_schedule) : Z :=
  if String.eqb (day_type s) "saturday" then 1
  else if String.eqb (day_type s) "sunday" then 1
  else if String.eqb (day_type s) "weekday" then 2
  else if String.eqb (day_type s) "weekend" then 3
  else 4.

(** [a] sorts strictly before [b] under
    [ORDER BY priority, start_hour, start_minute]. *)
Definition sorts_before (a b : cron_schedule) : bool :=
  (day_type_priority a <? day_type_priority b)
  || ((day_type_priority a =? day_type_priority b)
      && ((start_hour a <? start_hour b)
          || ((start_hour a =? start_hour b) && (start_minute a <? start_minute b)))).

(** [ORDER BY ... LIMIT 1]: the least row; among rows with equal keys the
    one met first in the table is kept. *)
Fixpoint first_in_order (l : list cron_schedule) : option cron_schedule :=
  match l with
  | [] => None
  | s :: rest =>
      match first_in_order rest with
      | Some b => if sorts_before b s then Some b else Some s
      | None => Some s
      end
  end.

(** The rows the WHERE clause keeps, or [None] when a row raises. *)
Fixpoint matching_rows (now : wall_clock) (l : list cron_schedule)
  : option (list cron_schedule) :=
  match l with
  | [] => Some []
  | s :: rest =>
      match row_matches now s, matching_rows now rest with
      | Some true, Some m => Some (s :: m)
      | Some false, Some m => Some m
      | _, _ => None
      end
  end.

(** The query of the FOR loop, [SELECT * FROM cron_schedules WHERE ...
    ORDER BY ... LIMIT 1], for given values of [current_day_of_week],
    [current_hour] and [current_minute]: the row it yields, if any; [None]
    when the WHERE clause raises. *)
Definition matching_schedule_query
    (cron_schedules : list cron_schedule) (now : wall_clock)
  : option (option cron_schedule) :=
  match matching_rows now cron_schedules with
  | None => None
  | Some m => Some (first_in_order m)
  end.

Record answer := {
  should_call : bool;
  current_schedule : option cron_schedule
}.

(** [should_call_now()] over the tables [calling_settings] (its
    [calling_enabled] flag) and [cron_schedules].  The statement that
    converts the clock,
    [current_time := NOW() AT TIME ZONE COALESCE(timezone_setting ->> 'value',
    'Europe/London')], applies [->>] to the variable [timezone_setting], which
    is declared TEXT: there is no such operator and the statement raises on
    every call, whatever the tables hold.  Nothing below it runs, neither
    the test of [calling_enabled] nor the schedule query. *)
Definition should_call_now
    (calling_enabled : option bool) (cron_schedules : list cron_schedule)
  : Sql.outcome answer :=
  Sql.Raises (Sql.undefined_operator "text ->> unknown").

(** *** The schedule check of the dispatch edge function *)

Definition dayTypeMatch (now : wall_clock) (s : cron_schedule) : bool :=
  (String.eqb (day_type s) "weekday" && (1 <=? day_of_week now) && (day_of_week now <=? 5))
  || (String.eqb (day_type s) "weekend"
      && ((day_of_week now =? 0) || (day_of_week now =? 6)))
  || (String.eqb (day_type s) "saturday" && (day_of_week now =? 6))
  || (String.eqb (day_type s) "sunday" && (day_of_week now =? 0)).

Definition inTimeWindow (now : wall_clock) (s : cron_schedule) : bool :=
  (start_hour s <=? hour now) && (hour now <=? end_hour s).

Definition totalMinutesFromStart (now : wall_clock) (s : cron_schedule) : Z :=
  (hour now - start_hour s) * 60 + (minute now - start_minute s).

(** [x % n === 0] on integers: the remainder has the sign of the dividend
    and a zero [n] gives NaN, which is not 0. *)
Definition js_rem_is_zero (x n : Z) : bool :=
  if n =? 0 then false else Z.rem x n =? 0.

(** The [for (const s of schedules)] loop over the active rows, in the
    order the query returned them; it stops at the first match. *)
Fixpoint matchingSchedule (now : wall_clock) (schedules : list cron_schedule)
  : option cron_schedule :=
  match schedules with
  | [] => None
  | s :: rest =>
      if dayTypeMatch now s && inTimeWindow now s
         && (0 <=? totalMinutesFromStart now s)
         && js_rem_is_zero (totalMinutesFromStart now s) (interval_minutes s)
      then Some s
      else matchingSchedule now rest
  end.

(** [.from('cron_schedules').select('*').eq('is_active', true)] *)
Definition active_schedules (cron_schedules : list cron_schedule) : list cron_schedule :=
  filter (λ s, is_active s = true) cron_schedules.

End Schedule.

(* ===================================================================== *)
(** ** Daily queue *)
(* ===================================================================== *)

Module Queue.

Inductive status := pending | sent_to_n8n | calling | completed | failed | skipped.

#[global] Instance status_eq_dec : EqDecision status.
Proof. solve_decision. Defined.

(** The [contact_data] snapshot (the members this subsystem reads); a
    member the object lacks is [None]. *)
Record contact_data := {
  cd_id : option string;
  cd_firstName : string;
  cd_lastName : string;
  cd_email : string;
  cd_phone : option string
}.

(** A row of [daily_call_queue]; [id] stands for the generated UUID. *)
Record queue_row := {
  id : Z;
  queue_date : Z;
  contact_id : string;
  phone_number : string;
  q_contact_data : contact_data;
  priority_score : Z;
  q_status : status;
  sent_to_n8n_at : option Z;
  call_initiated_at : option Z;
  skip_reason : option string;
  created_at : Z;
  updated_at : Z
}.

Definition set_status (r : queue_row) (st : status) (sent initiated : option Z)
    (why : option string) (now : Z) : queue_row :=
  {| id := id r; queue_date := queue_date r; contact_id := contact_id r;
     phone_number := phone_number r; q_contact_data := q_contact_data r;
     priority_score := priority_score r; q_status := st;
     sent_to_n8n_at := sent; call_initiated_at := initiated;
     skip_reason := why; created_at := created_at r; updated_at := now |}.

(** [gen_random_uuid()]: an id no row of the table has. *)
Definition fresh_id (queue : list queue_row) : Z :=
  1 + foldr (λ r m, Z.max (id r) m) 0 queue.

(** the count of the rows with [queue_date = d] *)
Definition count_for_date (queue : list queue_row) (d : Z) : Z :=
  Z.of_nat (length (filter (λ r, queue_date r = d) queue)).

(** The UNIQUE(queue_date, contact_id) constraint of the table. *)
Definition keys (queue : list queue_row) : list (Z * string) :=
  (λ r, (queue_date r, contact_id r)) <$> queue.

Definition unique_keys (queue : list queue_row) : Prop := NoDup (keys queue).

(** A row to insert: the columns the INSERT names. *)
Record new_row := {
  n_contact_id : string;
  n_phone_number : string;
  n_contact_data : contact_data;
  n_priority_score : Z
}.

Definition has_key (queue : list queue_row) (d : Z) (c : string) : bool :=
  existsb (λ r, (queue_date r =? d) && String.eqb (contact_id r) c) queue.

Definition insert_row (queue : list queue_row) (d : Z) (n : new_row) (now : Z)
  : list queue_row :=
  queue ++ [ {| id := fresh_id queue; queue_date := d;
                contact_id := n_contact_id n; phone_number := n_phone_number n;
                q_contact_data := n_contact_data n;
                priority_score := n_priority_score n; q_status := pending;
                sent_to_n8n_at := None; call_initiated_at := None;
                skip_reason := None; created_at := now; updated_at := now |} ].

(** A plain multi-row INSERT: UNIQUE(queue_date, contact_id) makes the
    whole statement fail ([None]) on the first duplicate key. *)
Fixpoint insert_all (queue : list queue_row) (d : Z) (l : list new_row) (now : Z)
  : option (list queue_row) :=
  match l with
  | [] => Some queue
  | n :: rest =>
      if has_key queue d (n_contact_id n) then None
      else insert_all (insert_row queue d n now) d rest now
  end.

(** [INSERT ... ON CONFLICT (queue_date, contact_id) DO NOTHING]: the new
    table and ROW_COUNT. *)
Fixpoint insert_do_nothing (queue : list queue_row) (d : Z) (l : list new_row) (now : Z)
  : list queue_row * Z :=
  match l with
  | [] => (queue, 0)
  | n :: rest =>
      if has_key queue d (n_contact_id n) then insert_do_nothing queue d rest now
      else let '(q, k) := insert_do_nothing (insert_row queue d n now) d rest now in
           (q, 1 + k)
  end.

(** *** [preload_daily_contacts] of migration 020 *)

(** [LPAD(s, n, '0')] *)
Definition lpad0 (s : string) (n : nat) : string :=
  if (String.length s <? n)%nat
  then String.string_of_list_ascii (replicate (n - String.length s) "0"%char) +:+ s
  else String.substring 0 n s.

(** The placeholder contact [generate_series] yields for [i]; its
    [last_called_at] is NULL, so its priority score is 100. *)
Definition mock_contact (i : Z) : new_row :=
  {| n_contact_id := "contact_" +:+ pretty i;
     n_phone_number := "+447" +:+ lpad0 (pretty i) 9;
     n_contact_data := {| cd_id := None; cd_firstName := "Test"; cd_lastName := "User";
                          cd_email := "test@example.com"; cd_phone := None |};
     n_priority_score := 100 |}.

(** The 2-week cooldown sub-query: a [call_attempts] row of the phone with
    one of the three ended reasons and a last attempt in the last 14 days. *)
Definition in_two_week_cooldown (db : ledger) (phone : string) (now : Z) : bool :=
  existsb (λ ca,
             Sql.is_true
               (Sql.and3
                  (Sql.in3 (ca_last_ended_reason ca)
                     ["customer-ended-call"; "voicemail"; "assistant-ended-call"])
                  (Sql.gt3 (ca_last_attempt_at ca) (Some (now - 14 * Clock.usec_per_day)))))
          (Eligibility.attempts_of db phone).

(** The UPDATE that expires the pending rows of earlier days. *)
Definition expire_previous_days (queue : list queue_row) (p_queue_date : Z) (now : Z)
  : list queue_row :=
  (λ r, if (queue_date r <? p_queue_date) && bool_decide (q_status r = pending)
        then set_status r skipped (sent_to_n8n_at r) (call_initiated_at r)
               (Some "Expired - new day started") now
        else r) <$> queue.

Inductive preload_message :=
| Contacts_already_loaded_for_today
| Loaded_contacts (count : Z) (date : Z).

(** [preload_daily_contacts(p_target_count, p_queue_date)] at clock reading
    [now]: the returned row and the new table; [None] when LIMIT raises on
    a negative count.  The ORDER BY ... RANDOM() only permutes the rows of
    the INSERT, all of which fit under the LIMIT. *)
Definition preload_daily_contacts
    (db : ledger) (queue : list queue_row) (p_target_count p_queue_date now : Z)
  : option ((Z * preload_message) * list queue_row) :=
  (* Clear any pending contacts from previous days *)
  let queue1 := expire_previous_days queue p_queue_date now in
  (* Check if already loaded for today *)
  let v_loaded_count := count_for_date queue1 p_queue_date in
  if 0 <? v_loaded_count then
    Some ((v_loaded_count, Contacts_already_loaded_for_today), queue1)
  else if p_target_count <? 0 then None
  else
    let eligible_contacts :=
      take (Z.to_nat p_target_count)
        (filter (λ n, in_two_week_cooldown db (n_phone_number n) now = false)
                (mock_contact <$> seqZ 1 p_target_count)) in
    let '(queue2, row_count) := insert_do_nothing queue1 p_queue_date eligible_contacts now in
    Some ((row_count, Loaded_contacts row_count p_queue_date), queue2).

(** *** The daily preload edge function *)

(** A contact as the external contact source returns it. *)
Record ghl_contact := {
  g_id : string;
  g_phone : option string;
  g_firstName : option string;
  g_firstNameLowerCase : option string;
  g_lastName : option string;
  g_lastNameLowerCase : option string;
  g_email : option string;
  g_tags : option (list string);
  g_lastActivity : option Z;
  g_dateAdded : option Z
}.

(** [a || b] on possibly missing strings: the empty string is falsy. *)
Definition js_or (a b : option string) : option string :=
  match a with
  | Some "" | None => b
  | Some s => Some s
  end.

Definition or_empty (a : option string) : string :=
  match a with Some s => s | None => "" end.

(** [calculatePriorityScore(contact)], time in the unit of the clock. *)
Definition calculatePriorityScore (now : Z) (contact : ghl_contact) : Z :=
  let score := 50 in
  let score :=
    match g_lastActivity contact with
    | None => score + 30
    | Some a => if a <? now - 30 * Clock.usec_per_day then score + 30 else score
    end in
  let score :=
    if existsb (String.eqb "hot lead") (Sql.coalesce (g_tags contact) [])
    then score + 20 else score in
  let score :=
    match g_dateAdded contact with
    | Some d =>
        let daysOld := (now - d) / Clock.usec_per_day in
        let score := if 30 <? daysOld then score + 10 else score in
        if 60 <? daysOld then score + 10 else score
    | None => score
    end in
  Z.min score 100.

Definition targetTotal : Z := 100.

Inductive preload_response :=
| Already_loaded (count : Z)
| No_contacts_found
| Preloaded (loaded_count queue_count : Z)
| Preload_failed.

Section Preload.

(** [rpc('should_call_phone_number_smart', ...)]: whether the first
    returned row has a truthy [can_call].  The function is not part of
    the migrations at hand. *)
Variable can_call_smart : string -> bool.

Definition phoneForCheck (phone : string) : string :=
  match phone with
  | String "0"%char rest => "+44" +:+ rest
  | _ => phone
  end.

Definition queue_contact (now : Z) (contact : ghl_contact) (phone : string) : new_row :=
  {| n_contact_id := g_id contact;
     n_phone_number := phoneForCheck phone;
     n_contact_data :=
       {| cd_id := Some (g_id contact);
          cd_firstName := or_empty (js_or (g_firstNameLowerCase contact) (g_firstName contact));
          cd_lastName := or_empty (js_or (g_lastNameLowerCase contact) (g_lastName contact));
          cd_email := or_empty (g_email contact);
          cd_phone := Some phone |};
     n_priority_score := calculatePriorityScore now contact |}.

(** The filtering loop: [eligibleContacts] grows until it holds
    [needed] entries; the length test follows the push. *)
Fixpoint filter_eligible (now : Z) (needed : Z) (ghlContacts : list ghl_contact)
    (eligibleContacts : list new_row) : list new_row :=
  match ghlContacts with
  | [] => eligibleContacts
  | contact :: rest =>
      match g_phone contact with
      | Some phone =>
          if (String.length phone <? 8)%nat then
            filter_eligible now needed rest eligibleContacts
          else if can_call_smart (phoneForCheck phone) then
            let eligibleContacts := (eligibleContacts ++ [queue_contact now contact phone])%list in
            if needed <=? Z.of_nat (length eligibleContacts) then eligibleContacts
            else filter_eligible now needed rest eligibleContacts
          else filter_eligible now needed rest eligibleContacts
      | None => filter_eligible now needed rest eligibleContacts
      end
  end.

(** The loop without its bound: every contact that passes the filter,
    in the order of the source. *)
Fixpoint all_eligible (now : Z) (ghlContacts : list ghl_contact) : list new_row :=
  match ghlContacts with
  | [] => []
  | contact :: rest =>
      match g_phone contact with
      | Some phone =>
          if (String.length phone <? 8)%nat then all_eligible now rest
          else if can_call_smart (phoneForCheck phone)
               then queue_contact now contact phone :: all_eligible now rest
               else all_eligible now rest
      | None => all_eligible now rest
      end
  end.

(** The handler: [today] is the date of the clock, [ghlContacts] what
    the contact source returned. *)
Definition preload_handler
    (queue : list queue_row) (now : Z) (ghlContacts : list ghl_contact)
  : preload_response * list queue_row :=
  let today := Clock.to_date now in
  (* Check if already loaded today *)
  let alreadyLoaded := count_for_date queue today in
  if targetTotal <=? alreadyLoaded then (Already_loaded alreadyLoaded, queue)
  else
    match ghlContacts with
    | [] => (No_contacts_found, queue)
    | _ =>
        let needed := Z.max 0 (targetTotal - alreadyLoaded) in
        let eligibleContacts := filter_eligible now needed ghlContacts [] in
        (* Insert into daily queue (top-up only the missing amount) *)
        match eligibleContacts with
        | [] => (Preloaded 0 (count_for_date queue today), queue)
        | _ =>
            match insert_all queue today eligibleContacts now with
            | None => (Preload_failed, queue)
            | Some queue' =>
                (Preloaded (Z.of_nat (length eligibleContacts))
                           (count_for_date queue' today), queue')
            end
        end
    end.

End Preload.

End Queue.

(* ===================================================================== *)
(** ** Dequeue *)
(* ===================================================================== *)

Module Dequeue.
Import Queue.

(** A row of [webhook_cache]. *)
Record webhook_cache_row := {
  wc_contact_id : string;
  wc_last_sent_at : Z
}.

(** A row [get_next_call_batch] returns. *)
Record batch_row := {
  b_queue_id : Z;
  b_contact_id : string;
  b_phone_number : string;
  b_contact_data : contact_data;
  b_priority_score : Z
}.

Definition returning (r : queue_row) : batch_row :=
  {| b_queue_id := id r; b_contact_id := contact_id r;
     b_phone_number := phone_number r; b_contact_data := q_contact_data r;
     b_priority_score := priority_score r |}.

(** [ORDER BY priority_score DESC, created_at]: [a] may stand before [b]. *)
Definition ordered_before (a b : queue_row) : bool :=
  (priority_score b <? priority_score a)
  || ((priority_score a =? priority_score b) && (created_at a <=? created_at b)).

Fixpoint insert_ordered (r : queue_row) (l : list queue_row) : list queue_row :=
  match l with
  | [] => [r]
  | x :: rest => if ordered_before r x then r :: l else x :: insert_ordered r rest
  end.

(** The sort; rows with equal keys keep their table order. *)
Definition order_rows (l : list queue_row) : list queue_row :=
  foldr insert_ordered [] l.

(** The WHERE clause of the simplified function (migration 021). *)
Definition is_pending_for (p_queue_date : Z) (r : queue_row) : bool :=
  (queue_date r =? p_queue_date) && bool_decide (q_status r = pending).

(** The sub-query of migration 020: the contact was sent in the last 30
    minutes. *)
Definition recently_sent (cache : list webhook_cache_row) (now : Z) (r : queue_row) : bool :=
  existsb (λ wc, String.eqb (wc_contact_id wc) (contact_id r)
                 && (now - 30 * Clock.usec_per_minute <? wc_last_sent_at wc)) cache.

(** The WHERE clause of migration 020. *)
Definition is_pending_not_cached
    (cache : list webhook_cache_row) (now : Z) (p_queue_date : Z) (r : queue_row) : bool :=
  is_pending_for p_queue_date r && negb (recently_sent cache now r).

(** The SET clause. *)
Definition claim (now : Z) (r : queue_row) : queue_row :=
  set_status r sent_to_n8n (Some now) (call_initiated_at r) (skip_reason r) now.

Definition claim_ids (now : Z) (ids : list Z) (queue : list queue_row) : list queue_row :=
  (λ r, if bool_decide (id r ∈ ids) then claim now r else r) <$> queue.

(** The statement run alone: the batch CTE, the UPDATE and its RETURNING
    rows; [None] when LIMIT raises on a negative size. *)
Definition next_call_batch
    (where_ : queue_row -> bool) (queue : list queue_row) (p_batch_size now : Z)
  : option (list batch_row * list queue_row) :=
  if p_batch_size <? 0 then None
  else
    let batch := take (Z.to_nat p_batch_size) (order_rows (filter (λ r, where_ r = true) queue)) in
    Some ((λ r, returning (claim now r)) <$> batch, claim_ids now (id <$> batch) queue).

(** [get_next_call_batch] of migration 020. *)
Definition get_next_call_batch_020
    (cache : list webhook_cache_row) (queue : list queue_row)
    (p_batch_size p_queue_date now : Z) :=
  next_call_batch (is_pending_not_cached cache now p_queue_date) queue p_batch_size now.

(** [get_next_call_batch] of migration 021. *)
Definition get_next_call_batch
    (queue : list queue_row) (p_batch_size p_queue_date now : Z) :=
  next_call_batch (is_pending_for p_queue_date) queue p_batch_size now.

(** *** Two overlapping invocations

    Each invocation is one transaction under READ COMMITTED.  Its
    statement takes a snapshot, then walks the ordered candidate rows:
    a row whose lock another transaction holds is skipped (SKIP LOCKED);
    a row it can lock is re-checked against the WHERE clause on its latest
    committed version and kept only if it still qualifies; the walk stops
    once LIMIT rows are locked.  The UPDATE of the locked rows becomes
    visible, and the locks are released, when the transaction commits. *)

Inductive invocation := first | second.

#[global] Instance invocation_eq_dec : EqDecision invocation.
Proof. solve_decision. Defined.

Inductive phase :=
| Ready
| Locking (todo : list Z) (got : list Z)
| Returned (result : list batch_row).

Record txn := {
  t_batch_size : nat;
  t_now : Z;
  t_phase : phase
}.

Record system := {
  table : list queue_row;
  locks : gmap Z invocation;
  tx_first : txn;
  tx_second : txn
}.

Definition get (i : invocation) (s : system) : txn :=
  match i with first => tx_first s | second => tx_second s end.

Definition with_phase (i : invocation) (p : phase) (s : system) : system :=
  let t := {| t_batch_size := t_batch_size (get i s); t_now := t_now (get i s);
              t_phase := p |} in
  match i with
  | first => {| table := table s; locks := locks s; tx_first := t; tx_second := tx_second s |}
  | second => {| table := table s; locks := locks s; tx_first := tx_first s; tx_second := t |}
  end.

Definition lookup_row (queue : list queue_row) (rid : Z) : option queue_row :=
  head (filter (λ r, id r = rid) queue).

Section Interleaving.

(** The WHERE clause of each invocation (it may read the clock). *)
Variable where_ : invocation -> queue_row -> bool.

(** The transaction commits: UPDATE ... RETURNING on the locked rows. *)
Definition commit (i : invocation) (got : list Z) (s : system) : system :=
  let now := t_now (get i s) in
  let table' := claim_ids now got (table s) in
  with_phase i (Returned (returning <$> omap (lookup_row table') got))
    {| table := table';
       locks := filter (λ kv, kv.2 ≠ i) (locks s);
       tx_first := tx_first s; tx_second := tx_second s |}.

Definition lock_row (i : invocation) (rid : Z) (s : system) : system :=
  {| table := table s; locks := <[rid := i]> (locks s);
     tx_first := tx_first s; tx_second := tx_second s |}.

Definition held_by_other (i : invocation) (rid : Z) (s : system) : bool :=
  match locks s !! rid with
  | Some j => bool_decide (j ≠ i)
  | None => false
  end.

(** One step of invocation [i]. *)
Definition step (i : invocation) (s : system) : system :=
  match t_phase (get i s) with
  | Ready =>
      with_phase i
        (Locking (id <$> order_rows (filter (λ r, where_ i r = true) (table s))) []) s
  | Locking todo got =>
      if (length got <? t_batch_size (get i s))%nat then
        match todo with
        | [] => commit i got s
        | rid :: todo' =>
            let skip := with_phase i (Locking todo' got) s in
            if held_by_other i rid s then skip
            else
              match lookup_row (table s) rid with
              | Some r =>
                  if where_ i r
                  then with_phase i (Locking todo' (got ++ [rid])%list) (lock_row i rid s)
                  else skip
              | None => skip
              end
        end
      else commit i got s
  | Returned _ => s
  end.

(** A run under a schedule: who moves next. *)
Definition run (schedule : list invocation) (s : system) : system :=
  foldl (λ s i, step i s) s schedule.

Definition start (queue : list queue_row) (size1 size2 : nat) (now1 now2 : Z) : system :=
  {| table := queue; locks := ∅;
     tx_first := {| t_batch_size := size1; t_now := now1; t_phase := Ready |};
     tx_second := {| t_batch_size := size2; t_now := now2; t_phase := Ready |} |}.

End Interleaving.

(** *** What an invocation holds *)

(** The ids an invocation has locked and not yet committed. *)
Definition holding (t : txn) : list Z :=
  match t_phase t with Locking _ got => got | _ => [] end.

(** The ids of the rows an invocation has returned. *)
Definition returned (t : txn) : list Z :=
  match t_phase t with Returned result => b_queue_id <$> result | _ => [] end.

Definition owned (t : txn) : list Z := (holding t ++ returned t)%list.

(** The rows still to walk. *)
Definition todo_of (t : txn) : list Z :=
  match t_phase t with Locking todo _ => todo | _ => [] end.

(** The table after the commits so far: a row returned by an invocation
    carries that invocation's UPDATE, every other row is as it was. *)
Definition committed (s : system) (r0 : queue_row) : queue_row :=
  if bool_decide (id r0 ∈ returned (tx_first s)) then claim (t_now (tx_first s)) r0
  else if bool_decide (id r0 ∈ returned (tx_second s)) then claim (t_now (tx_second s)) r0
  else r0.

(** The invariant of a run that started from the table [table0]. *)
Record consistent (where_ : invocation -> queue_row -> bool)
    (table0 : list queue_row) (s : system) : Prop := {
  table_is : table s = committed s <$> table0;
  owned_apart : NoDup (owned (tx_first s) ++ owned (tx_second s));
  walk_apart : ∀ i, NoDup (holding (get i s) ++ todo_of (get i s));
  owned_selected :
    ∀ i rid, rid ∈ owned (get i s) → ∃ r0, r0 ∈ table0 ∧ id r0 = rid ∧ where_ i r0 = true;
  locks_are : ∀ i rid, locks s !! rid = Some i ↔ rid ∈ holding (get i s);
  returned_rows :
    ∀ i result, t_phase (get i s) = Returned result →
      ∀ b, b ∈ result →
        ∃ r0, r0 ∈ table0 ∧ b = returning (claim (t_now (get i s)) r0);
  within_limit : ∀ i, (length (owned (get i s)) <= t_batch_size (get i s))%nat
}.

(** The steps an invocation still needs at most. *)
Definition steps_left (i : invocation) (s : system) : nat :=
  match t_phase (get i s) with
  | Ready => 2 + length (table s)
  | Locking todo _ => 1 + length todo
  | Returned _ => 0
  end.

(** How often an invocation moves in a schedule. *)
Definition moves (i : invocation) (schedule : list invocation) : nat :=
  length (filter (λ j, j = i) schedule).

Definition result_of (i : invocation) (s : system) : option (list batch_row) :=
  match t_phase (get i s) with Returned result => Some result | _ => None end.

End Dequeue.

(* ===================================================================== *)
(** ** Dispatch coordinator *)
(* ===================================================================== *)

Module Dispatch.
Import Queue Dequeue.

(** [calling_settings.setting_value] of [max_daily_calls] as the edge
    function reads it: a bare number or an object with a [value]. *)
Inductive setting_value :=
| Sv_number (n : Z)
| Sv_object (value : option Z).

(** [maxDailyCalls]: 30 unless the row has a truthy [setting_value]. *)
Definition maxDailyCalls (settingsData : option setting_value) : Z :=
  match settingsData with
  | Some (Sv_number n) => if n =? 0 then 30 else n
  | Some (Sv_object v) => Sql.coalesce v 30
  | None => 30
  end.

(** Outbound calls started today: [call_type = 'outbound'] and
    [started_at] between 00:00:00.000 and 23:59:59.999 of the day. *)
Definition outboundCount (calls : list vapi_call) (now : Z) : Z :=
  let day := Clock.date_trunc_day now in
  Z.of_nat (length (filter (λ c,
    bool_decide (vc_call_type c = Some "outbound")
    && match vc_started_at c with
       | Some t => (day <=? t) && (t <=? day + Clock.usec_per_day - 1000)
       | None => false
       end = true) calls)).

(** [statusCounts[st] || 0] over the rows of today's queue. *)
Definition statusCount (queue : list queue_row) (today : Z) (st : status) : Z :=
  Z.of_nat (length (filter (λ r, queue_date r = today ∧ q_status r = st) queue)).

Definition processingNow (queue : list queue_row) (today : Z) : Z :=
  statusCount queue today sent_to_n8n + statusCount queue today calling.

Definition remainingCapacity (maxDailyCalls outboundCompletedOrStarted processingNow : Z) : Z :=
  Z.max 0 (maxDailyCalls - (outboundCompletedOrStarted + processingNow)).

(** [Math.max(0, Math.min(batchSize, remainingCapacity))]; [batchSize] is
    what [parseInt] made of the request's [batch_size]: an integer, or NaN
    ([None]), which both functions pass on. *)
Definition effectiveBatchSize (batchSize : option Z) (remainingCapacity : Z) : option Z :=
  match batchSize with
  | Some batchSize => Some (Z.max 0 (Z.min batchSize remainingCapacity))
  | None => None
  end.

(** [l.slice(0, n)]: NaN counts as 0, a negative [n] counts from the end. *)
Definition slice_to {A} (n : option Z) (l : list A) : list A :=
  match n with
  | None => []
  | Some n => if n <? 0 then take (length l - Z.to_nat (- n)) l else take (Z.to_nat n) l
  end.

(** The stale-row reset: the two UPDATEs before the dequeue. *)
Definition reset_stale (queue : list queue_row) (today now : Z) : list queue_row :=
  let fifteenMinutesAgo := now - 15 * Clock.usec_per_minute in
  let back r := set_status r pending (sent_to_n8n_at r) (call_initiated_at r)
                  (Some "stale_sent_to_n8n_auto_reset") now in
  let queue1 :=
    (λ r, if (queue_date r =? today) && bool_decide (q_status r = sent_to_n8n)
             && match sent_to_n8n_at r with
                | Some t => t <? fifteenMinutesAgo
                | None => false
                end
          then back r else r) <$> queue in
  (λ r, if (queue_date r =? today) && bool_decide (q_status r = sent_to_n8n)
           && bool_decide (sent_to_n8n_at r = None)
           && (updated_at r <? fifteenMinutesAgo)
        then back r else r) <$> queue1.

(** An element of [finalContacts]. *)
Record contact := {
  c_id : string;
  c_phone : option string;
  c_firstName : string;
  c_email : string;
  c_queue_id : Z
}.

Definition finalContact (qc : batch_row) : contact :=
  {| c_id := b_contact_id qc;
     c_phone := cd_phone (b_contact_data qc);
     c_firstName := cd_firstName (b_contact_data qc);
     c_email := cd_email (b_contact_data qc);
     c_queue_id := b_queue_id qc |}.

(** [String(c.phone)] *)
Definition String_ (x : option string) : string :=
  match x with Some s => s | None => "undefined" end.

(** What the POST to the webhook yields: a response with its status and
    body text, or the error [fetch] throws. *)
Inductive webhook_outcome :=
| Http_status (code : Z) (body : string)
| Network_error (message : string).

(** The responses of the dispatch function. *)
Inductive response :=
| Calling_disabled
| Outside_scheduled_hours
| No_remaining_capacity (max_daily outbound processing : Z)
| Effective_batch_size_zero (batchSize : option Z) (remaining : Z)
| No_pending_contacts
| All_filtered_by_deduplication
| Dry_run (contacts_to_send : Z)
| Contacts_sent (contacts_sent status : Z)
| Error_500 (message : string).

(** The UPDATE both branches of [sendContactsToN8N] issue: today's rows
    in [sent_to_n8n] whose [phone_number] is one of the batch's phones. *)
Definition update_sent_rows
    (queue : list queue_row) (today : Z) (phoneNumbers : list string)
    (set : queue_row -> queue_row) : list queue_row :=
  (λ r, if (queue_date r =? today)
           && existsb (String.eqb (phone_number r)) phoneNumbers
           && bool_decide (q_status r = sent_to_n8n)
        then set r else r) <$> queue.

(** The outcome of [sendContactsToN8N]: a response, or the error it
    throws. *)
Inductive sent := Responded (r : response) | Thrown (message : string).

Definition sendContactsToN8N
    (contacts : list contact) (outcome : webhook_outcome)
    (queue : list queue_row) (dryRun : bool) (now : Z)
  : sent * list queue_row :=
  if dryRun then (Responded (Dry_run (Z.of_nat (length contacts))), queue)
  else
    let phoneNumbers := (λ c, String_ (c_phone c)) <$> contacts in
    let todayStr := Clock.to_date now in
    (* Requeue contacts to pending if webhook fails *)
    let requeued :=
      match phoneNumbers with
      | [] => queue
      | _ => update_sent_rows queue todayStr phoneNumbers
               (λ r, set_status r pending (sent_to_n8n_at r) (call_initiated_at r)
                       (Some "n8n_webhook_failed") now)
      end in
    match outcome with
    | Network_error message => (Thrown message, requeued)
    | Http_status code errorText =>
        if (code <? 200) || (300 <=? code) then
          (Thrown ("N8N webhook failed: " +:+ pretty code +:+ " - " +:+ errorText),
           requeued)
        else
          (* Mark queue rows as 'calling' after successful webhook dispatch *)
          let marked :=
            match phoneNumbers with
            | [] => queue
            | _ => update_sent_rows queue todayStr phoneNumbers
                     (λ r, set_status r calling (sent_to_n8n_at r) (Some now)
                             (skip_reason r) now)
            end in
          (Responded (Contacts_sent (Z.of_nat (length contacts)) code), marked)
    end.

(** What one request carries and what the outside world answers during
    the cycle. *)
Record cycle_input := {
  (** [parseInt(url.searchParams.get('batch_size') || '5')]: an integer, or
      NaN ([None]) when the parameter does not start with a number *)
  batchSize : option Z;
  dryRun : bool;
  bypassCRON : bool;
  callingEnabled : bool;
  cron_schedules : list Schedule.cron_schedule;
  wall : Schedule.wall_clock;
  settingsData : option setting_value;
  calls : list vapi_call;
  (** [filter_recently_sent_contacts]: the contact ids it keeps, or null *)
  filteredIds : option (list string);
  webhook : webhook_outcome
}.

(** The schedule gate: the response that ends the cycle, if any. *)
Definition schedule_gate (q : cycle_input) : option response :=
  if negb (callingEnabled q) && negb (bypassCRON q) then Some Calling_disabled
  else
    let matching :=
      Schedule.matchingSchedule (wall q) (Schedule.active_schedules (cron_schedules q)) in
    if bool_decide (matching = None) && negb (bypassCRON q)
    then Some Outside_scheduled_hours
    else None.

(** [rpc('get_next_call_batch', { p_batch_size: effectiveBatchSize,
    p_queue_date: todayStr })].  A NaN goes out as null, and LIMIT NULL is
    no limit: every row that qualifies is claimed, as under a limit of the
    size of the table. *)
Definition rpc_get_next_call_batch
    (queue : list queue_row) (effectiveBatchSize : option Z) (todayStr now : Z)
  : option (list batch_row * list queue_row) :=
  match effectiveBatchSize with
  | Some n => get_next_call_batch queue n todayStr now
  | None => get_next_call_batch queue (Z.of_nat (length queue)) todayStr now
  end.

(** The cycle from the stale-row reset on, with the clamped batch size. *)
Definition dequeue_and_send
    (q : cycle_input) (queue : list queue_row) (now : Z) (effective : option Z)
  : response * list queue_row :=
  let todayStr := Clock.to_date now in
  let queue1 := reset_stale queue todayStr now in
  match rpc_get_next_call_batch queue1 effective todayStr now with
  | None => (Error_500 "Queue fetch error", queue1)
  | Some ([], queue2) => (No_pending_contacts, queue2)
  | Some (queueContacts, queue2) =>
      let finalContacts := finalContact <$> queueContacts in
      let contactIds := c_id <$> finalContacts in
      let deduplicatedIds := Sql.coalesce (filteredIds q) contactIds in
      let deduplicatedContacts :=
        slice_to effective (filter (λ c, c_id c ∈ deduplicatedIds) finalContacts) in
      match deduplicatedContacts with
      | [] => (All_filtered_by_deduplication, queue2)
      | _ =>
          match sendContactsToN8N deduplicatedContacts (webhook q) queue2
                  (dryRun q) now with
          | (Responded r, queue3) => (r, queue3)
          | (Thrown message, queue3) => (Error_500 message, queue3)
          end
      end
  end.

(** One dispatch cycle at clock reading [now]. *)
Definition dispatch_cycle (q : cycle_input) (queue : list queue_row) (now : Z)
  : response * list queue_row :=
  match schedule_gate q with
  | Some r => (r, queue)
  | None =>
      (* Enforce remaining daily capacity before dequeuing *)
      let todayStr := Clock.to_date now in
      let maxDaily := maxDailyCalls (settingsData q) in
      let outboundCompletedOrStarted := outboundCount (calls q) now in
      let processing := processingNow queue todayStr in
      let remaining := remainingCapacity maxDaily outboundCompletedOrStarted processing in
      if remaining <=? 0 then
        (No_remaining_capacity maxDaily outboundCompletedOrStarted processing, queue)
      else
        (* Clamp batch size to remaining capacity *)
        let effective := effectiveBatchSize (batchSize q) remaining in
        (* [effectiveBatchSize === 0]: false of NaN *)
        if bool_decide (effective = Some 0)
        then (Effective_batch_size_zero (batchSize q) remaining, queue)
        else dequeue_and_send q queue now effective
  end.

End Dispatch.

(* ===================================================================== *)
(** ** Transcript analysis write-back *)
(* ===================================================================== *)

Module Analysis.

(** The members of [updateData] this subsystem reads back. *)
Definition with_analysis (asked_explicitly_to_NOT_call_again : bool) (c : vapi_call)
  : vapi_call :=
  {| vc_call_id := vc_call_id c;
     vc_phone_number := vc_phone_number c;
     vc_status := vc_status c;
     vc_ended_reason := vc_ended_reason c;
     vc_started_at := vc_started_at c;
     vc_call_type := vc_call_type c;
     vc_asked_explicitly_to_not_call_again := Some asked_explicitly_to_NOT_call_again |}.

(** [update({ ai_analysis_status: 'processing' }).eq('call_id', id)], the
    mark the handler sets before it analyses the call: it changes none of
    the columns above, and the row trigger of migration 004 fires all the
    same. *)
Definition mark_processing (db : ledger) (call_id : string) (now : Z) : ledger :=
  Ledger.update_vapi_calls db call_id (λ c, c) now.

(** The two UPDATEs of the handler for one call: the mark at [marked_at],
    then [update(updateData).eq('call_id', id)] at [now]; each fires the
    row trigger. *)
Definition store_analysis
    (db : ledger) (call_id : string) (asked_explicitly_to_NOT_call_again : bool)
    (marked_at now : Z) : ledger :=
  Ledger.update_vapi_calls (mark_processing db call_id marked_at) call_id
    (with_analysis asked_explicitly_to_NOT_call_again) now.

End Analysis.

(* ===================================================================== *)
(** ** The checks of the eligibility decision of migration 009, one by one *)
(* ===================================================================== *)

Module Checks.

(** The lower-case day name of an instant. *)
Definition day_name (t : Z) : string :=
  match Clock.extract_dow t with
  | 0 => "sunday"
  | 1 => "monday"
  | 2 => "tuesday"
  | 3 => "wednesday"
  | 4 => "thursday"
  | 5 => "friday"
  | _ => "saturday"
  end.

(** The history row of the phone has [permanent_dnc = true]. *)
Definition permanent_dnc (db : ledger) (phone : string) : bool :=
  match phone_number_history db !! phone with
  | Some h => bool_decide (pnh_permanent_dnc h = Some true)
  | None => false
  end.

(** The time of day of the transaction's clock [now] (CURRENT_TIME) is
    before the configured start or after the configured end of the calling
    window. *)
Definition outside_window (db : ledger) (now : Z) : bool :=
  match call_window_start (settings db) with
  | Some s => Clock.to_time now <? s
  | None => false
  end
  || match call_window_end (settings db) with
     | Some e => e <? Clock.to_time now
     | None => false
     end.

(** The reason of the first check that fails, [ok] when none does. *)
Fixpoint first_failing (checks : list (bool * string)) (ok : string) : string :=
  match checks with
  | [] => ok
  | (true, why) :: _ => why
  | (false, _) :: rest => first_failing rest ok
  end.

(** *** Migration 009 *)

(** The head of the reason text. *)
Definition label (r : Eligibility.reason_009) : string :=
  match r with
  | Eligibility.Daily_limit_reached _ _ => "Daily limit reached"
  | Eligibility.Total_limit_reached _ _ => "Total limit reached"
  | Eligibility.Outside_calling_window _ _ => "Outside calling window"
  | Eligibility.Cooldown_active _ _ => "Cooldown active"
  | Eligibility.Ready_to_call => "Ready to call"
  end.

(** The attempt rows of the phone created since midnight of [t]. *)
Definition rows_today (db : ledger) (phone : string) (t : Z) : list call_attempt :=
  filter (λ r, Clock.date_trunc_day t <= ca_created_at r) (Eligibility.attempts_of db phone).

Definition daily_cap_reached_009 (db : ledger) (phone : string) (t : Z) : bool :=
  Sql.coalesce (max_daily_calls db) 100 <=? Z.of_nat (length (rows_today db phone t)).

Definition total_cap_reached_009 (db : ledger) (phone : string) : bool :=
  Sql.coalesce (max_total_attempts (settings db)) 10
  <=? Z.of_nat (length (Eligibility.attempts_of db phone)).

(** The cooldown of the latest call's ended reason, counted from the
    latest attempt row created today, has not elapsed at [t]. *)
Definition cooling_down_009 (db : ledger) (phone : string) (t : Z) : bool :=
  match Eligibility.max_of (ca_created_at <$> rows_today db phone t) with
  | Some last =>
      let reason :=
        match Eligibility.latest_call (Eligibility.calls_of db phone) with
        | Some c => vc_ended_reason c
        | None => None
        end in
      let hours :=
        Sql.coalesce
          (match reason with
           | Some "customer-did-not-answer" => no_pickup_cooldown_hours (settings db)
           | Some "twilio-failed-to-connect-call" =>
               failed_connection_cooldown_hours (settings db)
           | Some "customer-ended-call" => customer_ended_cooldown_hours (settings db)
           | _ => default_cooldown_hours (settings db)
           end) 24 in
      t <? last + hours * Clock.usec_per_hour
  | None => false
  end.

(** The order of migration 009, for a check of the time [t] in a
    transaction that started at [now]. *)
Definition checks_009 (db : ledger) (phone : string) (t now : Z) : list (bool * string) :=
  [ (daily_cap_reached_009 db phone t, "Daily limit reached");
    (total_cap_reached_009 db phone, "Total limit reached");
    (outside_window db now, "Outside calling window");
    (cooling_down_009 db phone t, "Cooldown active") ].

(** The order the specification gives, applied to the checks of
    migration 009 that it has. *)
Definition specified_order_009 (db : ledger) (phone : string) (t now : Z)
  : list (bool * string) :=
  [ (outside_window db now, "Outside calling window");
    (cooling_down_009 db phone t, "Cooldown active");
    (daily_cap_reached_009 db phone t, "Daily limit reached");
    (total_cap_reached_009 db phone, "Total limit reached") ].

(** The lifetime attempt counter of a phone, 0 without a history row. *)
Definition total_of (db : ledger) (phone : string) : Z :=
  match phone_number_history db !! phone with
  | Some h => Sql.coalesce (pnh_total_attempts h) 0
  | None => 0
  end.

(** The attempt counter of a phone on a date, 0 without a row. *)
Definition attempts_on (db : ledger) (phone : string) (date : Z) : Z :=
  match call_attempts db !! (phone, date) with
  | Some r => Sql.coalesce (ca_attempt_count r) 0
  | None => 0
  end.

Definition cooldown_on (db : ledger) (phone : string) (date : Z) : option Z :=
  match call_attempts db !! (phone, date) with
  | Some r => ca_cooldown_until r
  | None => None
  end.

(** No stored counter is NULL: every writer of the two tables stores a
    number. *)
Definition counters_not_null (db : ledger) : Prop :=
  (∀ p h, phone_number_history db !! p = Some h → is_Some (pnh_total_attempts h))
  ∧ (∀ k r, call_attempts db !! k = Some r → is_Some (ca_attempt_count r)).

End Checks.

(* ===================================================================== *)
(** ** Scenarios *)
(* ===================================================================== *)

Module Scenario.

Definition phone : string := "+447700900123".

(** Day 4 of the epoch is Monday 1970-01-05, day 5 the Tuesday. *)
Definition monday : Z := 4.
Definition tuesday : Z := 5.
Definition saturday : Z := 2.

Definition empty_ledger : ledger :=
  {| settings := default_frequency_settings;
     max_daily_calls := None;
     call_attempts := ∅;
     phone_number_history := ∅;
     vapi_calls := [] |}.

(** One attempt on Monday 10:00 that the customer ended, recorded a
    minute later. *)
Definition after_customer_ended : ledger :=
  Ledger.record_call_attempt empty_ledger phone (Some "ended")
    (Some "customer-ended-call") (Clock.at_day monday 10 0) (Clock.at_day monday 10 1).

(** A ledger whose daily maximum (migration 009) is one call, with one
    attempt row created this Monday. *)
Definition capped_ledger : ledger :=
  {| settings := default_frequency_settings;
     max_daily_calls := Some 1;
     call_attempts := call_attempts after_customer_ended;
     phone_number_history := phone_number_history after_customer_ended;
     vapi_calls := [] |}.

(** A history row with the do-not-call flag still false. *)
Definition not_yet_dnc : phone_history :=
  {| pnh_total_attempts := Some 1;
     pnh_last_successful_call := None;
     pnh_last_pickup_call := None;
     pnh_permanent_dnc := Some false;
     pnh_dnc_reason := None;
     pnh_updated_at := 0 |}.

Definition analysed_call : vapi_call :=
  {| vc_call_id := "call-1";
     vc_phone_number := Some phone;
     vc_status := Some "ended";
     vc_ended_reason := Some "customer-ended-call";
     vc_started_at := Some (Clock.at_day monday 10 0);
     vc_call_type := Some "outbound";
     vc_asked_explicitly_to_not_call_again := None |}.

(** A history row with the do-not-call flag set. *)
Definition dnc_ledger : ledger :=
  {| settings := default_frequency_settings;
     max_daily_calls := None;
     call_attempts := ∅;
     phone_number_history :=
       {[ phone := {| pnh_total_attempts := Some 0;
                      pnh_last_successful_call := None;
                      pnh_last_pickup_call := None;
                      pnh_permanent_dnc := Some true;
                      pnh_dnc_reason := Some "asked";
                      pnh_updated_at := 0 |} ]};
     vapi_calls := [] |}.

(** The call row the provider sync writes for a call placed on Monday
    10:00 to the national number [07700900123]. *)
Definition national : string := "07700900123".

Definition synced_call (status : string) (ended : option string) : vapi_call :=
  {| vc_call_id := "call-1";
     vc_phone_number := Some phone;
     vc_status := Some status;
     vc_ended_reason := ended;
     vc_started_at := Some (Clock.at_day monday 10 0);
     vc_call_type := Some "outbound";
     vc_asked_explicitly_to_not_call_again := None |}.

(** The sync overwrites the provider's columns of an existing row. *)
Definition sync_merge (old new : vapi_call) : vapi_call :=
  {| vc_call_id := vc_call_id old;
     vc_phone_number := vc_phone_number new;
     vc_status := vc_status new;
     vc_ended_reason := vc_ended_reason new;
     vc_started_at := vc_started_at new;
     vc_call_type := vc_call_type new;
     vc_asked_explicitly_to_not_call_again := vc_asked_explicitly_to_not_call_again old |}.

(** One placed call: recorded at dispatch, then seen twice by the sync
    (ringing, then ended), then analysed (marked, then written back). *)
Definition one_call_dispatched : ledger :=
  Ledger.record_dispatch empty_ledger national (Clock.at_day monday 10 0).

Definition one_call_synced : ledger :=
  Ledger.upsert_vapi_call one_call_dispatched (synced_call "ringing" None) sync_merge
    (Clock.at_day monday 10 5).

Definition one_call_ended : ledger :=
  Ledger.upsert_vapi_call one_call_synced
    (synced_call "ended" (Some "customer-did-not-answer")) sync_merge
    (Clock.at_day monday 10 10).

Definition one_call_analysed : ledger :=
  Analysis.store_analysis one_call_ended "call-1" false
    (Clock.at_day monday 10 15) (Clock.at_day monday 10 16).

Definition ledger_with_call : ledger :=
  {| settings := default_frequency_settings;
     max_daily_calls := None;
     call_attempts := ∅;
     phone_number_history := {[ phone := not_yet_dnc ]};
     vapi_calls := [analysed_call] |}.

(** *** Schedule windows *)

Definition weekend_window : Schedule.cron_schedule :=
  {| Schedule.name := "weekend"; Schedule.day_type := "weekend";
     Schedule.start_hour := 10; Schedule.start_minute := 0;
     Schedule.end_hour := 18; Schedule.end_minute := 0;
     Schedule.interval_minutes := 10; Schedule.is_active := true |}.

Definition saturday_window : Schedule.cron_schedule :=
  {| Schedule.name := "saturday"; Schedule.day_type := "saturday";
     Schedule.start_hour := 10; Schedule.start_minute := 0;
     Schedule.end_hour := 11; Schedule.end_minute := 0;
     Schedule.interval_minutes := 5; Schedule.is_active := true |}.

Definition saturday_at (h m : Z) : Schedule.wall_clock :=
  {| Schedule.day_of_week := 6; Schedule.hour := h; Schedule.minute := m |}.

(** *** Queues *)

Definition queue_entry (i : Z) (date : Z) (st : Queue.status) : Queue.queue_row :=
  {| Queue.id := i; Queue.queue_date := date;
     Queue.contact_id := "c" +:+ pretty i;
     Queue.phone_number := "+4477009" +:+ Queue.lpad0 (pretty i) 5;
     Queue.q_contact_data :=
       {| Queue.cd_id := Some ("c" +:+ pretty i); Queue.cd_firstName := "ann";
          Queue.cd_lastName := "lee"; Queue.cd_email := "";
          Queue.cd_phone := Some ("+4477009" +:+ Queue.lpad0 (pretty i) 5) |};
     Queue.priority_score := 50; Queue.q_status := st;
     Queue.sent_to_n8n_at := None; Queue.call_initiated_at := None;
     Queue.skip_reason := None;
     Queue.created_at := Clock.at_day date 6 0; Queue.updated_at := Clock.at_day date 9 59 |}.

(** Eight pending rows for Monday. *)
Definition eight_pending : list Queue.queue_row :=
  (λ i, queue_entry i monday Queue.pending) <$> seqZ 1 8.

(** Three rows handed to the sink and five pending ones, for Monday. *)
Definition three_in_flight : list Queue.queue_row :=
  ((λ i, queue_entry i monday Queue.sent_to_n8n) <$> seqZ 1 3)
  ++ ((λ i, queue_entry i monday Queue.pending) <$> seqZ 4 5).

Definition outbound_call (i : Z) : vapi_call :=
  {| vc_call_id := "call-" +:+ pretty i;
     vc_phone_number := Some ("+4477001" +:+ Queue.lpad0 (pretty i) 5);
     vc_status := Some "ended";
     vc_ended_reason := Some "customer-did-not-answer";
     vc_started_at := Some (Clock.at_day monday 9 i);
     vc_call_type := Some "outbound";
     vc_asked_explicitly_to_not_call_again := None |}.

(** A forced cycle asking for ten contacts on a day with 25 outbound
    calls and a maximum of 30. *)
Definition clamp_request : Dispatch.cycle_input :=
  {| Dispatch.batchSize := Some 10; Dispatch.dryRun := false; Dispatch.bypassCRON := true;
     Dispatch.callingEnabled := true; Dispatch.cron_schedules := [];
     Dispatch.wall := Schedule.wall_clock_of (Clock.at_day monday 10 0);
     Dispatch.settingsData := Some (Dispatch.Sv_object (Some 30));
     Dispatch.calls := outbound_call <$> seqZ 1 25;
     Dispatch.filteredIds := None;
     Dispatch.webhook := Dispatch.Http_status 200 "" |}.

(** A pending row left over from Monday. *)
Definition left_over : list Queue.queue_row := [queue_entry 1 monday Queue.pending].

(** Two invocations asking for five rows each, moving in turn. *)
Definition in_turn : list Dequeue.invocation :=
  mjoin (replicate 10 [Dequeue.first; Dequeue.second]).

(** The first invocation runs to its end before the second starts. *)
Definition one_after_the_other : list Dequeue.invocation :=
  (replicate 10 Dequeue.first ++ replicate 10 Dequeue.second)%list.

Definition overlapping (schedule : list Dequeue.invocation) : Dequeue.system :=
  Dequeue.run (λ _, Dequeue.is_pending_for monday) schedule
    (Dequeue.start eight_pending 5 5 (Clock.at_day monday 10 0) (Clock.at_day monday 10 0)).

(** The queue ids an invocation has returned. *)
Definition returned_ids (i : Dequeue.invocation) (s : Dequeue.system) : option (list Z) :=
  match Dequeue.result_of i s with
  | Some batch => Some (Dequeue.b_queue_id <$> batch)
  | None => None
  end.

(** Status and skip reason of the rows of a date. *)
Definition rows_of_date (date : Z) (queue : list Queue.queue_row)
  : list (Queue.status * option string) :=
  (λ r, (Queue.q_status r, Queue.skip_reason r))
    <$> filter (λ r, Queue.queue_date r = date) queue.

(** A contact of the external source, with a national phone number. *)
Definition ghl_ann : Queue.ghl_contact :=
  {| Queue.g_id := "ghl-ann"; Queue.g_phone := Some national;
     Queue.g_firstName := Some "Ann"; Queue.g_firstNameLowerCase := Some "ann";
     Queue.g_lastName := Some "Lee"; Queue.g_lastNameLowerCase := Some "lee";
     Queue.g_email := Some "ann@example.com"; Queue.g_tags := None;
     Queue.g_lastActivity := None; Queue.g_dateAdded := None |}.

(** A contact whose phone number is already in international form. *)
Definition ghl_bob : Queue.ghl_contact :=
  {| Queue.g_id := "ghl-bob"; Queue.g_phone := Some "+447700900456";
     Queue.g_firstName := Some "Bob"; Queue.g_firstNameLowerCase := Some "bob";
     Queue.g_lastName := Some "Ray"; Queue.g_lastNameLowerCase := Some "ray";
     Queue.g_email := Some "bob@example.com"; Queue.g_tags := None;
     Queue.g_lastActivity := None; Queue.g_dateAdded := None |}.

Definition preloaded_tuesday_bob : list Queue.queue_row :=
  snd (Queue.preload_handler (λ _, true) [] (Clock.at_day tuesday 6 0) [ghl_bob]).

(** The queue after the morning preload of Tuesday with that contact. *)
Definition preloaded_tuesday : list Queue.queue_row :=
  snd (Queue.preload_handler (λ _, true) [] (Clock.at_day tuesday 6 0) [ghl_ann]).

(** A forced cycle whose webhook call is answered with status 500. *)
Definition failing_request : Dispatch.cycle_input :=
  {| Dispatch.batchSize := Some 5; Dispatch.dryRun := false; Dispatch.bypassCRON := true;
     Dispatch.callingEnabled := true; Dispatch.cron_schedules := [];
     Dispatch.wall := Schedule.wall_clock_of (Clock.at_day tuesday 10 0);
     Dispatch.settingsData := None;
     Dispatch.calls := [];
     Dispatch.filteredIds := None;
     Dispatch.webhook := Dispatch.Http_status 500 "Workflow could not be started" |}.

End Scenario.

(* ===================================================================== *)
(** ** Histories of the ledger *)
(* ===================================================================== *)

Module History.

(** A write to the ledger tables: the statements of the subsystem that
    reach [record_call_attempt], directly or through the row trigger of
    [vapi_calls]. *)
Inductive write :=
| Record_call_attempt (p_phone_number : string) (p_call_status p_ended_reason : option string)
    (p_call_time : Z)
| Record_dispatch (phone : string)
| Upsert_vapi_call (new : vapi_call) (merge : vapi_call -> vapi_call -> vapi_call)
| Update_vapi_calls (id : string) (set : vapi_call -> vapi_call).

Definition apply (db : ledger) (w : write) (now : Z) : ledger :=
  match w with
  | Record_call_attempt p st r t => Ledger.record_call_attempt db p st r t now
  | Record_dispatch phone => Ledger.record_dispatch db phone now
  | Upsert_vapi_call new merge => Ledger.upsert_vapi_call db new merge now
  | Update_vapi_calls id set => Ledger.update_vapi_calls db id set now
  end.

(** The ledger after a sequence of writes, each with its clock reading. *)
Definition replay (db : ledger) (ws : list (write * Z)) : ledger :=
  foldl (λ d wn, apply d (fst wn) (snd wn)) db ws.

(** The tables as the migration creates them: no attempt, no history, no
    call. *)
Definition fresh (s : call_frequency_settings) (max_daily : option Z) : ledger :=
  {| settings := s; max_daily_calls := max_daily;
     call_attempts := ∅; phone_number_history := ∅; vapi_calls := [] |}.

(** The attempts of a phone on one day are counted within its lifetime
    attempts. *)
Definition daily_within_lifetime (db : ledger) : Prop :=
  ∀ (p : string) (d : Z), 0 <= Checks.attempts_on db p d <= Checks.total_of db p.

(** The invariant of the ledger. *)
Definition sound (db : ledger) : Prop :=
  Checks.counters_not_null db ∧ daily_within_lifetime db.

End History.

(* ===================================================================== *)
(** ** ORDER BY *)
(* ===================================================================== *)

Module Ordering.

Section Insertion.
Context {A : Type}.

(** [before a b]: [a] may stand before [b] in the output. *)
Variable before : A -> A -> bool.

Fixpoint insert_by (x : A) (l : list A) : list A :=
  match l with
  | [] => [x]
  | y :: rest => if before x y then x :: l else y :: insert_by x rest
  end.

(** The sort; rows that may stand either way keep their input order. *)
Definition sort_by (l : list A) : list A := foldr insert_by [] l.

End Insertion.

End Ordering.

(* ===================================================================== *)
(** ** The numbers ready to call (migration 004) *)
(* ===================================================================== *)

Module Ready.
Import Sql.

(** A row [get_numbers_ready_to_call] returns. *)
Record callable_number := {
  r_phone_number : string;
  r_can_call : bool;
  r_reason : string;
  r_priority_score : Z
}.

(** [EXTRACT(DAYS FROM (a - b))::INTEGER]: the day field of the interval
    between two instants, whole days counted toward zero. *)
Definition days_between (a b : Z) : Z := Z.quot (a - b) Clock.usec_per_day.

(** The priority CASE: less recent attempts, higher priority. *)
Definition priority_score (h : phone_history) (p_current_time : Z) : Z :=
  match pnh_last_pickup_call h with
  | None => 100
  | Some last_pickup_call =>
      match pnh_last_successful_call h with
      | None => 80
      | Some _ => 60 - days_between p_current_time last_pickup_call
      end
  end.

(** The row of the CTE for one history row: the lateral call of
    [should_call_phone_number], as migration 004 defines it, and the
    priority.  A call that raises aborts the query. *)
Definition callable_row (db : ledger) (p_current_time now : Z) (phone : string)
    (h : phone_history) : outcome callable_number :=
  match Eligibility.should_call_phone_number db phone p_current_time now with
  | Raises e => Raises e
  | Returns should_call_info =>
      Returns {| r_phone_number := phone;
                 r_can_call := Eligibility.can_call should_call_info;
                 r_reason := Eligibility.reason should_call_info;
                 r_priority_score := priority_score h p_current_time |}
  end.

(** The lateral join over the history rows with [permanent_dnc = false]:
    the function is called once for each of them. *)
Fixpoint lateral_rows (db : ledger) (p_current_time now : Z)
    (rows : list (string * phone_history)) : outcome (list callable_number) :=
  match rows with
  | [] => Returns []
  | kh :: rest =>
      if is_true (cmp3 Bool.eqb (pnh_permanent_dnc (snd kh)) (Some false)) then
        match callable_row db p_current_time now (fst kh) (snd kh) with
        | Raises e => Raises e
        | Returns row =>
            match lateral_rows db p_current_time now rest with
            | Raises e => Raises e
            | Returns l => Returns (row :: l)
            end
        end
      else lateral_rows db p_current_time now rest
  end.

(** The CTE [callable_numbers]. *)
Definition callable_numbers (db : ledger) (p_current_time now : Z)
  : outcome (list callable_number) :=
  lateral_rows db p_current_time now (map_to_list (phone_number_history db)).

Section Random.

(** The rank of the value [random()] drew for the row of each phone. *)
Variable random : string -> Z.

(** [ORDER BY priority_score DESC, random()] *)
Definition sorts_first (a b : callable_number) : bool :=
  (r_priority_score b <? r_priority_score a)
  || ((r_priority_score a =? r_priority_score b)
      && (random (r_phone_number a) <=? random (r_phone_number b))).

(** [get_numbers_ready_to_call(p_limit, p_current_time)] in a transaction
    that started at [now]. *)
Definition get_numbers_ready_to_call (db : ledger) (p_limit p_current_time now : Z)
  : outcome (list callable_number) :=
  if p_limit <? 0 then Raises negative_limit
  else
    match callable_numbers db p_current_time now with
    | Raises e => Raises e
    | Returns rows =>
        Returns (take (Z.to_nat p_limit)
                   (Ordering.sort_by sorts_first
                      (filter (λ cn, r_can_call cn = true) rows)))
    end.

(** *** The get-callable-numbers edge function (POST) *)

Inductive callable_response :=
| Failed_to_get_callable_numbers (details : error)
| Callable_numbers (numbers : list callable_number) (total_available total_checked : Z).

(** [body.limit || 50] *)
Definition limit_or_50 (limit : option Z) : Z :=
  match limit with
  | Some 0 | None => 50
  | Some n => n
  end.

Definition get_callable_numbers (db : ledger) (limit current_time : option Z) (now : Z)
  : callable_response :=
  let limit := limit_or_50 limit in
  let current_time := coalesce current_time now in
  match get_numbers_ready_to_call db limit current_time now with
  | Raises e => Failed_to_get_callable_numbers e
  | Returns callableNumbers =>
      let readyNumbers := filter (λ n, r_can_call n = true) callableNumbers in
      Callable_numbers readyNumbers (Z.of_nat (length readyNumbers))
        (Z.of_nat (length callableNumbers))
  end.

End Random.

End Ready.

(* ===================================================================== *)
(** ** The cron entry point (schedule-calls) *)
(* ===================================================================== *)

Module Cron.
Import Schedule.

Definition isWeekday (dayOfWeek : Z) : bool := (1 <=? dayOfWeek) && (dayOfWeek <=? 5).

Definition isWeekend (dayOfWeek : Z) : bool := (dayOfWeek =? 0) || (dayOfWeek =? 6).

(** [minute % n === 0] *)
Definition every (n minute : Z) : bool := Z.rem minute n =? 0.

(** The schedule of the POST handler: [scheduleReason] when [shouldCall]
    is set, [None] when the request is answered "Outside calling
    schedule". *)
Definition scheduleReason (now : wall_clock) : option string :=
  let hour := hour now in
  let minute := minute now in
  if isWeekday (day_of_week now) then
    if (hour =? 8) && (15 <=? minute) && (minute <=? 45) && every 5 minute then
      Some "Weekday morning calling window (8:15-8:45)"
    else if (hour =? 12) && (30 <=? minute) && (minute <=? 55) && every 5 minute then
      Some "Weekday lunch calling window (12:30-12:55)"
    else if (hour =? 13) && (0 <=? minute) && (minute <=? 30) && every 5 minute then
      Some "Weekday afternoon calling window (13:00-13:30)"
    else if (hour =? 17) && (0 <=? minute) && (minute <=? 30) && every 5 minute then
      Some "Weekday evening calling window (17:00-17:30)"
    else None
  else if isWeekend (day_of_week now) then
    if (hour =? 10) && every 10 minute then
      Some "Weekend morning calling window (10:00-10:50)"
    else if (hour =? 11) && (minute =? 0) then
      Some "Weekend morning calling window (11:00)"
    else if (hour =? 13) && every 10 minute then
      Some "Weekend afternoon calling window (13:00-13:50)"
    else if (hour =? 14) && (minute =? 0) then
      Some "Weekend afternoon calling window (14:00)"
    else if (hour =? 17) && every 10 minute then
      Some "Weekend evening calling window (17:00-17:50)"
    else if (hour =? 18) && (minute =? 0) then
      Some "Weekend evening calling window (18:00)"
    else None
  else None.

(** [getCurrentStatus(now)] of the GET handler. *)
Definition getCurrentStatus (now : wall_clock) : string :=
  let hour := hour now in
  let minute := minute now in
  let inactive := "INACTIVE - Outside calling windows" in
  if isWeekday (day_of_week now) then
    if (hour =? 8) && (15 <=? minute) && (minute <=? 45) then
      "ACTIVE - Weekday morning window"
    else if (hour =? 12) && (30 <=? minute) && (minute <=? 55) then
      "ACTIVE - Weekday lunch window"
    else if (hour =? 13) && (0 <=? minute) && (minute <=? 30) then
      "ACTIVE - Weekday afternoon window"
    else if (hour =? 17) && (0 <=? minute) && (minute <=? 30) then
      "ACTIVE - Weekday evening window"
    else inactive
  else
    if (hour =? 10) || (hour =? 11) then "ACTIVE - Weekend morning window"
    else if (hour =? 13) || (hour =? 14) then "ACTIVE - Weekend afternoon window"
    else if (hour =? 17) || (hour =? 18) then "ACTIVE - Weekend evening window"
    else inactive.

(** [getNextCallingWindow(now)] of the GET handler. *)
Definition getNextCallingWindow (now : wall_clock) : string :=
  let hour := hour now in
  if isWeekday (day_of_week now) then
    if hour <? 8 then "Today 8:15 AM"
    else if hour <? 12 then "Today 12:30 PM"
    else if hour <? 13 then "Today 1:00 PM"
    else if hour <? 17 then "Today 5:00 PM"
    else "Tomorrow 8:15 AM"
  else
    if hour <? 10 then "Today 10:00 AM"
    else if hour <? 13 then "Today 1:00 PM"
    else if hour <? 17 then "Today 5:00 PM"
    else "Tomorrow 10:00 AM".

(** A window of [schedule_info], the timetable the GET handler
    advertises, as a schedule row. *)
Definition window (day_type : string) (h1 m1 h2 m2 interval : Z) : cron_schedule :=
  {| name := day_type; day_type := day_type;
     start_hour := h1; start_minute := m1; end_hour := h2; end_minute := m2;
     interval_minutes := interval; is_active := true |}.

Definition schedule_info : list cron_schedule :=
  [ window "weekday" 8 15 8 45 5;
    window "weekday" 12 30 12 55 5;
    window "weekday" 13 0 13 30 5;
    window "weekday" 17 0 17 30 5;
    window "weekend" 10 0 11 0 10;
    window "weekend" 13 0 14 0 10;
    window "weekend" 17 0 18 0 10 ].

(** Does the handler agree, at one moment, with the advertised timetable
    read by the WHERE clause of [should_call_now]? *)
Definition agrees_with_schedule_info (now : wall_clock) : bool :=
  bool_decide (is_Some (scheduleReason now)
               ↔ Exists (λ s, row_matches now s = Some true) schedule_info).

(** Every minute of a week. *)
Definition minutes_of_week : list wall_clock :=
  d ← seqZ 0 7; h ← seqZ 0 24; m ← seqZ 0 60;
  [ {| day_of_week := d; hour := h; minute := m |} ].

End Cron.

(* ===================================================================== *)
(** ** Paging through the contact source (daily preload) *)
(* ===================================================================== *)

Module Fetch.
Import Queue.

(** What one POST to the contact search yields: a response with
    [response.ok] and its [data.contacts], a response with another status,
    or an exception of [fetch] or [json()]. *)
Inductive search_response :=
| Search_ok (contacts : option (list ghl_contact))
| Search_failed (status : Z)
| Search_threw.

Section Pagination.

(** The answer of the contact source to the request for each page. *)
Variable search : Z -> search_response.

(** The [while (allContacts.length < targetCount && page <= 5)] loop;
    [fuel] bounds the iterations. *)
Fixpoint fetch_loop (fuel : nat) (targetCount page : Z) (allContacts : list ghl_contact)
  : option (list ghl_contact) :=
  if (Z.of_nat (length allContacts) <? targetCount) && (page <=? 5) then
    match fuel with
    | O => None
    | S fuel =>
        match search page with
        | Search_ok contacts =>
            match Sql.coalesce contacts [] with
            | [] => Some allContacts
            | contacts =>
                fetch_loop fuel targetCount (page + 1) (allContacts ++ contacts)%list
            end
        | Search_failed _ | Search_threw => Some allContacts
        end
    end
  else Some allContacts.

(** [fetchGHLContactsWithPagination(apiKey, targetCount)] *)
Definition fetchGHLContactsWithPagination (fuel : nat) (targetCount : Z)
  : option (list ghl_contact) :=
  fetch_loop fuel targetCount 1 [].

(** The contacts a page brings: none unless the request succeeds. *)
Definition page_contacts (page : Z) : list ghl_contact :=
  match search page with
  | Search_ok (Some contacts) => contacts
  | _ => []
  end.

(** The contacts of the pages 1 to [k], in order. *)
Definition first_pages (k : nat) : list ghl_contact :=
  mjoin (page_contacts <$> seqZ 1 (Z.of_nat k)).

End Pagination.

End Fetch.

(* ===================================================================== *)
(** ** The other writers of the queue status *)
(* ===================================================================== *)

Module QueueSync.
Import Queue.

(** A call as the provider lists it (the members the queue sync reads). *)
Record VapiCall := {
  v_status : string;
  v_type : string;
  v_customer_number : option string;
  v_startedAt : option Z
}.

(** The provider sync maps the status of the call to a queue status. *)
Definition queueStatus (status : string) : option Queue.status :=
  if String.eqb status "ringing" || String.eqb status "in-progress"
     || String.eqb status "forwarding" then Some calling
  else if String.eqb status "ended" then Some completed
  else if String.eqb status "failed" then Some failed
  else None.

(** The queue sync of the provider sync, run for a call whose upsert
    succeeded: today's rows of the phone in [sent_to_n8n] or [calling]
    take the mapped status. *)
Definition sync_queue_status (queue : list queue_row) (call : VapiCall) (now : Z)
  : list queue_row :=
  match v_customer_number call, v_startedAt call with
  | Some phone, Some startedAt =>
      if String.eqb (v_type call) "outboundPhoneCall" && negb (String.eqb phone "") then
        match queueStatus (v_status call) with
        | Some st =>
            (λ r, if (queue_date r =? Clock.to_date startedAt)
                     && String.eqb (phone_number r) phone
                     && (bool_decide (q_status r = sent_to_n8n)
                         || bool_decide (q_status r = calling))
                  then set_status r st (sent_to_n8n_at r) (call_initiated_at r)
                         (skip_reason r) now
                  else r) <$> queue
        | None => queue
        end
      else queue
  | _, _ => queue
  end.

(** Step 4.5 of the call analysis: the rows of the phone on the day the
    call started that are still in [sent_to_n8n] become [completed]
    ([new Date(null)] is the epoch; [updated_at] is left to the BEFORE
    UPDATE trigger of the table, taken to store the clock). *)
Definition complete_analysed (queue : list queue_row) (call : vapi_call) (now : Z)
  : list queue_row :=
  match vc_phone_number call with
  | Some phone =>
      if bool_decide (vc_call_type call = Some "outbound") && negb (String.eqb phone "") then
        let callDate := Clock.to_date (Sql.coalesce (vc_started_at call) 0) in
        (λ r, if String.eqb (phone_number r) phone
                 && (queue_date r =? callDate)
                 && bool_decide (q_status r = sent_to_n8n)
              then set_status r completed (sent_to_n8n_at r) (call_initiated_at r)
                     (skip_reason r) now
              else r) <$> queue
      else queue
  | None => queue
  end.

End QueueSync.

(* ===================================================================== *)
(** ** The life of a queue row *)
(* ===================================================================== *)

Module Lifecycle.
Import Queue.

(** A row the stale-row reset of the dispatch puts back: one of today in
    [sent_to_n8n], handed over more than 15 minutes ago or, with no
    hand-over time, last updated more than 15 minutes ago. *)
Definition is_stale (today now : Z) (r : queue_row) : bool :=
  (queue_date r =? today) && bool_decide (q_status r = sent_to_n8n)
  && match sent_to_n8n_at r with
     | Some t => t <? now - 15 * Clock.usec_per_minute
     | None => updated_at r <? now - 15 * Clock.usec_per_minute
     end.

(** A row that counts as in flight today. *)
Definition in_flight (today : Z) (r : queue_row) : bool :=
  (queue_date r =? today)
  && (bool_decide (q_status r = sent_to_n8n) || bool_decide (q_status r = calling)).

(** The statuses that end the life of a row. *)
Definition terminal (st : status) : bool :=
  match st with
  | completed | failed | skipped => true
  | pending | sent_to_n8n | calling => false
  end.

(** What a row of the queue may turn into: it keeps its identity, a row
    in a terminal status is frozen, and a row in [calling] only moves on
    to [completed] or [failed]. *)
Record evolves (r r' : queue_row) : Prop := {
  same_id : id r' = id r;
  same_date : queue_date r' = queue_date r;
  same_contact : contact_id r' = contact_id r;
  same_phone : phone_number r' = phone_number r;
  same_data : q_contact_data r' = q_contact_data r;
  same_priority : priority_score r' = priority_score r;
  same_created : created_at r' = created_at r;
  frozen : terminal (q_status r) = true -> r' = r;
  no_way_back :
    q_status r = calling ->
    q_status r' = calling \/ q_status r' = completed \/ q_status r' = failed
}.

(** Every row of [queue] is still in [queue'], at its place, and is what
    the old row may have turned into. *)
Definition carried_over (queue queue' : list queue_row) : Prop :=
  ∀ (i : nat) (r : queue_row),
    queue !! i = Some r → ∃ r', queue' !! i = Some r' ∧ evolves r r'.

(** A statement or request that writes the queue. *)
Inductive write :=
| Preload_sql (db : ledger) (p_target_count p_queue_date : Z)
| Preload_edge (can_call_smart : string -> bool) (ghlContacts : list ghl_contact)
| Next_batch_020 (cache : list Dequeue.webhook_cache_row) (p_batch_size p_queue_date : Z)
| Next_batch (p_batch_size p_queue_date : Z)
| Dispatch_cycle (q : Dispatch.cycle_input)
| Provider_sync (call : QueueSync.VapiCall)
| Analysed (call : vapi_call).

(** The queue after a write at clock reading [now]; a statement that
    raises leaves the table as it was. *)
Definition apply (queue : list queue_row) (w : write) (now : Z) : list queue_row :=
  match w with
  | Preload_sql db n d =>
      match preload_daily_contacts db queue n d now with
      | Some (_, queue') => queue'
      | None => queue
      end
  | Preload_edge f cs => snd (preload_handler f queue now cs)
  | Next_batch_020 cache n d =>
      match Dequeue.get_next_call_batch_020 cache queue n d now with
      | Some (_, queue') => queue'
      | None => queue
      end
  | Next_batch n d =>
      match Dequeue.get_next_call_batch queue n d now with
      | Some (_, queue') => queue'
      | None => queue
      end
  | Dispatch_cycle q => snd (Dispatch.dispatch_cycle q queue now)
  | Provider_sync call => QueueSync.sync_queue_status queue call now
  | Analysed call => QueueSync.complete_analysed queue call now
  end.

(** The queue after a sequence of writes, each with its clock reading. *)
Definition replay (queue : list queue_row) (ws : list (write * Z)) : list queue_row :=
  foldl (λ q wn, apply q (fst wn) (snd wn)) queue ws.

End Lifecycle.

(* ===================================================================== *)
(** ** The start-calling edge function (POST) *)
(* ===================================================================== *)

Module StartCalling.
Import Queue.

(** [!contact.phone]: no phone, or the empty string. *)
Definition no_phone (contact : ghl_contact) : bool :=
  match g_phone contact with
  | None | Some "" => true
  | Some _ => false
  end.

(** [formatPhoneForCheck(c.phone ?? '')] *)
Definition norm (c : ghl_contact) : string :=
  Ledger.formatPhoneForCheck (default "" (g_phone c)).

(** The de-duplication filter: [seenNumbers] is the set of normalised
    numbers met so far. *)
Fixpoint dedupe (seenNumbers : gset string) (ghlContacts : list ghl_contact)
  : list ghl_contact :=
  match ghlContacts with
  | [] => []
  | c :: rest =>
      if String.eqb (norm c) "" then dedupe seenNumbers rest
      else if bool_decide (norm c ∈ seenNumbers) then dedupe seenNumbers rest
      else c :: dedupe ({[norm c]} ∪ seenNumbers) rest
  end.

(** [l.slice(0, n)]; [None] is NaN, which [slice] takes as 0, and a
    negative [n] counts from the end. *)
Definition slice0 {A} (n : option Z) (l : list A) : list A :=
  match n with
  | None => []
  | Some n => if n <? 0 then take (length l - Z.to_nat (- n)) l else take (Z.to_nat n) l
  end.

(** What [createVAPICall] yields for a contact, or an exception in the
    loop body. *)
Inductive call_result :=
| Call_started (call_id : string)
| Call_failed (error : string)
| Call_threw (error : string).

Definition started (r : call_result) : bool :=
  match r with Call_started _ => true | _ => false end.

(** The number [createVAPICall] dials. *)
Definition customer_number (phone : string) : string :=
  match phone with
  | String "0"%char rest => "+44" +:+ rest
  | _ => phone
  end.

Inductive response :=
| No_contacts_found
| All_in_cooldown (contacts_found : Z)
| Batch_completed (contacts_found contacts_callable calls_initiated calls_failed : Z).

Section Batch.

(** What the eligibility rpc [should_call_phone_number] answers for the
    [k]-th contact of the batch: whether the first row of its data has a truthy
    [can_call] ([canCallResult?.[0]?.can_call]; an rpc that failed, and a
    row without such a column, give a falsy value). *)
Variable can_call : nat -> bool.

(** What the provider answers for the [k]-th callable contact, and the
    clock when its attempt is recorded; the rpc [record_call_attempt] is
    taken to succeed. *)
Variable vapi : nat -> call_result.
Variable record_time : nat -> Z.

(** The filter loop: the callable contacts and the contact ids passed to
    [updateGHLContactNullPhone]. *)
Fixpoint filter_callable (k : nat) (ghlContacts : list ghl_contact)
  : list ghl_contact * list string :=
  match ghlContacts with
  | [] => ([], [])
  | contact :: rest =>
      let '(callableContacts, nullPhone) := filter_callable (S k) rest in
      if no_phone contact then (callableContacts, g_id contact :: nullPhone)
      else if can_call k then (contact :: callableContacts, nullPhone)
      else (callableContacts, nullPhone)
  end.

(** The calling loop: the result of each contact and the ledger after
    the attempts recorded for the calls that started. *)
Fixpoint place_calls (db : ledger) (k : nat) (callableContacts : list ghl_contact)
  : list (ghl_contact * call_result) * ledger :=
  match callableContacts with
  | [] => ([], db)
  | contact :: rest =>
      let db1 :=
        match vapi k with
        | Call_started _ =>
            Ledger.record_dispatch db (default "" (g_phone contact)) (record_time k)
        | Call_failed _ | Call_threw _ => db
        end in
      let '(results, db2) := place_calls db1 (S k) rest in
      ((contact, vapi k) :: results, db2)
  end.

(** The POST handler: [uiBatchSize] is the configured batch size,
    [fetched] what the contact source returned. *)
Definition start_calling (db : ledger) (uiBatchSize : option Z) (fetched : list ghl_contact)
  : response * list string * ledger :=
  let ghlContacts := slice0 uiBatchSize (dedupe ∅ fetched) in
  match ghlContacts with
  | [] => (No_contacts_found, [], db)
  | _ =>
      let '(callableContacts, nullPhone) := filter_callable 0 ghlContacts in
      match callableContacts with
      | [] => (All_in_cooldown (Z.of_nat (length ghlContacts)), nullPhone, db)
      | _ =>
          let '(results, db') := place_calls db 0 callableContacts in
          let successCount := length (filter (λ r, started (snd r) = true) results) in
          let errorCount := length (filter (λ r, started (snd r) = false) results) in
          (Batch_completed (Z.of_nat (length ghlContacts))
             (Z.of_nat (length callableContacts))
             (Z.of_nat successCount) (Z.of_nat errorCount),
           nullPhone, db')
      end
  end.

End Batch.

End StartCalling.

(* ===================================================================== *)
(** ** Further scenarios *)
(* ===================================================================== *)

Module Examples.

Definition wednesday : Z := 6.

Definition other_phone : string := "+447700900456".

(** Two numbers on a Monday: the first is called once and does not answer;
    the second is called twice, the customer ending the second call. *)
Definition two_numbers : ledger :=
  let db1 := Ledger.record_call_attempt Scenario.empty_ledger Scenario.phone (Some "ended")
               (Some "customer-did-not-answer") (Clock.at_day Scenario.monday 10 0)
               (Clock.at_day Scenario.monday 10 1) in
  let db2 := Ledger.record_call_attempt db1 other_phone (Some "ended")
               (Some "customer-did-not-answer") (Clock.at_day Scenario.monday 10 30)
               (Clock.at_day Scenario.monday 10 31) in
  Ledger.record_call_attempt db2 other_phone (Some "ended")
    (Some "customer-ended-call") (Clock.at_day Scenario.monday 11 0)
    (Clock.at_day Scenario.monday 11 1).

(** The history row of the second number after that Monday. *)
Definition other_history : phone_history :=
  {| pnh_total_attempts := Some 2;
     pnh_last_successful_call := Some (Clock.at_day Scenario.monday 11 0);
     pnh_last_pickup_call := Some (Clock.at_day Scenario.monday 11 0);
     pnh_permanent_dnc := Some false;
     pnh_dnc_reason := None;
     pnh_updated_at := Clock.at_day Scenario.monday 11 1 |}.

(** The forced cycle of [Scenario.clamp_request] asked with a batch size
    that is not a number, as in [batch_size=all]. *)
Definition nan_request : Dispatch.cycle_input :=
  {| Dispatch.batchSize := None; Dispatch.dryRun := false; Dispatch.bypassCRON := true;
     Dispatch.callingEnabled := true; Dispatch.cron_schedules := [];
     Dispatch.wall := Schedule.wall_clock_of (Clock.at_day Scenario.monday 10 0);
     Dispatch.settingsData := Some (Dispatch.Sv_object (Some 30));
     Dispatch.calls := Scenario.outbound_call <$> seqZ 1 25;
     Dispatch.filteredIds := None;
     Dispatch.webhook := Dispatch.Http_status 200 "" |}.

(** A contact source with two pages, the third request failing. *)
Definition two_pages (page : Z) : Fetch.search_response :=
  match page with
  | 1 => Fetch.Search_ok (Some [Scenario.ghl_ann])
  | 2 => Fetch.Search_ok (Some [Scenario.ghl_bob])
  | _ => Fetch.Search_failed 500
  end.

(** A batch on Monday 10:00 in which every contact is answered as
    callable, the first call starts and every other call is refused by the
    provider. *)
Definition at_ten (k : nat) : Z := Clock.at_day Scenario.monday 10 0.

Definition all_callable (k : nat) : bool := true.

(** The answers of an eligibility rpc that fails, or whose rows have no
    [can_call] column: no contact is callable. *)
Definition none_callable (k : nat) : bool := false.

Definition first_call_starts (k : nat) : StartCalling.call_result :=
  match k with
  | O => StartCalling.Call_started "call-1"
  | S _ => StartCalling.Call_failed "VAPI API error: 400"
  end.

Definition monday_batch : StartCalling.response * list string * ledger :=
  StartCalling.start_calling all_callable first_call_starts at_ten Scenario.empty_ledger
    (Some 2)
    [Scenario.ghl_ann; Scenario.ghl_bob].

(** The same batch when the eligibility rpc answers for no contact. *)
Definition refused_batch : StartCalling.response * list string * ledger :=
  StartCalling.start_calling none_callable first_call_starts at_ten Scenario.empty_ledger
    (Some 2)
    [Scenario.ghl_ann; Scenario.ghl_bob].

End Examples.

(* ===================================================================== *)
(** ** Call analysis: tool calls, retries, follow-up and scores
       (process-call-analysis/index.ts, constraints of part_003) *)
(* ===================================================================== *)

Module AnalysisRules.

(** A member the interface types [string | boolean]. *)
Inductive flag :=
| Flag_bool (b : bool)
| Flag_text (s : string).

(** JavaScript truthiness of such a member: [Boolean(x)], [if (x)]. *)
Definition truthy (x : flag) : bool :=
  match x with
  | Flag_bool b => b
  | Flag_text s => negb (String.eqb s "")
  end.

Record CallAnalysisResult := {
  key_details : string;
  user_sentiment : string;
  asked_explicitly_to_NOT_call_again : flag;
  follow_up_date : string;
  call_with_agent_booked : flag
}.

(** The [date] of a follow-up: the text the model answered, or the
    calendar day that [toISOString().split('T')[0]] prints. *)
Inductive follow_up_day :=
| As_answered (s : string)
| Iso_day (d : Z).

Record follow_up := {
  fu_type : option string;
  fu_reason : string;
  fu_urgency : option string;
  fu_date : option follow_up_day
}.

(** [calculateFollowUp(analysis, callEndedAt)].  [callEndedAt] is the
    [ended_at] column; [new Date(null)] is the epoch, [setDate(getDate() +
    21)] moves the instant by 21 days of the runtime's zone (UTC). *)
Definition calculateFollowUp (analysis : CallAnalysisResult) (callEndedAt : option Z)
  : follow_up :=
  if truthy (call_with_agent_booked analysis) then
    {| fu_type := Some "agent_booking_followup";
       fu_reason := "Follow up on scheduled agent appointment";
       fu_urgency := Some "high";
       fu_date := None |}
  else if truthy (asked_explicitly_to_NOT_call_again analysis) then
    {| fu_type := None;
       fu_reason := "Customer requested no further contact";
       fu_urgency := None;
       fu_date := None |}
  else if negb (String.eqb (follow_up_date analysis) "") then
    {| fu_type := Some "mortgage_expiry";
       fu_reason := "Mortgage-based follow-up";
       fu_urgency := Some "medium";
       fu_date := Some (As_answered (follow_up_date analysis)) |}
  else
    let retryDate := Sql.coalesce callEndedAt 0 + 21 * Clock.usec_per_day in
    {| fu_type := Some "failed_call_retry";
       fu_reason := "Standard retry for unsuccessful call";
       fu_urgency := Some "low";
       fu_date := Some (Iso_day (Clock.to_date retryDate)) |}.

(** [determineBusinessSuccess(analysis, toolCalls)] *)
Definition determineBusinessSuccess (analysis : CallAnalysisResult) : bool :=
  let agentBooked :=
    match call_with_agent_booked analysis with
    | Flag_bool b => b
    | Flag_text s => negb (String.eqb s "") && negb (String.eqb s "false")
    end in
  agentBooked
  || (String.eqb (user_sentiment analysis) "Positive"
      && negb (String.eqb (key_details analysis) "no mortgage information spoken about")).

(** [calculateQualityScore(analysis, call)] *)
Definition calculateQualityScore (analysis : CallAnalysisResult) : Z :=
  let score := 5 in
  let score :=
    if String.eqb (user_sentiment analysis) "Positive" then score + 3
    else if String.eqb (user_sentiment analysis) "Negative" then score - 2
    else score in
  let score := if truthy (call_with_agent_booked analysis) then score + 2 else score in
  let score :=
    if negb (String.eqb (key_details analysis) "")
       && negb (String.eqb (key_details analysis) "no mortgage information spoken about")
    then score + 1 else score in
  let score :=
    if truthy (asked_explicitly_to_NOT_call_again analysis) then score - 3 else score in
  Z.max 1 (Z.min 10 score).

(** The analysis members of [updateData], as the handler sends them to
    [vapi_calls]. *)
Record analysis_update := {
  u_ai_analysis_status : string;
  u_key_details : string;
  u_user_sentiment : string;
  u_asked_explicitly_to_not_call_again : bool;
  u_call_with_agent_booked : bool;
  u_follow_up_date : option follow_up_day;
  u_follow_up_type : option string;
  u_follow_up_reason : string;
  u_follow_up_urgency : option string;
  u_call_business_successful : bool;
  u_conversation_quality_score : Z
}.

(** [followUpData.date || null] *)
Definition date_or_null (d : option follow_up_day) : option follow_up_day :=
  match d with
  | Some (As_answered "") => None
  | _ => d
  end.

Definition updateData (aiAnalysis : CallAnalysisResult) (ended_at : option Z)
  : analysis_update :=
  let followUpData := calculateFollowUp aiAnalysis ended_at in
  {| u_ai_analysis_status := "completed";
     u_key_details := key_details aiAnalysis;
     u_user_sentiment := user_sentiment aiAnalysis;
     u_asked_explicitly_to_not_call_again :=
       truthy (asked_explicitly_to_NOT_call_again aiAnalysis);
     u_call_with_agent_booked := truthy (call_with_agent_booked aiAnalysis);
     u_follow_up_date := date_or_null (fu_date followUpData);
     u_follow_up_type := fu_type followUpData;
     u_follow_up_reason := fu_reason followUpData;
     u_follow_up_urgency := fu_urgency followUpData;
     u_call_business_successful := determineBusinessSuccess aiAnalysis;
     u_conversation_quality_score := calculateQualityScore aiAnalysis |}.

(** A CHECK constraint rejects a row only when its condition is FALSE. *)
Definition check_passes (c : option bool) : bool :=
  match c with Some false => false | _ => true end.

(** [CHECK (conversation_quality_score BETWEEN 1 AND 10)] *)
Definition check_conversation_quality_score (v : option Z) : bool :=
  check_passes (Sql.and3 (Sql.ge3 v (Some 1)) (Sql.cmp3 Z.leb v (Some 10))).

(** [CHECK (follow_up_type IN (...))] *)
Definition check_follow_up_type (v : option string) : bool :=
  check_passes
    (Sql.in3 v ["explicit_request"; "mortgage_midterm"; "mortgage_expiry";
                "failed_call_retry"; "agent_booking_followup"; "general_followup"]).

(** [CHECK (follow_up_urgency IN ('high', 'medium', 'low'))] *)
Definition check_follow_up_urgency (v : option string) : bool :=
  check_passes (Sql.in3 v ["high"; "medium"; "low"]).

(** [CHECK (ai_analysis_status IN ('pending', 'processing', 'completed',
    'failed'))] *)
Definition check_ai_analysis_status (v : option string) : bool :=
  check_passes (Sql.in3 v ["pending"; "processing"; "completed"; "failed"]).

(** [CHECK (user_sentiment IN ('Positive', 'Neutral', 'Negative', ''))] *)
Definition check_user_sentiment (v : option string) : bool :=
  check_passes (Sql.in3 v ["Positive"; "Neutral"; "Negative"; ""]).

(** The CHECK constraints of the columns the UPDATE writes: the row is
    accepted only when all of them pass. *)
Definition checks_pass (u : analysis_update) : bool :=
  check_ai_analysis_status (Some (u_ai_analysis_status u))
  && check_user_sentiment (Some (u_user_sentiment u))
  && check_conversation_quality_score (Some (u_conversation_quality_score u))
  && check_follow_up_type (u_follow_up_type u)
  && check_follow_up_urgency (u_follow_up_urgency u).

(** *** Tool calls of a transcript *)

(** An entry of [toolCalls] / [tool_calls] of a message. *)
Record invocation := {
  i_id : option string;
  i_tool_call_id : option string;
  i_function_name : option string;
  i_function_arguments : option string;
  i_name : option string;
  i_arguments : option string
}.

Record message := {
  m_role : option string;
  m_toolCalls : option (list invocation);
  m_tool_calls : option (list invocation);
  m_toolCallId : option string;
  m_tool_call_id : option string;
  m_result : option string;
  m_content : option string
}.

(** [a || b] on strings that may be missing: a missing or empty [a]
    gives [b]. *)
Definition js_or (a b : option string) : option string :=
  match a with
  | None | Some "" => b
  | Some _ => a
  end.

(** An element of [calls]. *)
Record tool_call := {
  tool_call_id : option string;
  name : string;
  arguments : option string;
  result_content : option string;
  status : string
}.

Record summary := {
  total : Z;
  successes : Z;
  warnings : Z;
  errors : Z;
  no_result : Z;
  calls : list tool_call
}.

(** [arr.filter(c => String(c.status) === s).length] *)
Definition count_status (s : string) (arr : list tool_call) : Z :=
  Z.of_nat (length (filter (λ c, status c = s) arr)).

Section Extraction.

(** [String.prototype.trim]. *)
Variable trim : string -> string.

(** [JSON.parse(resText)] followed by the test of the member [error]:
    [None] when either throws, else the truthiness of the member. *)
Variable json_error : string -> option bool.

(** The [forEach] that collects the invocations: an array in [toolCalls]
    hides [tool_calls], an empty one included. *)
Definition invocations_of (m : message) : list invocation :=
  match m_toolCalls m with
  | Some callsArr => callsArr
  | None => default [] (m_tool_calls m)
  end.

Definition is_result_for (id : option string) (r : message) : bool :=
  (bool_decide (m_role r = Some "tool_call_result") && bool_decide (m_toolCallId r = id))
  || (bool_decide (m_role r = Some "tool") && bool_decide (m_tool_call_id r = id)).

Definition status_of (resText : string) : string :=
  if bool_decide (resText ∈ [""; "{}"; "[]"]) then "success"
  else if String.eqb resText "No result returned." then "no_result"
  else match json_error resText with
       | Some true => "error"
       | _ => "warning"
       end.

Definition match_invocation (msgs : list message) (call : invocation) : tool_call :=
  let id := js_or (i_id call) (i_tool_call_id call) in
  let name :=
    default "unknown" (js_or (js_or (i_function_name call) (i_name call)) (Some "unknown")) in
  let args := js_or (js_or (i_function_arguments call) (i_arguments call)) None in
  match find (is_result_for id) msgs with
  | Some resMsg =>
      let resText := trim (default "" (js_or (m_result resMsg) (m_content resMsg))) in
      {| tool_call_id := id; name := name; arguments := args;
         result_content := Some resText; status := status_of resText |}
  | None =>
      {| tool_call_id := id; name := name; arguments := args;
         result_content := None; status := "no_result" |}
  end.

(** [extractToolCalls(transcript)] on the messages of the transcript. *)
Definition extractToolCalls (msgs : list message) : summary :=
  let invocations := msgs ≫= invocations_of in
  let calls := match_invocation msgs <$> invocations in
  {| total := Z.of_nat (length calls);
     successes := count_status "success" calls;
     warnings := count_status "warning" calls;
     errors := count_status "error" calls;
     no_result := count_status "no_result" calls;
     calls := calls |}.

(** The tool-call members of [updateData]. *)
Record tool_update := {
  tool_calls_total : Z;
  tool_calls_successful : Z;
  tool_calls_warnings : Z;
  tool_calls_failed : Z;
  tool_calls_no_result : Z;
  tool_calls_analysis : list tool_call;
  calendar_check_attempted : bool;
  booking_attempted : bool;
  calendar_checked_success : bool;
  booking_attempt_success : bool;
  engagement_webhook : bool
}.

Definition named (n : string) (c : tool_call) : bool := String.eqb (name c) n.

(** Steps 1 and 1.1 of the handler: [stored] is the array already in
    [call.tool_calls_analysis], if any, without its empty entries
    ([filter(Boolean)]), used when the transcript gives no call. *)
Definition tool_calls_update (msgs : list message) (stored : option (list tool_call))
  : tool_update :=
  let toolCallAnalysis := extractToolCalls msgs in
  let callsArr :=
    match calls toolCallAnalysis, stored with
    | [], Some arr => arr
    | extracted, _ => extracted
    end in
  let calendarCalls := List.filter (named "get_calendar_availability") callsArr in
  let bookingCalls := List.filter (named "book_ghl_slot") callsArr in
  let engagementTools := List.filter (λ c, negb (named "end_call" c)) callsArr in
  let usedFallback :=
    bool_decide (calls toolCallAnalysis = []) && negb (bool_decide (callsArr = [])) in
  let derivedSummary :=
    if usedFallback then
      Some {| total := Z.of_nat (length callsArr);
              successes := count_status "success" callsArr;
              warnings := count_status "warning" callsArr;
              errors := count_status "error" callsArr;
              no_result := count_status "no_result" callsArr;
              calls := callsArr |}
    else None in
  let shown := default toolCallAnalysis derivedSummary in
  {| tool_calls_total := total shown;
     tool_calls_successful := successes shown;
     tool_calls_warnings := warnings shown;
     tool_calls_failed := errors shown;
     tool_calls_no_result := no_result shown;
     tool_calls_analysis := callsArr;
     calendar_check_attempted := negb (bool_decide (calendarCalls = []));
     booking_attempted := negb (bool_decide (bookingCalls = []));
     calendar_checked_success :=
       existsb (λ c, String.eqb (status c) "success") calendarCalls;
     booking_attempt_success :=
       existsb (λ c, String.eqb (status c) "success") bookingCalls;
     engagement_webhook := negb (bool_decide (engagementTools = [])) |}.

End Extraction.

(** *** Retries of the analysis request *)

Inductive outcome :=
| Answered (r : CallAnalysisResult)
| Threw (error_message : string).

Definition threw (o : outcome) : bool :=
  match o with Threw _ => true | Answered _ => false end.

Section Retry.

(** [runAIAnalysis(transcript, toolCalls, useJsonResponseFormat)] for the
    request that follows [sent] earlier ones. *)
Variable runAIAnalysis : nat -> bool -> outcome.

(** The test of the message against the pattern of the json_object
    complaint. *)
Variable needsJsonFormatFallback : string -> bool.

(** What a run of the loop leaves behind: the outcomes of the requests in
    the order sent, and the milliseconds slept. *)
Record run := {
  result : outcome;
  requests : list outcome;
  slept : Z
}.

(** The [for] loop from [attempt] on; [fuel] is the number of rounds
    left, [maxRetries - attempt + 1]. *)
Fixpoint retry_loop (maxRetries attempt : Z) (fuel : nat)
    (lastError : option string) (requests : list outcome) (slept : Z) : run :=
  match fuel with
  | O =>
      {| result := Threw (default "AI Analysis failed after all retries" lastError);
         requests := requests; slept := slept |}
  | S fuel =>
      let first := runAIAnalysis (length requests) true in
      let requests := (requests ++ [first])%list in
      match first with
      | Answered r => {| result := Answered r; requests := requests; slept := slept |}
      | Threw e =>
          let backoff slept :=
            if attempt <? maxRetries
            then slept + Z.min (1000 * 2 ^ (attempt - 1)) 10000
            else slept in
          if needsJsonFormatFallback e then
            let second := runAIAnalysis (length requests) false in
            let requests := (requests ++ [second])%list in
            match second with
            | Answered r =>
                {| result := Answered r; requests := requests; slept := slept |}
            | Threw e' =>
                retry_loop maxRetries (attempt + 1) fuel (Some e') requests
                  (backoff slept)
            end
          else
            retry_loop maxRetries (attempt + 1) fuel (Some e) requests (backoff slept)
      end
  end.

Definition runAIAnalysisWithRetry (maxRetries : Z) : run :=
  retry_loop maxRetries 1 (Z.to_nat maxRetries) None [] 0.

End Retry.

(** An analysis that asks for no further contact, and one that answers a
    date. *)
Definition refused : CallAnalysisResult :=
  {| key_details := "no mortgage information spoken about";
     user_sentiment := "Negative";
     asked_explicitly_to_NOT_call_again := Flag_bool true;
     follow_up_date := "2025-03-01";
     call_with_agent_booked := Flag_bool false |}.

Definition voicemail : CallAnalysisResult :=
  {| key_details := "no mortgage information spoken about";
     user_sentiment := "";
     asked_explicitly_to_NOT_call_again := Flag_bool false;
     follow_up_date := "";
     call_with_agent_booked := Flag_bool false |}.

(** A transcript with one call that got an empty answer and one that got
    none. *)
Definition two_tool_calls : list message :=
  [ {| m_role := Some "assistant";
       m_toolCalls := Some
         [ {| i_id := Some "a"; i_tool_call_id := None;
              i_function_name := Some "get_calendar_availability";
              i_function_arguments := None; i_name := None; i_arguments := None |};
           {| i_id := Some "b"; i_tool_call_id := None;
              i_function_name := Some "end_call";
              i_function_arguments := None; i_name := None; i_arguments := None |} ];
       m_tool_calls := None; m_toolCallId := None; m_tool_call_id := None;
       m_result := None; m_content := None |};
    {| m_role := Some "tool_call_result";
       m_toolCalls := None; m_tool_calls := None;
       m_toolCallId := Some "a"; m_tool_call_id := None;
       m_result := Some "{}"; m_content := None |} ].

(** A service that fails twice, then answers. *)
Definition third_time_lucky (sent : nat) (useJsonResponseFormat : bool) : outcome :=
  if (sent <? 2)%nat then Threw "OpenAI API error: 500 - " else Answered voicemail.

End AnalysisRules.

(* ===================================================================== *)
(** * Properties *)
(* ===================================================================== *)

(** ** SQL values and time *)

Lemma gt3_true (a : option Z) (b : Z) :
  Sql.is_true (Sql.gt3 a (Some b)) = match a with Some x => b <? x | None => false end.
Proof.
  destruct a as [x|]; simpl; [|reflexivity].
  rewrite Z.gtb_ltb. destruct (b <? x); reflexivity.
Qed.

Lemma ge3_true (a b : option Z) :
  Sql.is_true (Sql.ge3 a b)
  = match a, b with Some x, Some y => y <=? x | _, _ => false end.
Proof.
  destruct a as [x|], b as [y|]; simpl; try reflexivity.
  rewrite Z.geb_leb. destruct (y <=? x); reflexivity.
Qed.

Lemma window_check (t : Z) (s e : option Z) :
  Sql.is_true (Sql.or3 (Sql.lt3 (Some t) s) (Sql.gt3 (Some t) e))
  = (match s with Some x => t <? x | None => false end
     || match e with Some y => y <? t | None => false end).
Proof.
  destruct s as [x|], e as [y|]; simpl; rewrite ?Z.gtb_ltb;
    repeat match goal with |- context [?a <? ?b] => destruct (a <? b) end; reflexivity.
Qed.

(** ** Eligibility decision *)

(** The function of migration 004 never returns a row: whatever the tables
    hold, the time asked about and the clock, the call raises. *)
Lemma should_call_004_raises (db : ledger) (p : string) (t now : Z) :
  ∃ e, Eligibility.should_call_phone_number db p t now = Sql.Raises e.
Proof.
  unfold Eligibility.should_call_phone_number.
  repeat case_match; eauto.
Qed.

(** Inside the calling window of the clock, on an enabled day and for a
    phone that is not marked do-not-call, the call of migration 004 reaches
    the SELECT of today's attempts and raises there. *)
Lemma should_call_004_ambiguous (db : ledger) (p : string) (t now : Z) :
  Checks.permanent_dnc db p = false →
  Sql.is_true (Sql.not3 (Sql.jsonb_exists (enabled_days (settings db))
                           (Sql.trim (Sql.lower (Clock.to_char_Day t))))) = false →
  Checks.outside_window db now = false →
  Eligibility.should_call_phone_number db p t now
  = Sql.Raises (Sql.ambiguous_column "cooldown_until").
Proof.
  intros Hdnc Hday Hwin. unfold Eligibility.should_call_phone_number.
  rewrite window_check. unfold Checks.outside_window in Hwin. rewrite Hwin, Hday.
  unfold Checks.permanent_dnc in Hdnc.
  destruct (phone_number_history db !! p) as [h|]; [|reflexivity].
  destruct (pnh_permanent_dnc h) as [[]|]; cbn in *; [discriminate|reflexivity..].
Qed.

Lemma should_call_009_cases (db : ledger) (p : string) (t now : Z) :
  let d := Eligibility.should_call_phone_number_009 db p t now in
  Checks.label (Eligibility.reason9 d)
  = Checks.first_failing (Checks.checks_009 db p t now) "Ready to call"
  ∧ Eligibility.should_call d
    = forallb (λ c, negb (fst c)) (Checks.checks_009 db p t now).
Proof.
  unfold Eligibility.should_call_phone_number_009, Checks.checks_009.
  rewrite window_check.
  unfold Checks.daily_cap_reached_009, Checks.total_cap_reached_009,
    Checks.cooling_down_009, Checks.outside_window, Checks.rows_today.
  cbn [Checks.first_failing forallb fst negb].
  destruct (_ <=? Z.of_nat (length (filter _ _))); [split; reflexivity|].
  destruct (_ <=? Z.of_nat (length (Eligibility.attempts_of db p))); [split; reflexivity|].
  destruct (_ || _); [split; reflexivity|].
  destruct (Eligibility.max_of _) as [last|]; [|split; reflexivity].
  cbn zeta.
  destruct (t <? _); split; reflexivity.
Qed.




(** ** Attempt ledger *)

Lemma record_attempt_row (db : ledger) (p : string) (st r : option string) (t now : Z) :
  call_attempts (Ledger.record_call_attempt db p st r t now) !! (p, Clock.to_date t)
  = Some (Ledger.upsert_attempt (call_attempts db !! (p, Clock.to_date t)) st r t
            (Clock.plus_hours t (Ledger.cooldown_hours_for (settings db) r)) now).
Proof. cbn. apply lookup_insert_eq. Qed.

Lemma record_history_row (db : ledger) (p : string) (st r : option string) (t now : Z) :
  phone_number_history (Ledger.record_call_attempt db p st r t now) !! p
  = Some (Ledger.upsert_history (phone_number_history db !! p) r t now).
Proof. cbn. apply lookup_insert_eq. Qed.

Lemma record_history_other (db : ledger) (p q : string) (st r : option string) (t now : Z) :
  p ≠ q →
  phone_number_history (Ledger.record_call_attempt db p st r t now) !! q
  = phone_number_history db !! q.
Proof. intros H. cbn. by rewrite lookup_insert_ne. Qed.

Lemma cooldown_hours_customer_ended (s : call_frequency_settings) :
  Ledger.cooldown_hours_for s (Some "customer-ended-call") = customer_ended_cooldown_hours s.
Proof. reflexivity. Qed.

Lemma permanent_dnc_record (db : ledger) (p q : string) (st r : option string) (t now : Z) :
  Checks.permanent_dnc (Ledger.record_call_attempt db p st r t now) q
  = Checks.permanent_dnc db q.
Proof.
  unfold Checks.permanent_dnc.
  destruct (decide (p = q)) as [->|Hne].
  - rewrite record_history_row.
    destruct (phone_number_history db !! q) as [h|]; reflexivity.
  - by rewrite record_history_other.
Qed.

(** An attempt recorded with ended reason "customer-ended-call" at time [t],
    with the customer-ended cooldown configured as [h] hours, stores
    [cooldown_until = t + h hours] in the attempt row of the day of [t]. *)
Lemma customer_ended_cooldown_stored
    (db : ledger) (p : string) (st : option string) (t now h : Z) :
  customer_ended_cooldown_hours (settings db) = Some h →
  Checks.cooldown_on
    (Ledger.record_call_attempt db p st (Some "customer-ended-call") t now) p
    (Clock.to_date t)
  = Some (t + h * Clock.usec_per_hour).
Proof.
  intros Hh. unfold Checks.cooldown_on.
  rewrite record_attempt_row, cooldown_hours_customer_ended, Hh.
  destruct (call_attempts db !! (p, Clock.to_date t)); reflexivity.
Qed.

(** C3 (the code departs from the claim).  The cooldown is stored as the
    claim says: an attempt recorded with ended reason "customer-ended-call"
    at time [t] stores [cooldown_until = t + h hours], [h] being the
    configured customer-ended cooldown, 168 in the default settings.  It is
    not enforced.  After such an attempt on Monday 10:00, a check of the same
    phone on Tuesday 10:00, six days before the cooldown ends: the function
    of migration 004 raises at the SELECT that reads the cooldown, as it
    raises on every call; the function of migration 009 looks only at attempt
    rows created since midnight of the day asked about, finds none, and
    answers that the number is ready to call. *)
Theorem C3_cooldown_stored_not_enforced :
  let t := Clock.at_day Scenario.monday 10 0 in
  let tc := Clock.at_day Scenario.tuesday 10 0 in
  let until := t + 168 * Clock.usec_per_hour in
  (∀ (db : ledger) (p : string) (st : option string) (t0 now h : Z),
      customer_ended_cooldown_hours (settings db) = Some h →
      Checks.cooldown_on
        (Ledger.record_call_attempt db p st (Some "customer-ended-call") t0 now) p
        (Clock.to_date t0)
      = Some (t0 + h * Clock.usec_per_hour))
  ∧ customer_ended_cooldown_hours default_frequency_settings = Some 168
  ∧ Checks.cooldown_on Scenario.after_customer_ended Scenario.phone Scenario.monday
    = Some until
  ∧ tc < until
  ∧ Eligibility.should_call_phone_number Scenario.after_customer_ended Scenario.phone tc tc
    = Sql.Raises (Sql.ambiguous_column "cooldown_until")
  ∧ (∀ (db : ledger) (p : string) (t0 now : Z),
        ∃ e, Eligibility.should_call_phone_number db p t0 now = Sql.Raises e)
  ∧ Eligibility.should_call_phone_number_009 Scenario.after_customer_ended
      Scenario.phone tc tc
    = {| Eligibility.should_call := true;
         Eligibility.reason9 := Eligibility.Ready_to_call;
         Eligibility.attempts_today9 := 0;
         Eligibility.total_attempts9 := 1;
         Eligibility.last_attempt := None;
         Eligibility.cooldown_until9 := None |}.
Proof.
  split; [exact customer_ended_cooldown_stored|].
  split; [reflexivity|].
  split; [by vm_compute|]. split; [by vm_compute|]. split; [by vm_compute|].
  split; [exact should_call_004_raises|]. by vm_compute.
Qed.

Lemma counters_not_null_record
    (db : ledger) (p : string) (st r : option string) (t now : Z) :
  Checks.counters_not_null db →
  Checks.counters_not_null (Ledger.record_call_attempt db p st r t now).
Proof.
  intros [Hh Ha]. split.
  - intros q h. destruct (decide (p = q)) as [->|Hne].
    + rewrite record_history_row. intros [= <-].
      destruct (phone_number_history db !! q) as [h0|] eqn:E; cbn; [|eauto].
      destruct (Hh _ _ E) as [n ->]. cbn. eauto.
    + rewrite record_history_other by done. apply Hh.
  - intros k a. cbn.
    destruct (decide ((p, Clock.to_date t) = k)) as [<-|Hne].
    + rewrite lookup_insert_eq. intros [= <-].
      destruct (call_attempts db !! (p, Clock.to_date t)) as [a0|] eqn:E; cbn; [|eauto].
      destruct (Ha _ _ E) as [n ->]. cbn. eauto.
    + rewrite lookup_insert_ne by done. apply Ha.
Qed.

Lemma total_of_record (db : ledger) (p : string) (st r : option string) (t now : Z) :
  Checks.counters_not_null db →
  Checks.total_of (Ledger.record_call_attempt db p st r t now) p = Checks.total_of db p + 1.
Proof.
  intros [Hh _]. unfold Checks.total_of. rewrite record_history_row.
  destruct (phone_number_history db !! p) as [h|] eqn:E; cbn; [|reflexivity].
  destruct (Hh _ _ E) as [n ->]. reflexivity.
Qed.

Lemma trigger_is_record (db : ledger) (c : vapi_call) (p s : string) (now : Z) :
  vc_phone_number c = Some p → vc_status c = Some s →
  Ledger.trigger_record_call_attempt db c now
  = Ledger.record_call_attempt db p (Some s) (vc_ended_reason c)
      (Sql.coalesce (vc_started_at c) now) now.
Proof. intros Hp Hs. unfold Ledger.trigger_record_call_attempt. by rewrite Hp, Hs. Qed.

Lemma counters_not_null_with_calls (db : ledger) (l : list vapi_call) :
  Checks.counters_not_null db → Checks.counters_not_null (Ledger.with_vapi_calls db l).
Proof. intros H. exact H. Qed.

(** C10.  [record_call_attempt] is additive: every invocation adds exactly
    one to the lifetime counter of the phone, adds one to the attempt
    counter of the day (creating it at 1), and overwrites [cooldown_until]
    with the value computed from this invocation alone.  The dispatch
    records an attempt at once and the row trigger records one again when
    the provider sync inserts the call row, so one placed call counts
    twice; in the scenario of one call (dispatch, two syncs, the two
    updates of the analysis) it counts five times, the cooldown being
    recomputed each time. *)
Theorem C10_record_attempt_additive
    (db : ledger) (p : string) (st r : option string) (t now : Z) :
  Checks.counters_not_null db →
  let db' := Ledger.record_call_attempt db p st r t now in
  Checks.total_of db' p = Checks.total_of db p + 1
  ∧ Checks.attempts_on db' p (Clock.to_date t)
    = Checks.attempts_on db p (Clock.to_date t) + 1
  ∧ Checks.cooldown_on db' p (Clock.to_date t)
    = Clock.plus_hours t (Ledger.cooldown_hours_for (settings db) r)
  ∧ Checks.counters_not_null db'
  ∧ (∀ (raw s : string) (c : vapi_call) (merge : vapi_call → vapi_call → vapi_call)
       (now1 now2 : Z),
        vc_phone_number c = Some (Ledger.formatPhoneForCheck raw) →
        vc_status c = Some s →
        existsb (λ x, String.eqb (vc_call_id x) (vc_call_id c)) (vapi_calls db) = false →
        Checks.total_of
          (Ledger.upsert_vapi_call (Ledger.record_dispatch db raw now1) c merge now2)
          (Ledger.formatPhoneForCheck raw)
        = Checks.total_of db (Ledger.formatPhoneForCheck raw) + 2)
  ∧ Checks.total_of Scenario.one_call_analysed Scenario.phone = 5
  ∧ Checks.attempts_on Scenario.one_call_analysed Scenario.phone Scenario.monday = 5
  ∧ Checks.cooldown_on Scenario.one_call_dispatched Scenario.phone Scenario.monday
    = Some (Clock.at_day Scenario.monday 10 0 + 24 * Clock.usec_per_hour)
  ∧ Checks.cooldown_on Scenario.one_call_analysed Scenario.phone Scenario.monday
    = Some (Clock.at_day Scenario.monday 10 0 + 72 * Clock.usec_per_hour).
Proof.
  intros Hnn db'.
  split; [apply total_of_record; exact Hnn|].
  split.
  { unfold Checks.attempts_on, db'. rewrite record_attempt_row.
    destruct (call_attempts db !! (p, Clock.to_date t)) as [a|] eqn:E; cbn; [|reflexivity].
    destruct (proj2 Hnn _ _ E) as [n ->]. reflexivity. }
  split.
  { unfold Checks.cooldown_on, db'. rewrite record_attempt_row.
    destruct (call_attempts db !! (p, Clock.to_date t)); reflexivity. }
  split; [apply counters_not_null_record; exact Hnn|].
  split.
  { intros raw s c merge now1 now2 Hp Hs Hnew.
    unfold Ledger.upsert_vapi_call.
    change (vapi_calls (Ledger.record_dispatch db raw now1)) with (vapi_calls db).
    rewrite Hnew, (trigger_is_record _ _ _ _ _ Hp Hs).
    rewrite total_of_record.
    - change (Checks.total_of (Ledger.with_vapi_calls ?d ?l) ?q) with (Checks.total_of d q).
      unfold Ledger.record_dispatch. rewrite total_of_record by exact Hnn. lia.
    - apply counters_not_null_with_calls, counters_not_null_record, Hnn. }
  vm_compute. repeat split; reflexivity.
Qed.

Lemma counters_not_null_empty : Checks.counters_not_null Scenario.empty_ledger.
Proof. split; intros k x H; cbn in H; rewrite lookup_empty in H; discriminate. Qed.

Lemma C10_record_attempt_additive_witness :
  Checks.total_of
    (Ledger.record_call_attempt Scenario.empty_ledger Scenario.phone (Some "initiated")
       None (Clock.at_day Scenario.monday 10 0) (Clock.at_day Scenario.monday 10 0))
    Scenario.phone
  = Checks.total_of Scenario.empty_ledger Scenario.phone + 1.
Proof.
  exact (proj1 (C10_record_attempt_additive Scenario.empty_ledger Scenario.phone
                  (Some "initiated") None (Clock.at_day Scenario.monday 10 0)
                  (Clock.at_day Scenario.monday 10 0) counters_not_null_empty)).
Defined.

(** ** The do-not-call flag *)

Lemma permanent_dnc_trigger (db : ledger) (c : vapi_call) (now : Z) (q : string) :
  Checks.permanent_dnc (Ledger.trigger_record_call_attempt db c now) q
  = Checks.permanent_dnc db q.
Proof.
  unfold Ledger.trigger_record_call_attempt.
  destruct (vc_phone_number c), (vc_status c); try reflexivity.
  apply permanent_dnc_record.
Qed.

Lemma vapi_calls_trigger (db : ledger) (c : vapi_call) (now : Z) :
  vapi_calls (Ledger.trigger_record_call_attempt db c now) = vapi_calls db.
Proof.
  unfold Ledger.trigger_record_call_attempt.
  destruct (vc_phone_number c), (vc_status c); reflexivity.
Qed.

Lemma triggers_keep (fired : list vapi_call) (db : ledger) (now : Z) (q : string) :
  let db' := foldl (λ d c, Ledger.trigger_record_call_attempt d c now) db fired in
  Checks.permanent_dnc db' q = Checks.permanent_dnc db q
  ∧ vapi_calls db' = vapi_calls db.
Proof.
  revert db. induction fired as [|c fired IH]; intros db; cbn; [done|].
  destruct (IH (Ledger.trigger_record_call_attempt db c now)) as [H1 H2].
  rewrite H1, H2, permanent_dnc_trigger, vapi_calls_trigger. done.
Qed.

Lemma update_vapi_calls_keeps (db : ledger) (id : string) (set : vapi_call → vapi_call)
    (now : Z) (q : string) :
  Checks.permanent_dnc (Ledger.update_vapi_calls db id set now) q
  = Checks.permanent_dnc db q.
Proof.
  unfold Ledger.update_vapi_calls.
  by rewrite (proj1 (triggers_keep _ _ now q)).
Qed.

Lemma update_vapi_calls_rows (db : ledger) (id : string) (set : vapi_call → vapi_call)
    (now : Z) :
  vapi_calls (Ledger.update_vapi_calls db id set now)
  = (λ c, if String.eqb (vc_call_id c) id then set c else c) <$> vapi_calls db.
Proof.
  unfold Ledger.update_vapi_calls.
  by rewrite (proj2 (triggers_keep _ _ now "")).
Qed.

(** C9 (as amended).  The analysis write-back stores the outcome on the call
    row ([asked_explicitly_to_not_call_again]) and nowhere else: neither it,
    nor the row trigger it fires, nor [record_call_attempt] changes whether
    [permanent_dnc] of any phone is true.  So the flag is never set by this
    subsystem, and a flag that is true stays true. *)
Theorem C9_permanent_dnc_untouched :
  (∀ (db : ledger) (call_id : string) (asked : bool) (marked_at now : Z) (q : string),
      Checks.permanent_dnc (Analysis.store_analysis db call_id asked marked_at now) q
      = Checks.permanent_dnc db q)
  ∧ (∀ (db : ledger) (call_id : string) (asked : bool) (marked_at now : Z),
        vapi_calls (Analysis.store_analysis db call_id asked marked_at now)
        = (λ c, if String.eqb (vc_call_id c) call_id
                then Analysis.with_analysis asked c else c) <$> vapi_calls db)
  ∧ (∀ (db : ledger) (p : string) (st r : option string) (t now : Z) (q : string),
        Checks.permanent_dnc (Ledger.record_call_attempt db p st r t now) q
        = Checks.permanent_dnc db q)
  ∧ (∀ (db : ledger) (c : vapi_call) (now : Z) (q : string),
        Checks.permanent_dnc (Ledger.trigger_record_call_attempt db c now) q
        = Checks.permanent_dnc db q).
Proof.
  split; [|split; [|split]].
  - intros db id asked marked_at now q.
    unfold Analysis.store_analysis, Analysis.mark_processing.
    by rewrite !update_vapi_calls_keeps.
  - intros db id asked marked_at now.
    unfold Analysis.store_analysis, Analysis.mark_processing.
    rewrite !update_vapi_calls_rows, <- list_fmap_compose.
    apply list_fmap_ext. intros _ c _. cbn.
    destruct (String.eqb (vc_call_id c) id) eqn:E; by rewrite E.
  - intros. apply permanent_dnc_record.
  - intros. apply permanent_dnc_trigger.
Qed.

(** The claim as it stands fails: after the analysis has stored that the
    customer asked not to be called again, the history row of the phone
    still has [permanent_dnc = false] and the phone is not refused as
    permanent DNC. *)
Lemma C9_analysis_does_not_set_permanent_dnc :
  let db' := Analysis.store_analysis Scenario.ledger_with_call "call-1" true
               (Clock.at_day Scenario.monday 11 0) (Clock.at_day Scenario.monday 11 1) in
  (vc_asked_explicitly_to_not_call_again <$> vapi_calls db') = [Some true]
  ∧ (pnh_permanent_dnc <$> (phone_number_history db' !! Scenario.phone)) = Some (Some false)
  ∧ Checks.permanent_dnc db' Scenario.phone = false.
Proof. vm_compute. repeat split; reflexivity. Qed.

(** ** Dispatch coordinator *)



(** ** Schedule predicate *)

Lemma sorts_before_iff (a b : Schedule.cron_schedule) :
  Schedule.sorts_before a b = true
  ↔ Schedule.day_type_priority a < Schedule.day_type_priority b
    ∨ (Schedule.day_type_priority a = Schedule.day_type_priority b
       ∧ (Schedule.start_hour a < Schedule.start_hour b
          ∨ (Schedule.start_hour a = Schedule.start_hour b
             ∧ Schedule.start_minute a < Schedule.start_minute b))).
Proof.
  unfold Schedule.sorts_before.
  rewrite !orb_true_iff, !andb_true_iff, !orb_true_iff, !andb_true_iff,
    !Z.ltb_lt, !Z.eqb_eq. reflexivity.
Qed.

(** [ORDER BY ... LIMIT 1] returns a row of the list that no other row of
    the list sorts before. *)
Lemma first_in_order_least (l : list Schedule.cron_schedule) (s : Schedule.cron_schedule) :
  Schedule.first_in_order l = Some s →
  s ∈ l ∧ ∀ x, x ∈ l → Schedule.sorts_before x s = false.
Proof.
  revert s. induction l as [|a l IH]; intros s; cbn; [discriminate|].
  destruct (Schedule.first_in_order l) as [b|] eqn:E.
  - destruct (IH b eq_refl) as [Hin Hmin].
    destruct (Schedule.sorts_before b a) eqn:Hba; intros [= <-].
    + split; [by apply list_elem_of_further|].
      intros x [->|Hx]%elem_of_cons; [|by apply Hmin].
      apply not_true_is_false. intros Hab.
      apply sorts_before_iff in Hba, Hab. lia.
    + split; [apply list_elem_of_here|].
      intros x [->|Hx]%elem_of_cons.
      * apply not_true_is_false. intros H. apply sorts_before_iff in H. lia.
      * apply not_true_is_false. intros Hxa.
        specialize (Hmin x Hx). apply not_true_iff_false in Hmin, Hba.
        rewrite sorts_before_iff in Hmin, Hba, Hxa. lia.
  - intros [= <-]. destruct l as [|c l]; [|cbn in E; repeat case_match; discriminate].
    split; [apply list_elem_of_here|].
    intros x [->|Hx]%elem_of_cons; [|by apply elem_of_nil in Hx].
    apply not_true_is_false. intros H. apply sorts_before_iff in H. lia.
Qed.

Lemma matching_rows_spec (now : Schedule.wall_clock) (l m : list Schedule.cron_schedule) :
  Schedule.matching_rows now l = Some m →
  ∀ x, x ∈ m ↔ x ∈ l ∧ Schedule.row_matches now x = Some true.
Proof.
  revert m. induction l as [|a l IH]; intros m; cbn.
  - intros [= <-] x. split; [by intros ?%elem_of_nil|by intros [?%elem_of_nil _]].
  - destruct (Schedule.row_matches now a) as [[]|] eqn:Ha; [| |discriminate];
      destruct (Schedule.matching_rows now l) as [m'|]; try discriminate;
      intros [= <-] x; specialize (IH m' eq_refl x); rewrite ?elem_of_cons, IH.
    + split; [intros [->|[? ?]]; auto|intros [[->|?] ?]; auto].
    + split; [intros [? ?]; auto|intros [[->|?] ?]; [congruence|auto]].
Qed.

(** The schedule query of migration 010 picks, among the windows that match
    the moment, one that no matching window precedes in the order: most
    specific day type first, then earliest start. *)
Lemma schedule_query_picks_most_specific
    (schedules : list Schedule.cron_schedule) (now : Schedule.wall_clock)
    (s : Schedule.cron_schedule) :
  Schedule.matching_schedule_query schedules now = Some (Some s) →
  s ∈ schedules ∧ Schedule.row_matches now s = Some true
  ∧ ∀ x, x ∈ schedules → Schedule.row_matches now x = Some true →
         Schedule.sorts_before x s = false.
Proof.
  unfold Schedule.matching_schedule_query.
  destruct (Schedule.matching_rows now schedules) as [m|] eqn:Hm; [|discriminate].
  intros [= Hb]. destruct (first_in_order_least _ _ Hb) as [Hin Hmin].
  pose proof (matching_rows_spec _ _ _ Hm) as Hspec.
  apply Hspec in Hin as [Hin Hrow]. split; [exact Hin|]. split; [exact Hrow|].
  intros x Hx Hxm. apply Hmin, Hspec. auto.
Qed.

(** C7 (the code departs from the claim).  With the weekend window
    (10:00-18:00, every 10 minutes) listed before the saturday window
    (10:00-11:00, every 5 minutes), both satisfy the condition of the
    schedule loop of the dispatch function at Saturday 10:10, and the
    saturday window is the more day-specific one (rank 1 against rank 3 in
    the ORDER BY of migration 010): the loop stops at the first match in
    table order and yields the weekend window.  It yields the saturday
    window only when that row comes first in the table, or when it alone
    matches, as at Saturday 10:05.  The schedule query of migration 010
    would pick the saturday window, but [should_call_now] raises before it
    reaches the query. *)
Theorem C7_dispatch_loop_takes_first_match :
  let schedules := [Scenario.weekend_window; Scenario.saturday_window] in
  Schedule.matchingSchedule (Scenario.saturday_at 10 10) [Scenario.weekend_window]
  = Some Scenario.weekend_window
  ∧ Schedule.matchingSchedule (Scenario.saturday_at 10 10) [Scenario.saturday_window]
    = Some Scenario.saturday_window
  ∧ Schedule.day_type_priority Scenario.saturday_window
    < Schedule.day_type_priority Scenario.weekend_window
  ∧ Schedule.matchingSchedule (Scenario.saturday_at 10 10)
      (Schedule.active_schedules schedules) = Some Scenario.weekend_window
  ∧ Schedule.matchingSchedule (Scenario.saturday_at 10 10)
      (Schedule.active_schedules [Scenario.saturday_window; Scenario.weekend_window])
    = Some Scenario.saturday_window
  ∧ Schedule.matchingSchedule (Scenario.saturday_at 10 5)
      (Schedule.active_schedules schedules) = Some Scenario.saturday_window
  ∧ Schedule.matching_schedule_query schedules (Scenario.saturday_at 10 10)
    = Some (Some Scenario.saturday_window)
  ∧ Schedule.should_call_now (Some true) schedules
    = Sql.Raises (Sql.undefined_operator "text ->> unknown").
Proof. vm_compute. repeat split; reflexivity. Qed.

(** ** Daily queue *)

Lemma insert_ordered_perm (r : Queue.queue_row) (l : list Queue.queue_row) :
  Dequeue.insert_ordered r l ≡ₚ r :: l.
Proof.
  induction l as [|x l IH]; cbn; [done|].
  destruct (Dequeue.ordered_before r x); [done|].
  rewrite IH. apply Permutation_swap.
Qed.

Lemma order_rows_perm (l : list Queue.queue_row) : Dequeue.order_rows l ≡ₚ l.
Proof.
  induction l as [|x l IH]; cbn; [done|].
  rewrite insert_ordered_perm. by rewrite IH.
Qed.

Lemma insert_all_appends (l : list Queue.new_row) (queue queue' : list Queue.queue_row)
    (d now : Z) :
  Queue.insert_all queue d l now = Some queue' → ∃ added, queue' = (queue ++ added)%list.
Proof.
  revert queue. induction l as [|n l IH]; intros queue; cbn.
  - intros [= <-]. exists []. by rewrite app_nil_r.
  - destruct (Queue.has_key queue d (Queue.n_contact_id n)); [discriminate|].
    intros H. destruct (IH _ H) as [added ->].
    unfold Queue.insert_row. rewrite <- app_assoc. eauto.
Qed.

Lemma insert_do_nothing_appends (l : list Queue.new_row) (queue : list Queue.queue_row)
    (d now : Z) :
  ∃ added, fst (Queue.insert_do_nothing queue d l now) = (queue ++ added)%list.
Proof.
  revert queue. induction l as [|n l IH]; intros queue; cbn.
  - exists []. by rewrite app_nil_r.
  - destruct (Queue.has_key queue d (Queue.n_contact_id n)); [apply IH|].
    destruct (IH (Queue.insert_row queue d n now)) as [added H].
    destruct (Queue.insert_do_nothing _ d l now) as [q k]; cbn in *. subst q.
    unfold Queue.insert_row. rewrite <- app_assoc. eauto.
Qed.

(** The preload edge function only appends: no row already in the queue is
    changed by it. *)
Lemma preload_handler_appends (can_call_smart : string → bool)
    (queue : list Queue.queue_row) (now : Z) (ghlContacts : list Queue.ghl_contact) :
  ∃ added,
    snd (Queue.preload_handler can_call_smart queue now ghlContacts) = (queue ++ added)%list.
Proof.
  unfold Queue.preload_handler.
  assert (H0 : ∃ added : list Queue.queue_row, queue = (queue ++ added)%list)
    by (exists []; by rewrite app_nil_r).
  repeat case_match; cbn; try exact H0.
  eapply insert_all_appends; eassumption.
Qed.

(** The preload of migration 020 expires every pending row of an earlier
    day. *)
Lemma preload_daily_contacts_expires (db : ledger) (queue queue' : list Queue.queue_row)
    (target date now : Z) (res : Z * Queue.preload_message) (r : Queue.queue_row) :
  Queue.preload_daily_contacts db queue target date now = Some (res, queue') →
  r ∈ queue → Queue.queue_date r < date → Queue.q_status r = Queue.pending →
  Queue.set_status r Queue.skipped (Queue.sent_to_n8n_at r) (Queue.call_initiated_at r)
    (Some "Expired - new day started") now ∈ queue'.
Proof.
  intros H Hin Hdate Hst.
  assert (Hexp : Queue.set_status r Queue.skipped (Queue.sent_to_n8n_at r)
                   (Queue.call_initiated_at r) (Some "Expired - new day started") now
                 ∈ Queue.expire_previous_days queue date now).
  { unfold Queue.expire_previous_days. apply list_elem_of_fmap.
    exists r. split; [|exact Hin].
    rewrite (proj2 (Z.ltb_lt _ _) Hdate), bool_decide_eq_true_2 by exact Hst. reflexivity. }
  unfold Queue.preload_daily_contacts in H.
  destruct (0 <? _); [by injection H as <- <-|].
  destruct (target <? 0); [discriminate|].
  match type of H with context [Queue.insert_do_nothing ?q ?d ?l ?n] =>
    destruct (insert_do_nothing_appends l q d n) as [added Happ];
    destruct (Queue.insert_do_nothing q d l n) as [q2 k] end.
  cbn in Happ. injection H as <- <-. subst q2. apply elem_of_app. by left.
Qed.

(** [get_next_call_batch] returns only rows that were pending for the date
    asked for. *)
Lemma get_next_call_batch_of_that_date (queue queue' : list Queue.queue_row)
    (size date now : Z) (batch : list Dequeue.batch_row) (b : Dequeue.batch_row) :
  Dequeue.get_next_call_batch queue size date now = Some (batch, queue') →
  b ∈ batch →
  ∃ r, r ∈ queue ∧ b = Dequeue.returning (Dequeue.claim now r)
       ∧ Queue.queue_date r = date ∧ Queue.q_status r = Queue.pending.
Proof.
  unfold Dequeue.get_next_call_batch, Dequeue.next_call_batch.
  destruct (size <? 0); [discriminate|]. intros [= <- <-].
  intros (r & -> & Hr)%list_elem_of_fmap.
  apply elem_of_take in Hr as (i & Hr & _).
  apply list_elem_of_lookup_2 in Hr. rewrite order_rows_perm in Hr.
  apply list_elem_of_filter in Hr as [Hw Hr].
  unfold Dequeue.is_pending_for in Hw.
  apply andb_true_iff in Hw as [Hd Hs].
  apply Z.eqb_eq in Hd. apply bool_decide_eq_true in Hs. eauto.
Qed.

(** C6 (the code departs from the claim).  A row left pending on Monday is
    still pending after the preload edge function has run on Tuesday,
    whereas [preload_daily_contacts] marks it skipped with the reason
    "Expired - new day started". *)
Theorem C6_edge_preload_leaves_expired_rows_pending :
  let now := Clock.at_day Scenario.tuesday 6 0 in
  let by_edge := snd (Queue.preload_handler (λ _, true) Scenario.left_over now
                        [Scenario.ghl_ann]) in
  let by_sql := snd <$> Queue.preload_daily_contacts Scenario.empty_ledger
                          Scenario.left_over 100 Scenario.tuesday now in
  Scenario.rows_of_date Scenario.monday by_edge = [(Queue.pending, None)]
  ∧ Scenario.rows_of_date Scenario.monday <$> by_sql
    = Some [(Queue.skipped, Some "Expired - new day started")].
Proof. vm_compute. split; reflexivity. Qed.

(** A failed handoff is reported: whatever the webhook answers outside
    200..299, and on a network error, [sendContactsToN8N] throws, and the
    cycle turns what it throws into an error response. *)
Lemma failed_handoff_is_reported (contacts : list Dispatch.contact)
    (outcome : Dispatch.webhook_outcome) (queue : list Queue.queue_row) (now : Z) :
  match outcome with
  | Dispatch.Http_status code _ => code < 200 ∨ 300 <= code
  | Dispatch.Network_error _ => True
  end →
  ∃ message, fst (Dispatch.sendContactsToN8N contacts outcome queue false now)
             = Dispatch.Thrown message.
Proof.
  unfold Dispatch.sendContactsToN8N. destruct outcome as [code body|message]; cbn; [|eauto].
  intros H. assert ((code <? 200) || (300 <=? code) = true) as ->; [|cbn; eauto].
  apply orb_true_iff. rewrite Z.ltb_lt, Z.leb_le. exact H.
Qed.

(** The requeue after a failed handoff leaves alone every row whose
    [phone_number] is not, character for character, the [phone] of a contact
    of the batch. *)
Lemma requeue_selects_by_snapshot_phone (contacts : list Dispatch.contact)
    (outcome : Dispatch.webhook_outcome) (queue : list Queue.queue_row) (now : Z)
    (r : Queue.queue_row) :
  r ∈ queue →
  (∀ c, c ∈ contacts → Dispatch.String_ (Dispatch.c_phone c) ≠ Queue.phone_number r) →
  match outcome with
  | Dispatch.Http_status code _ => code < 200 ∨ 300 <= code
  | Dispatch.Network_error _ => True
  end →
  r ∈ snd (Dispatch.sendContactsToN8N contacts outcome queue false now).
Proof.
  intros Hr Hphones Hfail.
  assert (Hkeep : ∀ set,
            r ∈ Dispatch.update_sent_rows queue (Clock.to_date now)
                  ((λ c, Dispatch.String_ (Dispatch.c_phone c)) <$> contacts) set).
  { intros set. unfold Dispatch.update_sent_rows. apply list_elem_of_fmap.
    exists r. split; [|exact Hr].
    assert (Hno : existsb (String.eqb (Queue.phone_number r))
                    ((λ c, Dispatch.String_ (Dispatch.c_phone c)) <$> contacts) = false).
    { apply not_true_is_false. intros (p & Hp & Heq)%existsb_exists.
      apply list_elem_of_In, list_elem_of_fmap in Hp as (c & -> & Hc).
      apply String.eqb_eq in Heq. by apply (Hphones c Hc). }
    by rewrite Hno, andb_false_r. }
  unfold Dispatch.sendContactsToN8N.
  destruct outcome as [code body|message]; cbn.
  - assert ((code <? 200) || (300 <=? code) = true) as ->
      by (apply orb_true_iff; rewrite Z.ltb_lt, Z.leb_le; exact Hfail).
    cbn. destruct (_ <$> contacts); [exact Hr|apply Hkeep].
  - destruct (_ <$> contacts); [exact Hr|apply Hkeep].
Qed.

(** C8 (the code departs from the claim).  A contact whose number the
    source gives in national form is queued under the normalised number,
    while its snapshot keeps the number as given.  The requeue after a
    failed handoff selects the rows by the snapshot's number, so the row
    stays in [sent_to_n8n]; the failure itself is reported, with the status
    and the body of the webhook's answer.  A contact
    whose number needs no rewriting is put back to [pending] with the
    reason "n8n_webhook_failed". *)
Theorem C8_failed_handoff_leaves_row_in_flight :
  let now := Clock.at_day Scenario.tuesday 10 0 in
  ((λ r, (Queue.phone_number r, Queue.cd_phone (Queue.q_contact_data r), Queue.q_status r))
     <$> Scenario.preloaded_tuesday)
  = [("+447700900123", Some "07700900123", Queue.pending)]
  ∧ fst (Dispatch.dispatch_cycle Scenario.failing_request Scenario.preloaded_tuesday now)
    = Dispatch.Error_500 "N8N webhook failed: 500 - Workflow could not be started"
  ∧ Scenario.rows_of_date Scenario.tuesday
      (snd (Dispatch.dispatch_cycle Scenario.failing_request Scenario.preloaded_tuesday now))
    = [(Queue.sent_to_n8n, None)]
  ∧ Scenario.rows_of_date Scenario.tuesday
      (snd (Dispatch.dispatch_cycle Scenario.failing_request
              Scenario.preloaded_tuesday_bob now))
    = [(Queue.pending, Some "n8n_webhook_failed")].
Proof. vm_compute. repeat split; reflexivity. Qed.

(** *** Preload *)

Lemma filter_eligible_take (f : string → bool) (now needed : Z)
    (cs : list Queue.ghl_contact) (acc : list Queue.new_row) :
  Z.of_nat (length acc) < needed →
  Queue.filter_eligible f now needed cs acc
  = (acc ++ take (Z.to_nat needed - length acc) (Queue.all_eligible f now cs))%list.
Proof.
  revert acc. induction cs as [|c cs IH]; intros acc Hlt; cbn.
  - by rewrite take_nil, app_nil_r.
  - destruct (Queue.g_phone c) as [phone|]; [|by apply IH].
    destruct (Nat.leb _ _); [by apply IH|].
    destruct (f (Queue.phoneForCheck phone)); [|by apply IH].
    rewrite length_app. cbn [length].
    destruct (Z.leb_spec needed (Z.of_nat (length acc + 1))) as [Hle|Hgt].
    + replace (Z.to_nat needed - length acc)%nat with 1%nat by lia.
      cbn. by rewrite take_0.
    + rewrite IH by (rewrite length_app; cbn; lia).
      rewrite length_app. cbn [length].
      replace (Z.to_nat needed - length acc)%nat
        with (S (Z.to_nat needed - (length acc + 1)))%nat by lia.
      cbn. by rewrite <- app_assoc.
Qed.

Lemma all_eligible_ids (f : string → bool) (now now' : Z) (cs : list Queue.ghl_contact) :
  Queue.n_contact_id <$> Queue.all_eligible f now cs
  = Queue.n_contact_id <$> Queue.all_eligible f now' cs.
Proof.
  induction cs as [|c cs IH]; cbn; [done|].
  repeat case_match; cbn; by rewrite ?IH.
Qed.

Lemma has_key_keys (queue : list Queue.queue_row) (d : Z) (c : string) :
  Queue.has_key queue d c = bool_decide ((d, c) ∈ Queue.keys queue).
Proof.
  unfold Queue.has_key.
  induction queue as [|r queue IH]; cbn.
  - symmetry. apply bool_decide_eq_false_2. by intros ?%elem_of_nil.
  - rewrite IH. destruct (Z.eqb_spec (Queue.queue_date r) d) as [Hd|Hd];
      destruct (String.eqb_spec (Queue.contact_id r) c) as [Hc|Hc]; cbn.
    + symmetry. apply bool_decide_eq_true_2. subst. apply list_elem_of_here.
    + apply bool_decide_ext. rewrite elem_of_cons. split; [auto|].
      intros [[= ? ?]|?]; [congruence|done].
    + apply bool_decide_ext. rewrite elem_of_cons. split; [auto|].
      intros [[= ? ?]|?]; [congruence|done].
    + apply bool_decide_ext. rewrite elem_of_cons. split; [auto|].
      intros [[= ? ?]|?]; [congruence|done].
Qed.

Lemma keys_insert_row (queue : list Queue.queue_row) (d : Z) (n : Queue.new_row) (now : Z) :
  Queue.keys (Queue.insert_row queue d n now)
  = (Queue.keys queue ++ [(d, Queue.n_contact_id n)])%list.
Proof. unfold Queue.keys, Queue.insert_row. by rewrite fmap_app. Qed.

Lemma count_insert_row (queue : list Queue.queue_row) (d : Z) (n : Queue.new_row) (now : Z) :
  Queue.count_for_date (Queue.insert_row queue d n now) d = Queue.count_for_date queue d + 1.
Proof.
  unfold Queue.count_for_date, Queue.insert_row.
  rewrite filter_app, length_app. cbn. rewrite decide_True by done. cbn. lia.
Qed.

Lemma insert_all_spec (l : list Queue.new_row) (queue queue' : list Queue.queue_row)
    (d now : Z) :
  Queue.insert_all queue d l now = Some queue' →
  Queue.count_for_date queue' d = Queue.count_for_date queue d + Z.of_nat (length l)
  ∧ Queue.keys queue'
    = (Queue.keys queue ++ ((λ n, (d, Queue.n_contact_id n)) <$> l))%list
  ∧ (Queue.unique_keys queue → Queue.unique_keys queue').
Proof.
  revert queue. induction l as [|n l IH]; intros queue; cbn.
  - intros [= <-]. rewrite app_nil_r. split; [lia|done].
  - destruct (Queue.has_key queue d (Queue.n_contact_id n)) eqn:Hk; [discriminate|].
    intros H. destruct (IH _ H) as (Hc & Hkeys & Hu).
    rewrite count_insert_row in Hc. rewrite keys_insert_row, <- app_assoc in Hkeys.
    split; [lia|]. split; [exact Hkeys|].
    intros Hq. apply Hu. unfold Queue.unique_keys. rewrite keys_insert_row.
    apply NoDup_app. split; [exact Hq|]. split; [|apply NoDup_singleton].
    intros k Hin ->%list_elem_of_singleton.
    rewrite has_key_keys in Hk. apply bool_decide_eq_false in Hk. done.
Qed.

(** Whether a multi-row INSERT goes through depends on the keys only. *)
Lemma insert_all_fails_alike (l l' : list Queue.new_row) (queue queue' : list Queue.queue_row)
    (d now now' : Z) :
  Queue.keys queue = Queue.keys queue' →
  Queue.n_contact_id <$> l = Queue.n_contact_id <$> l' →
  Queue.insert_all queue d l now = None →
  Queue.insert_all queue' d l' now' = None.
Proof.
  revert l' queue queue'. induction l as [|n l IH]; intros [|n' l'] queue queue' Hk Hl;
    cbn in *; try discriminate.
  injection Hl as Hn Hl. rewrite !has_key_keys, <- Hk, <- Hn.
  destruct (bool_decide _); [done|].
  apply IH; [|exact Hl]. rewrite !keys_insert_row. congruence.
Qed.

(** The edge function, with its loop read as "the first [needed] contacts
    that pass the filter". *)
Lemma preload_handler_unfold (f : string → bool) (queue : list Queue.queue_row) (now : Z)
    (cs : list Queue.ghl_contact) :
  Queue.preload_handler f queue now cs
  = let today := Clock.to_date now in
    let n := Queue.count_for_date queue today in
    if Queue.targetTotal <=? n then (Queue.Already_loaded n, queue)
    else
      match cs with
      | [] => (Queue.No_contacts_found, queue)
      | _ =>
          let E := take (Z.to_nat (Queue.targetTotal - n)) (Queue.all_eligible f now cs) in
          match E with
          | [] => (Queue.Preloaded 0 n, queue)
          | _ =>
              match Queue.insert_all queue today E now with
              | None => (Queue.Preload_failed, queue)
              | Some queue' =>
                  (Queue.Preloaded (Z.of_nat (length E))
                     (Queue.count_for_date queue' today), queue')
              end
          end
      end.
Proof.
  unfold Queue.preload_handler. cbn zeta.
  destruct (Z.leb_spec Queue.targetTotal (Queue.count_for_date queue (Clock.to_date now)))
    as [Hle|Hlt]; [reflexivity|].
  destruct cs as [|c cs]; [reflexivity|].
  rewrite filter_eligible_take by (cbn; lia).
  cbn [length app]. rewrite Z.max_r by lia.
  replace (Z.to_nat (Queue.targetTotal - _) - 0)%nat
    with (Z.to_nat (Queue.targetTotal - Queue.count_for_date queue (Clock.to_date now)))
    by lia.
  reflexivity.
Qed.

Lemma eligible_ids_take (f : string → bool) (now now' : Z) (cs : list Queue.ghl_contact)
    (n : nat) :
  Queue.n_contact_id <$> take n (Queue.all_eligible f now cs)
  = Queue.n_contact_id <$> take n (Queue.all_eligible f now' cs).
Proof. by rewrite !fmap_take, (all_eligible_ids f now now'). Qed.

Lemma match_nonempty {A B : Type} (l : list A) (a b : B) :
  l ≠ [] → match l with [] => a | _ :: _ => b end = b.
Proof. by destruct l. Qed.

(** Run again on the same date with the same candidates, the edge function
    leaves the queue as the first run left it. *)
Lemma preload_handler_again (f : string → bool) (queue : list Queue.queue_row)
    (now now' : Z) (cs : list Queue.ghl_contact) :
  Clock.to_date now' = Clock.to_date now →
  snd (Queue.preload_handler f (snd (Queue.preload_handler f queue now cs)) now' cs)
  = snd (Queue.preload_handler f queue now cs).
Proof.
  intros Hdate. rewrite (preload_handler_unfold f queue now cs). cbn zeta.
  set (today := Clock.to_date now) in *.
  destruct (Queue.targetTotal <=? Queue.count_for_date queue today) eqn:E1.
  { cbn. rewrite preload_handler_unfold. cbn zeta. rewrite Hdate. fold today.
    by rewrite E1. }
  destruct (decide (cs = [])) as [->|Hcs].
  { cbn. rewrite preload_handler_unfold. cbn zeta. rewrite Hdate. fold today.
    by rewrite E1. }
  rewrite (match_nonempty cs) by exact Hcs.
  pose proof (eligible_ids_take f now now' cs
                (Z.to_nat (Queue.targetTotal - Queue.count_for_date queue today))) as Hids.
  destruct (take _ (Queue.all_eligible f now cs)) as [|x E0] eqn:E.
  { cbn. rewrite preload_handler_unfold. cbn zeta. rewrite Hdate. fold today.
    rewrite E1, (match_nonempty cs) by exact Hcs.
    destruct (take _ (Queue.all_eligible f now' _)); [done|discriminate]. }
  destruct (Queue.insert_all queue today (x :: E0) now) as [q1|] eqn:Hins.
  - cbn [snd]. rewrite preload_handler_unfold. cbn zeta. rewrite Hdate. fold today.
    destruct (Queue.targetTotal <=? Queue.count_for_date q1 today) eqn:E2; [done|].
    rewrite (match_nonempty cs) by exact Hcs.
    destruct (insert_all_spec _ _ _ _ _ Hins) as (Hcount & Hkeys & _).
    apply Z.leb_gt in E1, E2.
    assert (Hall : ∃ y rest, Queue.all_eligible f now' cs = y :: rest
                             ∧ Queue.n_contact_id y = Queue.n_contact_id x).
    { pose proof (all_eligible_ids f now now' cs) as Ha.
      destruct (Queue.all_eligible f now cs) as [|x1 r1];
        [by rewrite take_nil in E|].
      destruct (Z.to_nat _) in E; [discriminate|]. cbn in E. injection E as -> _.
      destruct (Queue.all_eligible f now' cs) as [|y r2]; [discriminate|].
      injection Ha as Hy _. eauto. }
    destruct Hall as (y & rest & -> & Hy).
    destruct (Z.to_nat (Queue.targetTotal - Queue.count_for_date q1 today)) as [|k] eqn:Hk;
      [lia|].
    cbn. rewrite has_key_keys, Hkeys, Hy, bool_decide_eq_true_2; [done|].
    apply elem_of_app. right. apply list_elem_of_here.
  - cbn [snd]. rewrite preload_handler_unfold. cbn zeta. rewrite Hdate. fold today.
    rewrite E1, (match_nonempty cs) by exact Hcs.
    destruct (take _ (Queue.all_eligible f now' cs)) as [|x' E0'] eqn:E'; [done|].
    rewrite (insert_all_fails_alike _ (x' :: E0') queue queue today now now' eq_refl Hids Hins).
    done.
Qed.

Lemma count_for_date_keys (queue : list Queue.queue_row) (d : Z) :
  Queue.count_for_date queue d
  = Z.of_nat (length (filter (λ k, fst k = d) (Queue.keys queue))).
Proof.
  unfold Queue.count_for_date, Queue.keys. f_equal.
  induction queue as [|r queue IH]; [done|].
  rewrite fmap_cons, !filter_cons. cbn [fst].
  destruct (decide (Queue.queue_date r = d)); cbn; by rewrite IH.
Qed.

Lemma keys_expire (queue : list Queue.queue_row) (d now : Z) :
  Queue.keys (Queue.expire_previous_days queue d now) = Queue.keys queue.
Proof.
  unfold Queue.keys, Queue.expire_previous_days. rewrite <- list_fmap_compose.
  apply list_fmap_ext. intros i r _. cbn. by destruct (_ && _).
Qed.

Lemma expire_again (queue : list Queue.queue_row) (d now now' : Z) :
  Queue.expire_previous_days (Queue.expire_previous_days queue d now) d now'
  = Queue.expire_previous_days queue d now.
Proof.
  unfold Queue.expire_previous_days. rewrite <- list_fmap_compose.
  apply list_fmap_ext. intros i r _. cbn.
  destruct (Queue.queue_date r <? d) eqn:Hd; cbn; [|by rewrite Hd].
  destruct (bool_decide (Queue.q_status r = Queue.pending)) eqn:Hs; cbn.
  - by rewrite Hd.
  - by rewrite Hd, Hs.
Qed.

Lemma expire_of_date (rows : list Queue.queue_row) (d now : Z) :
  Forall (λ r, Queue.queue_date r = d) rows →
  Queue.expire_previous_days rows d now = rows.
Proof.
  intros H. unfold Queue.expire_previous_days.
  induction H as [|r rows Hr _ IH]; [done|].
  rewrite fmap_cons, IH. f_equal.
  assert (Hd : (Queue.queue_date r <? d) = false) by (apply Z.ltb_ge; lia).
  by rewrite Hd.
Qed.

Lemma insert_do_nothing_spec (l : list Queue.new_row) (queue : list Queue.queue_row)
    (d now : Z) :
  ∃ added,
    Queue.insert_do_nothing queue d l now
    = ((queue ++ added)%list, Z.of_nat (length added))
    ∧ Forall (λ r, Queue.queue_date r = d) added
    ∧ (length added <= length l)%nat
    ∧ (Queue.unique_keys queue → Queue.unique_keys (queue ++ added))
    ∧ (l ≠ [] → Queue.count_for_date queue d = 0 → added ≠ []).
Proof.
  revert queue. induction l as [|n l IH]; intros queue; cbn.
  - exists []. rewrite app_nil_r. repeat split; auto.
  - destruct (Queue.has_key queue d (Queue.n_contact_id n)) eqn:Hk.
    + destruct (IH queue) as (added & -> & Hd & Hlen & Hu & _).
      exists added. repeat split; auto.
      intros _ Hzero. exfalso.
      rewrite has_key_keys in Hk. apply bool_decide_eq_true in Hk.
      rewrite count_for_date_keys in Hzero.
      assert (Hin : (d, Queue.n_contact_id n) ∈ filter (λ k, fst k = d) (Queue.keys queue))
        by (apply list_elem_of_filter; done).
      destruct (filter _ (Queue.keys queue)); [by apply elem_of_nil in Hin|cbn in Hzero; lia].
    + destruct (IH (Queue.insert_row queue d n now)) as (added & Heq & Hd & Hlen & Hu & _).
      rewrite Heq. clear Heq IH.
      assert (Hrow : ∃ r, Queue.insert_row queue d n now = (queue ++ [r])%list
                          ∧ Queue.queue_date r = d
                          ∧ Queue.keys [r] = [(d, Queue.n_contact_id n)])
        by (unfold Queue.insert_row; eauto).
      destruct Hrow as (r & Hrow & Hrd & Hrk). rewrite Hrow in *.
      rewrite <- app_assoc in *. cbn [app] in *.
      exists (r :: added). split; [f_equal; cbn [length]; lia|].
      split; [by constructor|]. split; [cbn; lia|]. split; [|done].
      intros Hq. apply Hu.
      unfold Queue.unique_keys in *.
      change (Queue.keys (queue ++ [r])) with ((λ r, (Queue.queue_date r, Queue.contact_id r)) <$> (queue ++ [r])%list).
      rewrite fmap_app. fold (Queue.keys queue). fold (Queue.keys [r]). rewrite Hrk.
      apply NoDup_app. split; [exact Hq|]. split; [|apply NoDup_singleton].
      intros k Hin ->%list_elem_of_singleton.
      rewrite has_key_keys in Hk. by apply bool_decide_eq_false in Hk.
Qed.

Lemma count_for_date_app (q1 q2 : list Queue.queue_row) (d : Z) :
  Queue.count_for_date (q1 ++ q2) d = Queue.count_for_date q1 d + Queue.count_for_date q2 d.
Proof. unfold Queue.count_for_date. rewrite filter_app, length_app. lia. Qed.

Lemma count_for_date_all (rows : list Queue.queue_row) (d : Z) :
  Forall (λ r, Queue.queue_date r = d) rows →
  Queue.count_for_date rows d = Z.of_nat (length rows).
Proof.
  intros H. unfold Queue.count_for_date. f_equal. f_equal.
  induction H as [|r rows Hr _ IH]; [done|].
  rewrite filter_cons, decide_True by done. by rewrite IH.
Qed.

Lemma count_expire (queue : list Queue.queue_row) (d d' now : Z) :
  Queue.count_for_date (Queue.expire_previous_days queue d now) d'
  = Queue.count_for_date queue d'.
Proof. by rewrite !count_for_date_keys, keys_expire. Qed.

Lemma count_for_date_nonneg (queue : list Queue.queue_row) (d : Z) :
  0 <= Queue.count_for_date queue d.
Proof. unfold Queue.count_for_date. lia. Qed.

Lemma expire_app (q1 q2 : list Queue.queue_row) (d now : Z) :
  Queue.expire_previous_days (q1 ++ q2) d now
  = (Queue.expire_previous_days q1 d now ++ Queue.expire_previous_days q2 d now)%list.
Proof. unfold Queue.expire_previous_days. apply fmap_app. Qed.

(** What one run of [preload_daily_contacts] does to the queue, and what a
    second run does after it. *)
Lemma preload_daily_contacts_spec (db : ledger) (queue q1 : list Queue.queue_row)
    (target date now : Z) (r1 : Z * Queue.preload_message) :
  Queue.preload_daily_contacts db queue target date now = Some (r1, q1) →
  let n := Queue.count_for_date queue date in
  (0 < n → r1 = (n, Queue.Contacts_already_loaded_for_today))
  ∧ 0 <= Queue.count_for_date q1 date - n <= Z.max 0 (target - n)
  ∧ (Queue.unique_keys queue → Queue.unique_keys q1)
  ∧ ∀ now', (∀ phone, Queue.in_two_week_cooldown db phone now'
                      = Queue.in_two_week_cooldown db phone now) →
            ∃ r2, Queue.preload_daily_contacts db q1 target date now' = Some (r2, q1).
Proof.
  unfold Queue.preload_daily_contacts. cbn zeta. rewrite count_expire.
  intros H. set (n := Queue.count_for_date queue date) in *.
  pose proof (count_for_date_nonneg queue date) as Hn. fold n in Hn.
  assert (Huexp : Queue.unique_keys queue →
                  Queue.unique_keys (Queue.expire_previous_days queue date now))
    by (unfold Queue.unique_keys; by rewrite keys_expire).
  destruct (Z.ltb_spec 0 n) as [Hpos|Hzero].
  - injection H as <- <-. rewrite count_expire. fold n.
    split; [done|]. split; [lia|]. split; [exact Huexp|].
    intros now' _. rewrite expire_again, count_expire. fold n.
    rewrite (proj2 (Z.ltb_lt 0 n)) by lia. eauto.
  - assert (n = 0) as Hn0 by lia.
    destruct (Z.ltb_spec target 0) as [?|Htarget]; [discriminate|].
    match type of H with context [Queue.insert_do_nothing ?q ?d ?l ?t] =>
      destruct (insert_do_nothing_spec l q d t) as (added & Heq & Hdate & Hlen & Hu & Hne);
      set (eligible := l) in *
    end.
    rewrite Heq in H. injection H as <- <-.
    rewrite count_for_date_app, count_expire, (count_for_date_all _ _ Hdate). fold n.
    assert (length eligible <= Z.to_nat target)%nat
      by (unfold eligible; rewrite length_take; lia).
    split; [lia|]. split; [lia|]. split; [auto|].
    intros now' Hsame.
    rewrite expire_app, expire_again, (expire_of_date _ _ _ Hdate).
    rewrite count_for_date_app, count_expire, (count_for_date_all _ _ Hdate). fold n.
    destruct added as [|a added].
    + rewrite Hn0. cbn [length Z.of_nat Z.add Z.ltb Z.compare].
      assert (Hel : eligible = []).
      { destruct (decide (eligible = [])) as [?|Hx]; [done|].
        exfalso. apply (Hne Hx); [|done]. rewrite count_expire. exact Hn0. }
      assert (Hel' : take (Z.to_nat target)
                       (filter (λ c, Queue.in_two_week_cooldown db (Queue.n_phone_number c) now'
                                     = false)
                               (Queue.mock_contact <$> seqZ 1 target)) = eligible).
      { unfold eligible. f_equal. apply list_filter_iff. intros c. by rewrite Hsame. }
      rewrite Hel', Hel. cbn. rewrite app_nil_r. eauto.
    + rewrite Hn0. cbn [length].
      rewrite (proj2 (Z.ltb_lt 0 _)) by lia. eauto.
Qed.

Lemma preload_handler_tops_up (f : string → bool) (queue : list Queue.queue_row) (now : Z)
    (cs : list Queue.ghl_contact) :
  let today := Clock.to_date now in
  let n := Queue.count_for_date queue today in
  let queue' := snd (Queue.preload_handler f queue now cs) in
  0 <= Queue.count_for_date queue' today - n <= Z.max 0 (Queue.targetTotal - n)
  ∧ (Queue.unique_keys queue → Queue.unique_keys queue').
Proof.
  cbn zeta. rewrite preload_handler_unfold. cbn zeta.
  set (today := Clock.to_date now). set (n := Queue.count_for_date queue today).
  pose proof (count_for_date_nonneg queue today) as Hn. fold n in Hn.
  destruct (Z.leb_spec Queue.targetTotal n); [cbn; fold n; split; [lia|done]|].
  destruct cs as [|c cs]; [cbn; fold n; split; [lia|done]|].
  set (E := take _ _).
  assert (Hlen : (length E <= Z.to_nat (Queue.targetTotal - n))%nat)
    by (unfold E; rewrite length_take; lia).
  destruct E as [|x E0] eqn:HE; [cbn; fold n; split; [lia|done]|].
  destruct (Queue.insert_all queue today (x :: E0) now) as [q1|] eqn:Hins;
    [|cbn; fold n; split; [lia|done]].
  destruct (insert_all_spec _ _ _ _ _ Hins) as (Hcount & _ & Hu).
  cbn [snd]. fold n in Hcount. split; [lia|exact Hu].
Qed.

Lemma insert_do_nothing_fresh_keys (l : list Queue.new_row) (queue : list Queue.queue_row)
    (d now : Z) :
  NoDup (Queue.n_contact_id <$> l) →
  (∀ n, n ∈ l → (d, Queue.n_contact_id n) ∉ Queue.keys queue) →
  ∃ added,
    Queue.insert_do_nothing queue d l now = ((queue ++ added)%list, Z.of_nat (length l))
    ∧ length added = length l
    ∧ Forall (λ r, Queue.queue_date r = d ∧ Queue.q_status r = Queue.pending) added.
Proof.
  revert queue. induction l as [|n l IH]; intros queue Hnd Hfresh; cbn.
  - exists []. by rewrite app_nil_r.
  - cbn in Hnd. apply NoDup_cons in Hnd as [Hn Hnd].
    rewrite has_key_keys, bool_decide_eq_false_2 by (apply Hfresh; left).
    destruct (IH (Queue.insert_row queue d n now) Hnd) as (added & Heq & Hlen & Hall).
    { intros n' Hn'. rewrite keys_insert_row. intros [Hin|Hin]%elem_of_app.
      - by apply (Hfresh n'); [right|].
      - apply list_elem_of_singleton in Hin. injection Hin as Hin.
        apply Hn. rewrite <- Hin. apply list_elem_of_fmap. by exists n'. }
    rewrite Heq. unfold Queue.insert_row. rewrite <- app_assoc.
    eexists. split; [f_equal; lia|]. split; [cbn; by rewrite Hlen|].
    constructor; [cbn; done|exact Hall].
Qed.

Lemma mock_contact_ids_NoDup (a n : Z) :
  NoDup (Queue.n_contact_id <$> (Queue.mock_contact <$> seqZ a n)).
Proof.
  rewrite <- list_fmap_compose.
  apply NoDup_fmap_2_strong; [|apply NoDup_seqZ].
  intros i j _ _ H. cbn in H.
  by apply (inj (String.append "contact_")), (inj pretty) in H.
Qed.

Lemma no_row_no_key (queue : list Queue.queue_row) (d : Z) (c : string) :
  Queue.count_for_date queue d = 0 → (d, c) ∉ Queue.keys queue.
Proof.
  unfold Queue.count_for_date, Queue.keys. intros Hc Hin.
  apply list_elem_of_fmap in Hin as (r & Hr & Hin). injection Hr as Hd _.
  assert (Hf : r ∈ filter (λ r, Queue.queue_date r = d) queue).
  { apply list_elem_of_filter. auto. }
  destruct (filter _ queue); [by apply elem_of_nil in Hf|cbn in Hc; lia].
Qed.

Lemma insert_all_fresh_keys (l : list Queue.new_row) (queue : list Queue.queue_row)
    (d now : Z) :
  NoDup (Queue.n_contact_id <$> l) →
  (∀ n, n ∈ l → (d, Queue.n_contact_id n) ∉ Queue.keys queue) →
  ∃ added,
    Queue.insert_all queue d l now = Some (queue ++ added)%list
    ∧ length added = length l
    ∧ Forall (λ r, Queue.queue_date r = d ∧ Queue.q_status r = Queue.pending) added.
Proof.
  revert queue. induction l as [|n l IH]; intros queue Hnd Hfresh; cbn.
  - exists []. by rewrite app_nil_r.
  - cbn in Hnd. apply NoDup_cons in Hnd as [Hn Hnd].
    rewrite has_key_keys, bool_decide_eq_false_2 by (apply Hfresh; left).
    destruct (IH (Queue.insert_row queue d n now) Hnd) as (added & Heq & Hlen & Hall).
    { intros n' Hn'. rewrite keys_insert_row. intros [Hin|Hin]%elem_of_app.
      - by apply (Hfresh n'); [right|].
      - apply list_elem_of_singleton in Hin. injection Hin as Hin.
        apply Hn. rewrite <- Hin. apply list_elem_of_fmap. by exists n'. }
    rewrite Heq. unfold Queue.insert_row. rewrite <- app_assoc.
    eexists. split; [reflexivity|]. split; [cbn; by rewrite Hlen|].
    constructor; [cbn; done|exact Hall].
Qed.

(** On a date that already has a row, [preload_daily_contacts] inserts
    nothing, whatever the target: it expires the rows of earlier days and
    returns the count it found. *)
Lemma preload_daily_contacts_loaded (db : ledger) (queue : list Queue.queue_row)
    (target date now : Z) :
  0 < Queue.count_for_date queue date →
  Queue.preload_daily_contacts db queue target date now
  = Some ((Queue.count_for_date queue date, Queue.Contacts_already_loaded_for_today),
          Queue.expire_previous_days queue date now).
Proof.
  intros Hn. unfold Queue.preload_daily_contacts. cbn zeta.
  rewrite count_expire. by rewrite (proj2 (Z.ltb_lt _ _) Hn).
Qed.

(** On a date without a row it inserts exactly the placeholder contacts
    that are not in the two-week cooldown. *)
Lemma preload_daily_contacts_empty_day (db : ledger) (queue : list Queue.queue_row)
    (target date now : Z) :
  0 <= target →
  Queue.count_for_date queue date = 0 →
  let fresh :=
    filter (λ n, Queue.in_two_week_cooldown db (Queue.n_phone_number n) now = false)
           (Queue.mock_contact <$> seqZ 1 target) in
  ∃ added,
    Queue.preload_daily_contacts db queue target date now
    = Some ((Z.of_nat (length fresh), Queue.Loaded_contacts (Z.of_nat (length fresh)) date),
            (Queue.expire_previous_days queue date now ++ added)%list)
    ∧ length added = length fresh
    ∧ Forall (λ r, Queue.queue_date r = date ∧ Queue.q_status r = Queue.pending) added.
Proof.
  intros Hpos Hzero fresh. unfold Queue.preload_daily_contacts. cbn zeta.
  rewrite count_expire, Hzero. cbn [Z.ltb Z.compare].
  destruct (Z.ltb_spec target 0) as [?|_]; [lia|].
  fold fresh.
  assert (Hlen : (length fresh <= Z.to_nat target)%nat).
  { unfold fresh. etransitivity; [apply length_filter|].
    rewrite length_fmap, length_seqZ. lia. }
  rewrite take_ge by exact Hlen.
  destruct (insert_do_nothing_fresh_keys fresh
              (Queue.expire_previous_days queue date now) date now)
    as (added & Heq & Hadded & Hall).
  { refine (sublist_NoDup _ _ (mock_contact_ids_NoDup 1 target) _).
    apply fmap_sublist, sublist_filter. }
  { intros n _. apply no_row_no_key. by rewrite count_expire. }
  rewrite Heq. exists added. auto.
Qed.




(** *** Overlapping dequeues *)

Section Overlap.
Import Queue Dequeue.

Variable where_ : invocation → queue_row → bool.
Variable table0 : list queue_row.

(** The primary key. *)
Hypothesis ids_unique : NoDup (id <$> table0).
(** The WHERE clause asks for a pending row. *)
Hypothesis where_pending : ∀ i r, where_ i r = true → q_status r = pending.

Lemma get_with_phase (i k : invocation) (p : phase) (s : system) :
  get k (with_phase i p s)
  = if decide (k = i)
    then {| t_batch_size := t_batch_size (get i s); t_now := t_now (get i s); t_phase := p |}
    else get k s.
Proof. destruct i, k; reflexivity. Qed.

Lemma table_with_phase (i : invocation) (p : phase) (s : system) :
  table (with_phase i p s) = table s.
Proof. by destruct i. Qed.

Lemma locks_with_phase (i : invocation) (p : phase) (s : system) :
  locks (with_phase i p s) = locks s.
Proof. by destruct i. Qed.

Lemma lookup_row_Some (queue : list queue_row) (rid : Z) (r : queue_row) :
  lookup_row queue rid = Some r → r ∈ queue ∧ id r = rid.
Proof.
  unfold lookup_row. intros H.
  assert (Hin : r ∈ filter (λ r, id r = rid) queue).
  { destruct (filter _ queue) as [|x l]; [discriminate|].
    injection H as ->. apply list_elem_of_here. }
  apply list_elem_of_filter in Hin. tauto.
Qed.

Lemma lookup_row_is_Some (queue : list queue_row) (r : queue_row) :
  r ∈ queue → is_Some (lookup_row queue (id r)).
Proof.
  intros Hin. unfold lookup_row.
  assert (Hf : r ∈ filter (λ x, id x = id r) queue) by (apply list_elem_of_filter; done).
  destruct (filter _ queue); [by apply elem_of_nil in Hf|cbn; eauto].
Qed.

Lemma id_claim (now : Z) (r : queue_row) : id (claim now r) = id r.
Proof. reflexivity. Qed.

Lemma id_committed (s : system) (r : queue_row) : id (committed s r) = id r.
Proof. unfold committed. repeat case_bool_decide; reflexivity. Qed.

Lemma same_id_same_row (r1 r2 : queue_row) :
  r1 ∈ table0 → r2 ∈ table0 → id r1 = id r2 → r1 = r2.
Proof.
  intros [i1 H1]%list_elem_of_lookup [i2 H2]%list_elem_of_lookup Hid.
  assert (i1 = i2).
  { eapply NoDup_lookup; [exact ids_unique| |];
      rewrite list_lookup_fmap; [by rewrite H1|by rewrite H2, Hid]. }
  congruence.
Qed.

Lemma committed_ext (s s' : system) :
  returned (tx_first s') = returned (tx_first s) →
  returned (tx_second s') = returned (tx_second s) →
  t_now (tx_first s') = t_now (tx_first s) →
  t_now (tx_second s') = t_now (tx_second s) →
  ∀ r, committed s' r = committed s r.
Proof. intros H1 H2 H3 H4 r. unfold committed. by rewrite H1, H2, H3, H4. Qed.

(** A move that changes neither the table nor the locks nor what the
    invocations own keeps the invariant. *)
Lemma consistent_walk (i : invocation) (s : system) (todo' got : list Z) :
  consistent where_ table0 s →
  holding (get i s) = got →
  returned (get i s) = [] →
  NoDup (got ++ todo') →
  consistent where_ table0 (with_phase i (Locking todo' got) s).
Proof.
  intros [Ht Ho Hw Hs Hl Hr Hlim] Hgot Hnone Hnd.
  assert (Hhold : ∀ k, holding (get k (with_phase i (Locking todo' got) s))
                       = holding (get k s)).
  { intros k. rewrite get_with_phase. destruct (decide (k = i)) as [->|]; [|done].
    by rewrite Hgot. }
  assert (Hret : ∀ k, returned (get k (with_phase i (Locking todo' got) s))
                      = returned (get k s)).
  { intros k. rewrite get_with_phase. destruct (decide (k = i)) as [->|]; [|done].
    by rewrite Hnone. }
  assert (Hown : ∀ k, owned (get k (with_phase i (Locking todo' got) s)) = owned (get k s)).
  { intros k. unfold owned. by rewrite Hhold, Hret. }
  assert (Hnow : ∀ k, t_now (get k (with_phase i (Locking todo' got) s)) = t_now (get k s)).
  { intros k. rewrite get_with_phase. by destruct (decide (k = i)) as [->|]. }
  assert (Hsize : ∀ k, t_batch_size (get k (with_phase i (Locking todo' got) s))
                       = t_batch_size (get k s)).
  { intros k. rewrite get_with_phase. by destruct (decide (k = i)) as [->|]. }
  split.
  - rewrite table_with_phase, Ht. apply list_fmap_ext. intros _ r _. symmetry.
    apply committed_ext; [apply (Hret first)|apply (Hret second)
                         |apply (Hnow first)|apply (Hnow second)].
  - change (tx_first ?x) with (get first x). change (tx_second ?x) with (get second x).
    rewrite !Hown. exact Ho.
  - intros k. rewrite Hhold. rewrite get_with_phase.
    destruct (decide (k = i)) as [->|]; [|apply Hw].
    rewrite Hgot. exact Hnd.
  - intros k rid. rewrite Hown. apply Hs.
  - intros k rid. rewrite locks_with_phase, Hhold. apply Hl.
  - intros k result. rewrite Hnow, get_with_phase.
    destruct (decide (k = i)) as [->|]; [discriminate|apply Hr].
  - intros k. rewrite Hown, Hsize. apply Hlim.
Qed.

Lemma row_of_table (s : system) (rid : Z) (r : queue_row) :
  consistent where_ table0 s →
  lookup_row (table s) rid = Some r →
  ∃ r0, r0 ∈ table0 ∧ id r0 = rid ∧ r = committed s r0.
Proof.
  intros Hc [Hin Hid]%lookup_row_Some. rewrite (table_is _ _ _ Hc) in Hin.
  apply list_elem_of_fmap in Hin as (r0 & -> & Hr0).
  exists r0. by rewrite id_committed in Hid.
Qed.

Lemma returned_in_owned (t : txn) (rid : Z) : rid ∈ returned t → rid ∈ owned t.
Proof. intros H. apply elem_of_app. by right. Qed.

Lemma holding_in_owned (t : txn) (rid : Z) : rid ∈ holding t → rid ∈ owned t.
Proof. intros H. apply elem_of_app. by left. Qed.

(** A row some invocation has returned is no longer pending. *)
Lemma returned_not_selected (s : system) (r0 : queue_row) (i k : invocation) :
  id r0 ∈ returned (get k s) → where_ i (committed s r0) = false.
Proof.
  intros Hin. apply not_true_is_false. intros Hw%where_pending.
  unfold committed in Hw.
  destruct k; cbn [get] in Hin; repeat case_bool_decide; try done.
Qed.

(** The invocation locks the row it is looking at. *)
Lemma consistent_lock (i : invocation) (s : system) (rid : Z) (todo' got : list Z)
    (r : queue_row) :
  consistent where_ table0 s →
  t_phase (get i s) = Locking (rid :: todo') got →
  (length got < t_batch_size (get i s))%nat →
  held_by_other i rid s = false →
  lookup_row (table s) rid = Some r →
  where_ i r = true →
  consistent where_ table0
    (with_phase i (Locking todo' (got ++ [rid])) (lock_row i rid s)).
Proof.
  intros Hc Hph Hlen Hfree Hrow Hsel.
  destruct (row_of_table _ _ _ Hc Hrow) as (r0 & Hr0 & Hid & ->).
  destruct Hc as [Ht Ho Hw Hs Hl Hr Hlim].
  assert (Hgot : holding (get i s) = got) by (unfold holding; by rewrite Hph).
  assert (Hnone : returned (get i s) = []) by (unfold returned; by rewrite Hph).
  assert (Hnr : ∀ k, rid ∉ returned (get k s)).
  { intros k Hin. rewrite <- Hid in Hin.
    by rewrite (returned_not_selected s r0 i k Hin) in Hsel. }
  assert (Hr0' : committed s r0 = r0).
  { unfold committed. rewrite Hid.
    rewrite !bool_decide_eq_false_2; [done|apply (Hnr second)|apply (Hnr first)]. }
  rewrite Hr0' in Hsel.
  assert (Hnh : ∀ k, k ≠ i → rid ∉ holding (get k s)).
  { intros k Hk Hin. apply Hl in Hin. unfold held_by_other in Hfree.
    rewrite Hin in Hfree. by rewrite bool_decide_eq_true_2 in Hfree. }
  assert (Hno : ∀ k, k ≠ i → rid ∉ owned (get k s)).
  { intros k Hk [?|?]%elem_of_app; [by apply (Hnh k)|by apply (Hnr k)]. }
  specialize (Hw i) as Hwi. rewrite Hgot in Hwi. unfold todo_of in Hwi. rewrite Hph in Hwi.
  assert (Hfresh : rid ∉ got).
  { intros Hin. apply NoDup_app in Hwi as (_ & Hdis & _).
    apply (Hdis rid Hin), list_elem_of_here. }
  set (s' := with_phase i (Locking todo' (got ++ [rid])) (lock_row i rid s)).
  assert (Hget : ∀ k, k ≠ i → get k s' = get k s).
  { intros k Hk. unfold s'. rewrite get_with_phase, decide_False by done. by destruct k. }
  assert (Hgeti : get i s' = {| t_batch_size := t_batch_size (get i s);
                                t_now := t_now (get i s);
                                t_phase := Locking todo' (got ++ [rid]) |}).
  { unfold s'. rewrite get_with_phase, decide_True by done. by destruct i. }
  assert (Howni : owned (get i s') = (got ++ [rid])%list).
  { rewrite Hgeti. unfold owned, holding, returned. cbn. by rewrite app_nil_r. }
  assert (Howni0 : owned (get i s) = got).
  { unfold owned. by rewrite Hgot, Hnone, app_nil_r. }
  split.
  - assert (Htab : table s' = table s) by (unfold s'; by rewrite table_with_phase).
    rewrite Htab, Ht.
    apply list_fmap_ext. intros _ x _. symmetry.
    apply committed_ext.
    + destruct (decide (first = i)) as [<-|Hne].
      * change (tx_first ?x) with (get first x). rewrite Hgeti, Hnone. reflexivity.
      * change (tx_first ?x) with (get first x). by rewrite (Hget first Hne).
    + destruct (decide (second = i)) as [<-|Hne].
      * change (tx_second ?x) with (get second x). rewrite Hgeti, Hnone. reflexivity.
      * change (tx_second ?x) with (get second x). by rewrite (Hget second Hne).
    + destruct (decide (first = i)) as [<-|Hne].
      * change (tx_first ?x) with (get first x). by rewrite Hgeti.
      * change (tx_first ?x) with (get first x). by rewrite (Hget first Hne).
    + destruct (decide (second = i)) as [<-|Hne].
      * change (tx_second ?x) with (get second x). by rewrite Hgeti.
      * change (tx_second ?x) with (get second x). by rewrite (Hget second Hne).
  - change (tx_first ?x) with (get first x). change (tx_second ?x) with (get second x).
    change (tx_first ?x) with (get first x) in Ho.
    change (tx_second ?x) with (get second x) in Ho.
    destruct i.
    + rewrite Howni, (Hget second) by done. rewrite Howni0 in Ho.
      rewrite <- app_assoc. cbn [app].
      apply NoDup_app in Ho as (H1 & H2 & H3).
      apply NoDup_app. split; [exact H1|]. split.
      * intros x Hx [->|Hx2]%elem_of_cons; [done|by apply (H2 x)].
      * apply NoDup_cons. split; [by apply (Hno second)|exact H3].
    + rewrite Howni, (Hget first) by done. rewrite Howni0 in Ho.
      rewrite app_assoc. apply NoDup_app in Ho as (H1 & H2 & H3).
      apply NoDup_app. split; [by apply NoDup_app|]. split; [|apply NoDup_singleton].
      intros x [Hx|Hx]%elem_of_app ->%list_elem_of_singleton;
        [by apply (Hno first)|done].
  - intros k. destruct (decide (k = i)) as [->|Hk].
    + rewrite Hgeti. unfold holding, todo_of. cbn.
      rewrite <- app_assoc. exact Hwi.
    + rewrite (Hget k Hk). apply Hw.
  - intros k x. destruct (decide (k = i)) as [->|Hk].
    + rewrite Howni. intros [Hx|Hx%list_elem_of_singleton]%elem_of_app.
      * apply Hs. by rewrite Howni0.
      * subst x. eauto.
    + rewrite (Hget k Hk). apply Hs.
  - assert (Hlocks : locks s' = <[rid := i]> (locks s))
      by (unfold s'; by rewrite locks_with_phase).
    intros k x. rewrite Hlocks.
    destruct (decide (k = i)) as [->|Hk].
    + rewrite Hgeti. unfold holding. cbn.
      destruct (decide (x = rid)) as [->|Hx].
      * rewrite lookup_insert_eq. split; [intros _|done].
        apply elem_of_app. right. apply list_elem_of_here.
      * rewrite lookup_insert_ne by done. rewrite Hl, Hgot, elem_of_app.
        split; [auto|]. intros [?|?%list_elem_of_singleton]; done.
    + rewrite (Hget k Hk).
      destruct (decide (x = rid)) as [->|Hx].
      * rewrite lookup_insert_eq. split; [congruence|]. intros Hin. by apply Hnh in Hin.
      * rewrite lookup_insert_ne by done. apply Hl.
  - intros k result. destruct (decide (k = i)) as [->|Hk].
    + rewrite Hgeti. discriminate.
    + rewrite (Hget k Hk). apply Hr.
  - intros k. destruct (decide (k = i)) as [->|Hk].
    + rewrite Howni, Hgeti. cbn. rewrite length_app. cbn. lia.
    + rewrite (Hget k Hk). apply Hlim.
Qed.

Lemma ids_claim_ids (now : Z) (ids : list Z) (queue : list queue_row) :
  id <$> claim_ids now ids queue = id <$> queue.
Proof.
  unfold claim_ids. rewrite <- list_fmap_compose. apply list_fmap_ext.
  intros _ r _. cbn. by case_bool_decide.
Qed.

(** RETURNING yields one row for each locked id. *)
Lemma returning_ids (queue : list queue_row) (got : list Z) :
  (∀ rid, rid ∈ got → rid ∈ id <$> queue) →
  b_queue_id <$> (returning <$> omap (lookup_row queue) got) = got.
Proof.
  induction got as [|rid got IH]; intros Hin; [done|].
  cbn [omap list_omap].
  assert (Hrid : rid ∈ id <$> queue) by (apply Hin, list_elem_of_here).
  apply list_elem_of_fmap in Hrid as (r & -> & Hr).
  destruct (lookup_row_is_Some _ _ Hr) as [r' Hr'].
  change (omap (lookup_row queue) (id r :: got))
    with (match lookup_row queue (id r) with
          | Some y => y :: omap (lookup_row queue) got
          | None => omap (lookup_row queue) got
          end).
  rewrite Hr'. cbn. apply lookup_row_Some in Hr' as [_ ->].
  f_equal. apply IH. intros x Hx. apply Hin. by apply list_elem_of_further.
Qed.

(** The invocation commits: its locked rows are updated and returned. *)
Lemma consistent_commit (i : invocation) (s : system) (todo got : list Z) :
  consistent where_ table0 s →
  t_phase (get i s) = Locking todo got →
  consistent where_ table0 (commit i got s).
Proof.
  intros Hc Hph.
  pose proof Hc as [Ht Ho Hw Hs Hl Hr Hlim].
  assert (Hgot : holding (get i s) = got) by (unfold holding; by rewrite Hph).
  assert (Hnone : returned (get i s) = []) by (unfold returned; by rewrite Hph).
  assert (Howni0 : owned (get i s) = got).
  { unfold owned. by rewrite Hgot, Hnone, app_nil_r. }
  set (now := t_now (get i s)).
  set (table' := claim_ids now got (table s)).
  set (result := returning <$> omap (lookup_row table') got).
  set (s' := commit i got s).
  assert (Hgeti : get i s' = {| t_batch_size := t_batch_size (get i s);
                                t_now := now; t_phase := Returned result |}).
  { unfold s', commit. rewrite get_with_phase, decide_True by done. by destruct i. }
  assert (Hget : ∀ k, k ≠ i → get k s' = get k s).
  { intros k Hk. unfold s', commit. rewrite get_with_phase, decide_False by done.
    by destruct k. }
  assert (Htab : table s' = table').
  { unfold s', commit. by rewrite table_with_phase. }
  assert (Hlocks : locks s' = filter (λ kv, kv.2 ≠ i) (locks s)).
  { unfold s', commit. by rewrite locks_with_phase. }
  assert (Hids : ∀ rid, rid ∈ got → rid ∈ id <$> table').
  { intros rid Hin. unfold table'. rewrite ids_claim_ids, Ht, <- list_fmap_compose.
    destruct (Hs i rid) as (r0 & Hr0 & <- & _); [by rewrite Howni0|].
    apply list_elem_of_fmap. exists r0. split; [|done]. cbn. by rewrite id_committed. }
  assert (Hreti : returned (get i s') = got).
  { rewrite Hgeti. unfold returned. cbn. by apply returning_ids. }
  assert (Hholdi : holding (get i s') = []) by (by rewrite Hgeti).
  assert (Howni : owned (get i s') = got).
  { unfold owned. by rewrite Hholdi, Hreti. }
  assert (Hapart : ∀ k rid, k ≠ i → rid ∈ got → rid ∉ owned (get k s)).
  { intros k rid Hk Hin Hin'.
    change (tx_first ?x) with (get first x) in Ho.
    change (tx_second ?x) with (get second x) in Ho.
    apply NoDup_app in Ho as (_ & Hdis & _).
    destruct i, k; try done.
    - apply (Hdis rid); [by rewrite Howni0|done].
    - apply (Hdis rid); [done|by rewrite Howni0]. }
  assert (Hsame : ∀ r0, id r0 ∈ got → committed s r0 = r0).
  { intros r0 Hin. unfold committed.
    rewrite !bool_decide_eq_false_2; [done| |].
    - change (tx_second s) with (get second s). intros Hx.
      destruct (decide (second = i)) as [<-|Hne];
        [rewrite Hnone in Hx; by apply elem_of_nil in Hx|].
      by apply (Hapart second (id r0) Hne Hin), returned_in_owned.
    - change (tx_first s) with (get first s). intros Hx.
      destruct (decide (first = i)) as [<-|Hne];
        [rewrite Hnone in Hx; by apply elem_of_nil in Hx|].
      by apply (Hapart first (id r0) Hne Hin), returned_in_owned. }
  assert (Hnew : ∀ r0, committed s' r0
                       = if bool_decide (id r0 ∈ got) then claim now r0 else committed s r0).
  { intros r0. unfold committed.
    change (tx_first ?x) with (get first x). change (tx_second ?x) with (get second x).
    destruct i.
    - rewrite Hreti, Hnone, (Hget second) by done. rewrite Hgeti. cbn [t_now].
      case_bool_decide; [done|]. by rewrite (bool_decide_eq_false_2 (id r0 ∈ [])) by
        (by intros ?%elem_of_nil).
    - rewrite Hreti, Hnone, (Hget first) by done. rewrite Hgeti. cbn [t_now].
      destruct (bool_decide (id r0 ∈ got)) eqn:Hg.
      + apply bool_decide_eq_true in Hg.
        rewrite bool_decide_eq_false_2; [done|]. intros Hx.
        by apply (Hapart first (id r0)), returned_in_owned.
      + case_bool_decide; [done|].
        by rewrite (bool_decide_eq_false_2 (id r0 ∈ [])) by (by intros ?%elem_of_nil). }
  assert (Htable : table s' = committed s' <$> table0).
  { rewrite Htab. unfold table', claim_ids. rewrite Ht, <- list_fmap_compose.
    apply list_fmap_ext. intros _ r0 _. cbn. rewrite Hnew, id_committed.
    case_bool_decide as Hg; [|done]. by rewrite (Hsame r0 Hg). }
  split.
  - exact Htable.
  - change (tx_first ?x) with (get first x). change (tx_second ?x) with (get second x).
    change (tx_first ?x) with (get first x) in Ho.
    change (tx_second ?x) with (get second x) in Ho.
    destruct i.
    + rewrite Howni, (Hget second) by done. by rewrite Howni0 in Ho.
    + rewrite Howni, (Hget first) by done. by rewrite Howni0 in Ho.
  - intros k. destruct (decide (k = i)) as [->|Hk].
    + rewrite Hholdi, Hgeti. cbn. apply NoDup_nil_2.
    + rewrite (Hget k Hk). apply Hw.
  - intros k x. destruct (decide (k = i)) as [->|Hk].
    + rewrite Howni, <- Howni0. apply Hs.
    + rewrite (Hget k Hk). apply Hs.
  - intros k x. rewrite Hlocks, map_lookup_filter_Some. cbn.
    destruct (decide (k = i)) as [->|Hk].
    + rewrite Hholdi. split; [by intros [_ ?]|by intros ?%elem_of_nil].
    + rewrite (Hget k Hk), Hl. split; [by intros [? _]|done].
  - intros k res. destruct (decide (k = i)) as [->|Hk].
    + rewrite Hgeti. cbn. intros [= <-] b (r & -> & Hrr)%list_elem_of_fmap.
      apply list_elem_of_omap in Hrr as (rid & Hrid & Hrow).
      apply lookup_row_Some in Hrow as [Hin Hid].
      rewrite <- Htab, Htable in Hin.
      apply list_elem_of_fmap in Hin as (r0 & -> & Hr0).
      exists r0. split; [done|]. f_equal. rewrite Hnew.
      rewrite id_committed in Hid. rewrite Hid, bool_decide_eq_true_2; done.
    + rewrite (Hget k Hk). apply Hr.
  - intros k. destruct (decide (k = i)) as [->|Hk].
    + rewrite Howni, Hgeti. cbn. rewrite <- Howni0. apply Hlim.
    + rewrite (Hget k Hk). apply Hlim.
Qed.

Lemma ids_filter_NoDup (P : queue_row → bool) (l : list queue_row) :
  NoDup (id <$> l) → NoDup (id <$> filter (λ r, P r = true) l).
Proof.
  induction l as [|r l IH]; [done|].
  rewrite fmap_cons, NoDup_cons. intros [Hr Hl].
  rewrite filter_cons. destruct (decide (P r = true)); [|by apply IH].
  rewrite fmap_cons. apply NoDup_cons. split; [|by apply IH].
  intros (x & Hid & Hx)%list_elem_of_fmap. apply list_elem_of_filter in Hx as [_ Hx].
  apply Hr, list_elem_of_fmap. eauto.
Qed.

Lemma ids_table (s : system) : consistent where_ table0 s → id <$> table s = id <$> table0.
Proof.
  intros Hc. rewrite (table_is _ _ _ Hc), <- list_fmap_compose.
  apply list_fmap_ext. intros _ r _. cbn. apply id_committed.
Qed.

(** Every step keeps the invariant. *)
Lemma step_consistent (i : invocation) (s : system) :
  consistent where_ table0 s → consistent where_ table0 (step where_ i s).
Proof.
  intros Hc. unfold step.
  destruct (t_phase (get i s)) as [|todo got|result] eqn:Hph; [| |exact Hc].
  - apply consistent_walk; [exact Hc| | |].
    + unfold holding. by rewrite Hph.
    + unfold returned. by rewrite Hph.
    + cbn [app]. rewrite order_rows_perm. apply ids_filter_NoDup.
      rewrite (ids_table s Hc). exact ids_unique.
  - assert (Hgot : holding (get i s) = got) by (unfold holding; by rewrite Hph).
    assert (Hnone : returned (get i s) = []) by (unfold returned; by rewrite Hph).
    destruct (length got <? t_batch_size (get i s))%nat eqn:Hlen;
      [|by eapply consistent_commit].
    destruct todo as [|rid todo']; [by eapply consistent_commit|].
    assert (Hnd : NoDup (got ++ todo')).
    { pose proof (walk_apart _ _ _ Hc i) as Hw. rewrite Hgot in Hw.
      unfold todo_of in Hw. rewrite Hph in Hw.
      apply NoDup_app in Hw as (H1 & H2 & H3). apply NoDup_cons in H3 as [_ H3].
      apply NoDup_app. split; [done|]. split; [|done].
      intros x Hx Hx'. apply (H2 x Hx). by apply list_elem_of_further. }
    destruct (held_by_other i rid s) eqn:Hheld; [by apply consistent_walk|].
    destruct (lookup_row (table s) rid) as [r|] eqn:Hrow; [|by apply consistent_walk].
    destruct (where_ i r) eqn:Hsel; [|by apply consistent_walk].
    eapply consistent_lock; try eassumption. by apply Nat.ltb_lt.
Qed.

Lemma run_consistent (schedule : list invocation) (s : system) :
  consistent where_ table0 s → consistent where_ table0 (run where_ schedule s).
Proof.
  revert s. induction schedule as [|i schedule IH]; intros s Hc; [exact Hc|].
  cbn. apply IH, step_consistent, Hc.
Qed.

Lemma start_consistent (size1 size2 : nat) (now1 now2 : Z) :
  consistent where_ table0 (start table0 size1 size2 now1 now2).
Proof.
  split; cbn.
  - transitivity (Datatypes.id <$> table0); [by rewrite list_fmap_id|].
    apply list_fmap_ext. intros _ r _. unfold committed. cbn.
    by rewrite !bool_decide_eq_false_2 by (by intros ?%elem_of_nil).
  - apply NoDup_nil_2.
  - intros []; apply NoDup_nil_2.
  - intros [] rid Hin; by apply elem_of_nil in Hin.
  - intros [] rid; rewrite lookup_empty; split; try done; by intros ?%elem_of_nil.
  - intros [] result; discriminate.
  - intros []; cbn; lia.
Qed.

(** *** Termination *)

Lemma length_order_rows (l : list queue_row) : length (order_rows l) = length l.
Proof. by rewrite order_rows_perm. Qed.

Lemma table_length_step (i : invocation) (s : system) :
  length (table (step where_ i s)) = length (table s).
Proof.
  unfold step, commit.
  repeat case_match; rewrite ?table_with_phase; cbn [table lock_row];
    unfold claim_ids; by rewrite ?length_fmap.
Qed.

Lemma phase_step_other (i k : invocation) (s : system) :
  k ≠ i → get k (step where_ i s) = get k s.
Proof.
  intros Hk. unfold step, commit.
  repeat case_match; rewrite ?get_with_phase, ?decide_False by done; by destruct k.
Qed.

Lemma steps_left_other (i k : invocation) (s : system) :
  k ≠ i → steps_left k (step where_ i s) = steps_left k s.
Proof.
  intros Hk. unfold steps_left.
  by rewrite (phase_step_other i k s Hk), table_length_step.
Qed.

Lemma steps_left_moves (i : invocation) (s : system) :
  (steps_left i (step where_ i s) <= pred (steps_left i s))%nat.
Proof.
  unfold steps_left at 2. unfold step, commit.
  destruct (t_phase (get i s)) as [|todo got|result] eqn:Hph.
  - unfold steps_left. rewrite get_with_phase, decide_True by done. cbn.
    rewrite length_fmap, length_order_rows. pose proof (length_filter
      (λ r, where_ i r = true) (table s)). lia.
  - assert (Hskip : ∀ todo' got' s1,
               steps_left i (with_phase i (Locking todo' got') s1) = S (length todo')).
    { intros. unfold steps_left. by rewrite get_with_phase, decide_True by done. }
    assert (Hdone : ∀ res s1, steps_left i (with_phase i (Returned res) s1) = 0%nat).
    { intros. unfold steps_left. by rewrite get_with_phase, decide_True by done. }
    repeat case_match; rewrite ?Hskip, ?Hdone; cbn; lia.
  - unfold steps_left. rewrite Hph. lia.
Qed.

Lemma steps_left_run (schedule : list invocation) (k : invocation) (s : system) :
  (steps_left k (run where_ schedule s) <= steps_left k s - moves k schedule)%nat.
Proof.
  revert s. induction schedule as [|i schedule IH]; intros s; [cbn; lia|].
  cbn [run foldl]. fold (run where_ schedule (step where_ i s)).
  specialize (IH (step where_ i s)). unfold moves in *. rewrite filter_cons.
  destruct (decide (i = k)) as [->|Hne].
  - pose proof (steps_left_moves k s). cbn [length]. lia.
  - rewrite steps_left_other in IH by done. lia.
Qed.

Lemma finished (k : invocation) (s : system) :
  steps_left k s = 0%nat → is_Some (result_of k s).
Proof.
  unfold steps_left, result_of. destruct (t_phase (get k s)); [discriminate..|eauto].
Qed.

Lemma now_step (i k : invocation) (s : system) :
  t_now (get k (step where_ i s)) = t_now (get k s)
  ∧ t_batch_size (get k (step where_ i s)) = t_batch_size (get k s).
Proof.
  destruct (decide (k = i)) as [->|Hk]; [|by rewrite phase_step_other].
  unfold step, commit.
  repeat case_match; rewrite ?get_with_phase, ?decide_True by done; by destruct i.
Qed.

Lemma now_run (schedule : list invocation) (k : invocation) (s : system) :
  t_now (get k (run where_ schedule s)) = t_now (get k s)
  ∧ t_batch_size (get k (run where_ schedule s)) = t_batch_size (get k s).
Proof.
  revert s. induction schedule as [|i schedule IH]; intros s; [done|].
  cbn [run foldl]. fold (run where_ schedule (step where_ i s)).
  destruct (IH (step where_ i s)) as [-> ->]. apply now_step.
Qed.

End Overlap.

Lemma where_clauses_ask_pending (cache : list Dequeue.webhook_cache_row) (now date : Z)
    (r : Queue.queue_row) :
  Dequeue.is_pending_not_cached cache now date r = true →
  Dequeue.is_pending_for date r = true.
Proof. unfold Dequeue.is_pending_not_cached. by intros [? _]%andb_true_iff. Qed.

Lemma is_pending_for_status (date : Z) (r : Queue.queue_row) :
  Dequeue.is_pending_for date r = true →
  Queue.queue_date r = date ∧ Queue.q_status r = Queue.pending.
Proof.
  unfold Dequeue.is_pending_for. intros [Hd Hs]%andb_true_iff.
  split; [by apply Z.eqb_eq|by apply bool_decide_eq_true in Hs].
Qed.

(** C2.  Two invocations of the dequeue for the same date, interleaved in
    any way, each with its own WHERE clause that asks at least for a pending
    row of the date (both the clause of migration 020 and that of migration
    021 do): once each has moved often enough both have returned; and
    whenever both have returned, no queue id is in both results, the two
    results together are no more than the rows that were pending for the
    date, each result is within its batch size and consists of rows that
    were pending for the date, carrying the invocation's own update, and the
    table differs from the initial one exactly by those updates, each made in
    the commit of the invocation that returns the row. *)
Theorem C2_overlapping_dequeues_partition
    (where_ : Dequeue.invocation → Queue.queue_row → bool)
    (queue : list Queue.queue_row) (date : Z) (size1 size2 : nat) (now1 now2 : Z)
    (schedule : list Dequeue.invocation) :
  NoDup (Queue.id <$> queue) →
  (∀ i r, where_ i r = true → Dequeue.is_pending_for date r = true) →
  let s := Dequeue.run where_ schedule (Dequeue.start queue size1 size2 now1 now2) in
  let pending_rows := filter (λ r, Dequeue.is_pending_for date r = true) queue in
  ((2 + length queue <= Dequeue.moves Dequeue.first schedule)%nat →
   (2 + length queue <= Dequeue.moves Dequeue.second schedule)%nat →
   is_Some (Dequeue.result_of Dequeue.first s)
   ∧ is_Some (Dequeue.result_of Dequeue.second s))
  ∧ ∀ batch1 batch2,
      Dequeue.result_of Dequeue.first s = Some batch1 →
      Dequeue.result_of Dequeue.second s = Some batch2 →
      NoDup (Dequeue.b_queue_id <$> (batch1 ++ batch2)%list)
      ∧ (∀ b1 b2, b1 ∈ batch1 → b2 ∈ batch2 →
                  Dequeue.b_queue_id b1 ≠ Dequeue.b_queue_id b2)
      ∧ (length batch1 + length batch2 <= length pending_rows)%nat
      ∧ (length batch1 <= size1)%nat
      ∧ (length batch2 <= size2)%nat
      ∧ (∀ b, b ∈ batch1 →
              ∃ r, r ∈ pending_rows ∧ b = Dequeue.returning (Dequeue.claim now1 r))
      ∧ (∀ b, b ∈ batch2 →
              ∃ r, r ∈ pending_rows ∧ b = Dequeue.returning (Dequeue.claim now2 r))
      ∧ Dequeue.table s
        = (λ r, if bool_decide (Queue.id r ∈ Dequeue.b_queue_id <$> batch1)
                then Dequeue.claim now1 r
                else if bool_decide (Queue.id r ∈ Dequeue.b_queue_id <$> batch2)
                     then Dequeue.claim now2 r
                     else r) <$> queue.
Proof.
  intros Hids Hwhere s pending_rows.
  assert (Hpend : ∀ i r, where_ i r = true → Queue.q_status r = Queue.pending)
    by (intros i r H; by apply (is_pending_for_status date), Hwhere with i).
  split.
  - intros H1 H2. split; apply finished.
    + pose proof (steps_left_run where_ schedule Dequeue.first
                    (Dequeue.start queue size1 size2 now1 now2)) as H.
      cbn in H. fold s in H. lia.
    + pose proof (steps_left_run where_ schedule Dequeue.second
                    (Dequeue.start queue size1 size2 now1 now2)) as H.
      cbn in H. fold s in H. lia.
  - intros batch1 batch2 Hb1 Hb2.
    pose proof (run_consistent where_ queue Hids Hpend schedule _
                  (start_consistent where_ queue size1 size2 now1 now2)) as Hc.
    fold s in Hc.
    assert (Hph1 : Dequeue.t_phase (Dequeue.get Dequeue.first s) = Dequeue.Returned batch1).
    { unfold Dequeue.result_of in Hb1.
      destruct (Dequeue.t_phase (Dequeue.get Dequeue.first s)); congruence. }
    assert (Hph2 : Dequeue.t_phase (Dequeue.get Dequeue.second s) = Dequeue.Returned batch2).
    { unfold Dequeue.result_of in Hb2.
      destruct (Dequeue.t_phase (Dequeue.get Dequeue.second s)); congruence. }
    assert (Ho1 : Dequeue.owned (Dequeue.get Dequeue.first s) = Dequeue.b_queue_id <$> batch1).
    { unfold Dequeue.owned, Dequeue.holding, Dequeue.returned. by rewrite Hph1. }
    assert (Ho2 : Dequeue.owned (Dequeue.get Dequeue.second s) = Dequeue.b_queue_id <$> batch2).
    { unfold Dequeue.owned, Dequeue.holding, Dequeue.returned. by rewrite Hph2. }
    assert (Hn1 : Dequeue.t_now (Dequeue.get Dequeue.first s) = now1)
      by exact (proj1 (now_run where_ schedule Dequeue.first _)).
    assert (Hs1 : Dequeue.t_batch_size (Dequeue.get Dequeue.first s) = size1)
      by exact (proj2 (now_run where_ schedule Dequeue.first _)).
    assert (Hn2 : Dequeue.t_now (Dequeue.get Dequeue.second s) = now2)
      by exact (proj1 (now_run where_ schedule Dequeue.second _)).
    assert (Hs2 : Dequeue.t_batch_size (Dequeue.get Dequeue.second s) = size2)
      by exact (proj2 (now_run where_ schedule Dequeue.second _)).
    pose proof (Dequeue.owned_apart _ _ _ Hc) as Hnd.
    change (Dequeue.tx_first s) with (Dequeue.get Dequeue.first s) in Hnd.
    change (Dequeue.tx_second s) with (Dequeue.get Dequeue.second s) in Hnd.
    rewrite Ho1, Ho2, <- fmap_app in Hnd.
    assert (Hrows : ∀ i batch now,
              Dequeue.t_phase (Dequeue.get i s) = Dequeue.Returned batch →
              Dequeue.t_now (Dequeue.get i s) = now →
              ∀ b, b ∈ batch →
                ∃ r, r ∈ pending_rows ∧ b = Dequeue.returning (Dequeue.claim now r)).
    { intros i batch now Hph Hnow b Hb.
      destruct (Dequeue.returned_rows _ _ _ Hc i batch Hph b Hb) as (r0 & Hr0 & ->).
      destruct (Dequeue.owned_selected _ _ _ Hc i (Queue.id r0)) as (r1 & Hr1 & Hid & Hsel).
      { unfold Dequeue.owned, Dequeue.holding, Dequeue.returned. rewrite Hph. cbn.
        apply list_elem_of_fmap. eexists. split; [|exact Hb]. reflexivity. }
      assert (r1 = r0) as -> by (by apply (same_id_same_row queue Hids)).
      exists r0. rewrite Hnow. split; [|done].
      apply list_elem_of_filter. split; [by apply Hwhere with i|done]. }
    split; [exact Hnd|]. split.
    { intros b1 b2 H1 H2 Heq. rewrite fmap_app in Hnd.
      apply NoDup_app in Hnd as (_ & Hdis & _).
      apply (Hdis (Dequeue.b_queue_id b1)); apply list_elem_of_fmap; eauto. }
    split.
    { rewrite <- length_app, <- (length_fmap Dequeue.b_queue_id),
        <- (length_fmap Queue.id pending_rows).
      apply submseteq_length, NoDup_submseteq; [exact Hnd|].
      intros x (b & -> & [Hb|Hb]%elem_of_app)%list_elem_of_fmap.
      - destruct (Hrows _ _ _ Hph1 Hn1 b Hb) as (r & Hr & ->).
        apply list_elem_of_fmap. exists r. split; [reflexivity|exact Hr].
      - destruct (Hrows _ _ _ Hph2 Hn2 b Hb) as (r & Hr & ->).
        apply list_elem_of_fmap. exists r. split; [reflexivity|exact Hr]. }
    split.
    { pose proof (Dequeue.within_limit _ _ _ Hc Dequeue.first) as H.
      rewrite Ho1, length_fmap, Hs1 in H. exact H. }
    split.
    { pose proof (Dequeue.within_limit _ _ _ Hc Dequeue.second) as H.
      rewrite Ho2, length_fmap, Hs2 in H. exact H. }
    split; [by apply (Hrows Dequeue.first)|]. split; [by apply (Hrows Dequeue.second)|].
    rewrite (Dequeue.table_is _ _ _ Hc). apply list_fmap_ext. intros _ r _.
    unfold Dequeue.committed.
    change (Dequeue.tx_first s) with (Dequeue.get Dequeue.first s).
    change (Dequeue.tx_second s) with (Dequeue.get Dequeue.second s).
    unfold Dequeue.returned. by rewrite Hph1, Hph2, Hn1, Hn2.
Qed.

Lemma C2_overlapping_dequeues_partition_witness :
  is_Some (Dequeue.result_of Dequeue.first (Scenario.overlapping Scenario.in_turn))
  ∧ is_Some (Dequeue.result_of Dequeue.second (Scenario.overlapping Scenario.in_turn)).
Proof.
  refine (proj1 (C2_overlapping_dequeues_partition
            (λ _, Dequeue.is_pending_for Scenario.monday) Scenario.eight_pending
            Scenario.monday 5 5 (Clock.at_day Scenario.monday 10 0)
            (Clock.at_day Scenario.monday 10 0) Scenario.in_turn _ _) _ _).
  - refine (bool_decide_unpack (NoDup (Queue.id <$> Scenario.eight_pending)) _).
    vm_compute. exact I.
  - intros _ r H. exact H.
  - vm_compute. lia.
  - vm_compute. lia.
Defined.

(** Two invocations asking for five rows each against eight pending rows:
    moving in turn, or one after the other, the first returns five rows and
    the second the remaining three; run alone, the stepwise model returns
    what [get_next_call_batch] returns. *)
Example eight_pending_two_batches_of_five :
  Scenario.returned_ids Dequeue.first (Scenario.overlapping Scenario.in_turn)
  = Some [1; 2; 3; 4; 5]
  ∧ Scenario.returned_ids Dequeue.second (Scenario.overlapping Scenario.in_turn)
    = Some [6; 7; 8]
  ∧ Dequeue.result_of Dequeue.first (Scenario.overlapping Scenario.one_after_the_other)
    = fst <$> Dequeue.get_next_call_batch Scenario.eight_pending 5 Scenario.monday
                (Clock.at_day Scenario.monday 10 0).
Proof. vm_compute. repeat split; reflexivity. Qed.

(** *** An invocation that runs alone *)

Section Alone.
Import Queue Dequeue.

Variable where_ : invocation → queue_row → bool.

Lemma run_app (l1 l2 : list invocation) (s : system) :
  run where_ (l1 ++ l2) s = run where_ l2 (run where_ l1 s).
Proof. unfold run. apply foldl_app. Qed.

Lemma run_returned (k : nat) (i : invocation) (s : system) (result : list batch_row) :
  t_phase (get i s) = Returned result → run where_ (replicate k i) s = s.
Proof.
  intros Hph. induction k as [|k IH]; [done|].
  change (run where_ (replicate (S k) i) s)
    with (run where_ (replicate k i) (step where_ i s)).
  assert (step where_ i s = s) as -> by (unfold step; by rewrite Hph).
  exact IH.
Qed.

(** The walk of an invocation that meets no lock of another one and whose
    candidates all still qualify: it locks the first rows up to its limit
    and commits. *)
Lemma walk_alone (i : invocation) (todo : list Z) :
  ∀ (got : list Z) (s : system) (k : nat),
    t_phase (get i s) = Locking todo got →
    (∀ rid j, locks s !! rid = Some j → j = i) →
    (∀ rid, rid ∈ todo → ∃ r, lookup_row (table s) rid = Some r ∧ where_ i r = true) →
    (length todo < k)%nat →
    let ids := (got ++ take (t_batch_size (get i s) - length got) todo)%list in
    let table' := claim_ids (t_now (get i s)) ids (table s) in
    table (run where_ (replicate k i) s) = table'
    ∧ result_of i (run where_ (replicate k i) s)
      = Some (returning <$> omap (lookup_row table') ids).
Proof.
  induction todo as [|rid todo IH]; intros got s k Hph Hlocks Hrows Hk.
  - destruct k as [|k]; [cbn in Hk; lia|].
    cbn zeta. rewrite take_nil, app_nil_r.
    change (replicate (S k) i) with ([i] ++ replicate k i)%list. rewrite run_app.
    assert (Hstep : run where_ [i] s = commit i got s).
    { change (run where_ [i] s) with (step where_ i s).
      unfold step. rewrite Hph. by destruct (_ <? _)%nat. }
    rewrite Hstep.
    assert (Hret : t_phase (get i (commit i got s))
                   = Returned (returning <$> omap (lookup_row
                        (claim_ids (t_now (get i s)) got (table s))) got)).
    { unfold commit. rewrite get_with_phase, decide_True by done. by destruct i. }
    rewrite (run_returned k i _ _ Hret). split.
    + unfold commit. by rewrite table_with_phase.
    + unfold result_of. by rewrite Hret.
  - destruct k as [|k]; [cbn in Hk; lia|].
    change (replicate (S k) i) with ([i] ++ replicate k i)%list. rewrite run_app.
    destruct (length got <? t_batch_size (get i s))%nat eqn:Hlen.
    + apply Nat.ltb_lt in Hlen.
      destruct (Hrows rid) as (r & Hr & Hsel); [apply list_elem_of_here|].
      assert (Hfree : held_by_other i rid s = false).
      { unfold held_by_other. destruct (locks s !! rid) as [j|] eqn:Hj; [|done].
        rewrite (Hlocks _ _ Hj). by apply bool_decide_eq_false_2; intros ?. }
      assert (Hstep : run where_ [i] s
                      = with_phase i (Locking todo (got ++ [rid])) (lock_row i rid s)).
      { change (run where_ [i] s) with (step where_ i s).
        unfold step. rewrite Hph, (proj2 (Nat.ltb_lt _ _) Hlen), Hfree, Hr, Hsel. done. }
      rewrite Hstep. set (s1 := with_phase i _ _).
      assert (Hget1 : get i s1 = {| t_batch_size := t_batch_size (get i s);
                                    t_now := t_now (get i s);
                                    t_phase := Locking todo (got ++ [rid]) |}).
      { unfold s1. rewrite get_with_phase, decide_True by done. by destruct i. }
      assert (Htab1 : table s1 = table s) by (unfold s1; by rewrite table_with_phase).
      destruct (IH (got ++ [rid])%list s1 k) as [Ht Hres].
      * by rewrite Hget1.
      * intros x j. unfold s1. rewrite locks_with_phase. cbn.
        destruct (decide (x = rid)) as [->|Hx];
          [rewrite lookup_insert_eq; congruence|rewrite lookup_insert_ne by done; apply Hlocks].
      * intros x Hx. rewrite Htab1. apply Hrows. by apply list_elem_of_further.
      * cbn in Hk. lia.
      * cbn zeta in Ht, Hres. rewrite Hget1, Htab1 in Ht, Hres. cbn [t_batch_size t_now] in *.
        rewrite length_app in Ht, Hres. cbn [length] in Ht, Hres.
        assert (Hids : ((got ++ [rid]) ++ take (t_batch_size (get i s) - (length got + 1)) todo
                        = got ++ take (t_batch_size (get i s) - length got) (rid :: todo))%list).
        { rewrite <- app_assoc. f_equal.
          replace (t_batch_size (get i s) - length got)%nat
            with (S (t_batch_size (get i s) - (length got + 1)))%nat by lia.
          reflexivity. }
        rewrite Hids in Ht, Hres. split; [exact Ht|exact Hres].
    + apply Nat.ltb_ge in Hlen.
      assert (Hstep : run where_ [i] s = commit i got s).
      { change (run where_ [i] s) with (step where_ i s).
        unfold step. by rewrite Hph, (proj2 (Nat.ltb_ge _ _) Hlen). }
      rewrite Hstep.
      assert (Hret : t_phase (get i (commit i got s))
                     = Returned (returning <$> omap (lookup_row
                          (claim_ids (t_now (get i s)) got (table s))) got)).
      { unfold commit. rewrite get_with_phase, decide_True by done. by destruct i. }
      rewrite (run_returned k i _ _ Hret). cbn zeta.
      replace (t_batch_size (get i s) - length got)%nat with 0%nat by lia.
      rewrite take_0, app_nil_r. split.
      * unfold commit. by rewrite table_with_phase.
      * unfold result_of. by rewrite Hret.
Qed.

Lemma lookup_row_claimed (queue : list queue_row) (now : Z) (ids : list Z) (r : queue_row) :
  NoDup (id <$> queue) → r ∈ queue → id r ∈ ids →
  lookup_row (claim_ids now ids queue) (id r) = Some (claim now r).
Proof.
  intros Hnd Hr Hin.
  assert (Hc : claim now r ∈ claim_ids now ids queue).
  { unfold claim_ids. apply list_elem_of_fmap. exists r.
    by rewrite bool_decide_eq_true_2. }
  destruct (lookup_row_is_Some _ _ Hc) as [x Hx].
  change (id (claim now r)) with (id r) in Hx. rewrite Hx. f_equal.
  apply lookup_row_Some in Hx as [Hxin Hxid].
  unfold claim_ids in Hxin. apply list_elem_of_fmap in Hxin as (r0 & -> & Hr0).
  assert (id r0 = id r) by (by destruct (bool_decide _)).
  assert (r0 = r) as -> by (by apply (same_id_same_row queue Hnd)).
  by rewrite bool_decide_eq_true_2.
Qed.

Lemma returning_claimed (queue batch : list queue_row) (now : Z) (ids : list Z) :
  NoDup (id <$> queue) →
  (∀ r, r ∈ batch → r ∈ queue ∧ id r ∈ ids) →
  omap (lookup_row (claim_ids now ids queue)) (id <$> batch) = claim now <$> batch.
Proof.
  intros Hnd. induction batch as [|r batch IH]; intros Hb; [done|].
  rewrite !fmap_cons.
  change (omap ?f (?x :: ?l)) with (match f x with Some y => y :: omap f l | None => omap f l end).
  destruct (Hb r) as [Hr Hin]; [apply list_elem_of_here|].
  rewrite (lookup_row_claimed _ _ _ _ Hnd Hr Hin). f_equal.
  apply IH. intros x Hx. apply Hb. by apply list_elem_of_further.
Qed.

(** Run alone, an invocation of the stepwise model returns what the
    statement returns and leaves the table the statement leaves. *)
Lemma alone_is_next_call_batch (queue : list queue_row) (size1 size2 : nat) (now1 now2 : Z)
    (k : nat) :
  NoDup (id <$> queue) →
  (2 + length queue <= k)%nat →
  let s := run where_ (replicate k first) (start queue size1 size2 now1 now2) in
  ∃ batch,
    result_of first s = Some batch
    ∧ next_call_batch (where_ first) queue (Z.of_nat size1) now1 = Some (batch, table s).
Proof.
  intros Hnd Hk s.
  destruct k as [|k]; [lia|].
  unfold s. change (replicate (S k) first) with ([first] ++ replicate k first)%list.
  rewrite run_app.
  set (cands := order_rows (filter (λ r, where_ first r = true) queue)).
  set (s1 := run where_ [first] (start queue size1 size2 now1 now2)).
  assert (Hph : t_phase (get first s1) = Locking (id <$> cands) []) by reflexivity.
  assert (Hcands : ∀ r, r ∈ cands → r ∈ queue ∧ where_ first r = true).
  { intros r Hr. unfold cands in Hr. rewrite order_rows_perm in Hr.
    apply list_elem_of_filter in Hr. tauto. }
  destruct (walk_alone first (id <$> cands) [] s1 k Hph) as [Ht Hres].
  - intros rid j. cbn. by rewrite lookup_empty.
  - intros rid (r & -> & Hr)%list_elem_of_fmap.
    destruct (Hcands r Hr) as [Hq Hw].
    destruct (lookup_row_is_Some _ _ Hq) as [x Hx]. exists x. split; [exact Hx|].
    apply lookup_row_Some in Hx as [Hxq Hxid].
    by rewrite (same_id_same_row queue Hnd x r Hxq Hq Hxid).
  - rewrite length_fmap. unfold cands. rewrite length_order_rows.
    pose proof (length_filter (λ r, where_ first r = true) queue). lia.
  - cbn zeta in Ht, Hres. cbn [app length] in Ht, Hres.
    change (t_batch_size (get first s1)) with size1 in Ht, Hres.
    change (t_now (get first s1)) with now1 in Ht, Hres.
    change (table s1) with queue in Ht, Hres.
    rewrite Nat.sub_0_r, <- fmap_take in Ht, Hres.
    rewrite Ht, Hres. eexists. split; [reflexivity|].
    unfold next_call_batch. rewrite (proj2 (Z.ltb_ge _ _)) by lia.
    rewrite Nat2Z.id. fold cands. f_equal. f_equal.
    rewrite returning_claimed; [by rewrite <- list_fmap_compose|exact Hnd|].
    intros r Hr. apply elem_of_take in Hr as (j & Hr & Hj).
    apply list_elem_of_lookup_2 in Hr as Hin. split; [by apply Hcands|].
    apply list_elem_of_fmap. exists r. split; [done|].
    apply (list_elem_of_lookup_2 _ j), lookup_take_Some. by split.
Qed.

End Alone.

(* ===================================================================== *)
(** * Further properties of the code *)
(* ===================================================================== *)

(** ** Eligibility and ledger *)

Lemma record_attempt_other (db : ledger) (p q : string) (st r : option string)
    (t now d : Z) :
  (p, Clock.to_date t) ≠ (q, d) →
  call_attempts (Ledger.record_call_attempt db p st r t now) !! (q, d)
  = call_attempts db !! (q, d).
Proof. intros H. cbn. by rewrite lookup_insert_ne. Qed.

Lemma max_of_perm (l1 l2 : list Z) : l1 ≡ₚ l2 → Eligibility.max_of l1 = Eligibility.max_of l2.
Proof.
  unfold Eligibility.max_of.
  induction 1 as [|x l1 l2 _ IH|x y l|l1 l2 l3 _ IH1 _ IH2]; cbn [foldr].
  - done.
  - by rewrite IH.
  - destruct (foldr _ None l) as [m|]; f_equal; lia.
  - congruence.
Qed.

Lemma length_filter_fmap {A B} (f : A → B) (P : B → Prop) `{∀ x, Decision (P x)}
    (l : list A) :
  f <$> filter (λ x, P (f x)) l = filter P (f <$> l).
Proof.
  induction l as [|x l IH]; [done|].
  rewrite fmap_cons, !filter_cons. destruct (decide (P (f x))); cbn; by rewrite IH.
Qed.

(** The decision of migration 009 reads the attempt rows of the phone only
    through their [created_at]. *)
Lemma should_call_009_ext (db1 db2 : ledger) (q : string) (tc now : Z) :
  settings db1 = settings db2 →
  max_daily_calls db1 = max_daily_calls db2 →
  vapi_calls db1 = vapi_calls db2 →
  ca_created_at <$> Eligibility.attempts_of db1 q
  ≡ₚ ca_created_at <$> Eligibility.attempts_of db2 q →
  Eligibility.should_call_phone_number_009 db1 q tc now
  = Eligibility.should_call_phone_number_009 db2 q tc now.
Proof.
  intros Hs Hm Hv Hp. unfold Eligibility.should_call_phone_number_009, Eligibility.calls_of.
  rewrite Hs, Hm, Hv.
  assert (Hlen : length (Eligibility.attempts_of db1 q)
                 = length (Eligibility.attempts_of db2 q)).
  { apply Permutation_length in Hp. by rewrite !length_fmap in Hp. }
  assert (Htoday : ca_created_at
                     <$> filter (λ r, Clock.date_trunc_day tc <= ca_created_at r)
                           (Eligibility.attempts_of db1 q)
                   ≡ₚ ca_created_at
                        <$> filter (λ r, Clock.date_trunc_day tc <= ca_created_at r)
                              (Eligibility.attempts_of db2 q)).
  { rewrite !(length_filter_fmap ca_created_at (λ c, Clock.date_trunc_day tc <= c)).
    by rewrite Hp. }
  assert (Hlen' : length (filter (λ r, Clock.date_trunc_day tc <= ca_created_at r)
                            (Eligibility.attempts_of db1 q))
                  = length (filter (λ r, Clock.date_trunc_day tc <= ca_created_at r)
                              (Eligibility.attempts_of db2 q))).
  { apply Permutation_length in Htoday. by rewrite !length_fmap in Htoday. }
  rewrite Hlen, Hlen', (max_of_perm _ _ Htoday). reflexivity.
Qed.

Lemma attempts_of_insert_same_created (db : ledger) (k : string * Z) (old new : call_attempt)
    (m : gmap (string * Z) call_attempt) (q : string) :
  m !! k = Some old →
  ca_created_at new = ca_created_at old →
  ca_created_at <$> (map_to_list (<[k := new]> m) ≫= λ kr,
                       if String.eqb (fst (fst kr)) q then [snd kr] else [])
  ≡ₚ ca_created_at <$> (map_to_list m ≫= λ kr,
                          if String.eqb (fst (fst kr)) q then [snd kr] else []).
Proof.
  intros Hk Hc.
  rewrite <- (insert_delete_eq m k new).
  rewrite map_to_list_insert by apply lookup_delete_eq.
  rewrite <- (map_to_list_delete m k old Hk).
  cbn [mbind list_bind]. rewrite !fmap_app. f_equiv.
  cbn. destruct (String.eqb (fst k) q); cbn; by rewrite ?Hc.
Qed.

Lemma attempts_of_insert_other (k : string * Z) (new : call_attempt)
    (m : gmap (string * Z) call_attempt) (q : string) :
  fst k ≠ q →
  (map_to_list (<[k := new]> m) ≫= λ kr,
     if String.eqb (fst (fst kr)) q then [snd kr] else [])
  ≡ₚ (map_to_list m ≫= λ kr,
        if String.eqb (fst (fst kr)) q then [snd kr] else []).
Proof.
  intros Hne.
  assert (Hq : String.eqb (fst k) q = false) by (by apply String.eqb_neq).
  destruct (m !! k) as [old|] eqn:Hk.
  - rewrite <- (insert_delete_eq m k new).
    rewrite map_to_list_insert by apply lookup_delete_eq.
    rewrite <- (map_to_list_delete m k old Hk).
    cbn [mbind list_bind]. cbn. by rewrite Hq.
  - rewrite map_to_list_insert by exact Hk.
    cbn [mbind list_bind]. cbn. by rewrite Hq.
Qed.

(** X1.  Recording an attempt for one phone number leaves every other
    number alone: its attempt rows of every day and its history row are
    untouched, and the eligibility decision of the other number, as
    migration 009 defines it, is the same before and after, for every time
    asked about and every clock. *)
Theorem X1_record_leaves_other_numbers
    (db : ledger) (p q : string) (st r : option string) (t now : Z) :
  p ≠ q →
  let db' := Ledger.record_call_attempt db p st r t now in
  (∀ d, call_attempts db' !! (q, d) = call_attempts db !! (q, d))
  ∧ phone_number_history db' !! q = phone_number_history db !! q
  ∧ ∀ tc clock, Eligibility.should_call_phone_number_009 db' q tc clock
                = Eligibility.should_call_phone_number_009 db q tc clock.
Proof.
  intros Hne db'.
  split; [intros d; apply record_attempt_other; congruence|].
  split; [by apply record_history_other|].
  intros tc clock. apply should_call_009_ext; try reflexivity.
  unfold Eligibility.attempts_of. cbn [call_attempts Ledger.record_call_attempt db'].
  unfold db'. cbn [call_attempts Ledger.record_call_attempt].
  by rewrite attempts_of_insert_other.
Qed.

Lemma X1_record_leaves_other_numbers_witness :
  Eligibility.should_call_phone_number_009 Scenario.after_customer_ended "+447700900999"
    (Clock.at_day Scenario.monday 11 0) (Clock.at_day Scenario.monday 11 0)
  = Eligibility.should_call_phone_number_009 Scenario.empty_ledger "+447700900999"
      (Clock.at_day Scenario.monday 11 0) (Clock.at_day Scenario.monday 11 0).
Proof.
  refine (proj2 (proj2 (X1_record_leaves_other_numbers Scenario.empty_ledger Scenario.phone
            "+447700900999" (Some "ended") (Some "customer-ended-call")
            (Clock.at_day Scenario.monday 10 0) (Clock.at_day Scenario.monday 10 1) _)) _ _).
  vm_compute. congruence.
Defined.

(** X4.  The cooldown of migration 009 does not outlast the day: the
    function looks only at the attempt rows created since midnight of the
    day asked about.  When every attempt row of the phone was created
    before that midnight, it counts no attempt for the day, finds no last
    attempt, never answers "Cooldown active" and returns no cooldown
    timestamp, whatever the call rows and the cooldowns stored with the
    earlier attempts say: the number is ready to call as soon as the daily
    maximum is positive, the total cap is not reached and the clock is
    inside the window. *)
Theorem X4_cooldown_of_other_days_not_seen (db : ledger) (p : string) (t now : Z) :
  Forall (λ r, ca_created_at r < Clock.date_trunc_day t) (Eligibility.attempts_of db p) →
  let d := Eligibility.should_call_phone_number_009 db p t now in
  Eligibility.attempts_today9 d = 0
  ∧ Eligibility.last_attempt d = None
  ∧ Eligibility.cooldown_until9 d = None
  ∧ (∀ hours ended_reason,
       Eligibility.reason9 d ≠ Eligibility.Cooldown_active hours ended_reason)
  ∧ Eligibility.should_call d
    = (0 <? Sql.coalesce (max_daily_calls db) 100)
      && negb (Checks.total_cap_reached_009 db p)
      && negb (Checks.outside_window db now).
Proof.
  intros Hold d.
  assert (Hnone : filter (λ r, Clock.date_trunc_day t <= ca_created_at r)
                    (Eligibility.attempts_of db p) = []).
  { induction Hold as [|r l Hr _ IH]; [done|].
    rewrite filter_cons_False by lia. exact IH. }
  unfold d, Eligibility.should_call_phone_number_009.
  rewrite Hnone, window_check. cbn [length fmap list_fmap Eligibility.max_of foldr].
  change (Z.of_nat 0) with 0.
  unfold Checks.total_cap_reached_009, Checks.outside_window.
  destruct (Z.leb_spec (Sql.coalesce (max_daily_calls db) 100) 0) as [Hd|Hd].
  - rewrite (proj2 (Z.ltb_ge _ _)) by lia. cbn.
    repeat split; first [reflexivity | intros; discriminate].
  - rewrite (proj2 (Z.ltb_lt _ _)) by lia.
    destruct (_ <=? Z.of_nat (length (Eligibility.attempts_of db p)));
      [cbn; repeat split; first [reflexivity | intros; discriminate]|].
    destruct (_ || _); cbn; repeat split; first [reflexivity | intros; discriminate].
Qed.

(** The day after a call the customer ended, six days before the stored
    cooldown runs out, the number is ready to call. *)
Lemma X4_cooldown_of_other_days_not_seen_witness :
  let t := Clock.at_day Scenario.tuesday 10 0 in
  Checks.cooldown_on Scenario.after_customer_ended Scenario.phone Scenario.monday
  = Some (Clock.at_day Scenario.monday 10 0 + 168 * Clock.usec_per_hour)
  ∧ Eligibility.cooldown_until9
      (Eligibility.should_call_phone_number_009 Scenario.after_customer_ended
         Scenario.phone t t) = None
  ∧ Eligibility.should_call
      (Eligibility.should_call_phone_number_009 Scenario.after_customer_ended
         Scenario.phone t t) = true.
Proof.
  assert (H : Forall (λ r, ca_created_at r < Clock.date_trunc_day
                                               (Clock.at_day Scenario.tuesday 10 0))
                (Eligibility.attempts_of Scenario.after_customer_ended Scenario.phone)).
  { refine (bool_decide_unpack _ _). vm_compute. exact I. }
  destruct (X4_cooldown_of_other_days_not_seen Scenario.after_customer_ended Scenario.phone
              (Clock.at_day Scenario.tuesday 10 0) (Clock.at_day Scenario.tuesday 10 0) H)
    as (_ & _ & Hc & _ & Hs).
  split; [reflexivity|]. split; [exact Hc|]. rewrite Hs. reflexivity.
Defined.

Lemma attempts_on_record (db : ledger) (p : string) (st r : option string) (t now : Z) :
  Checks.counters_not_null db →
  Checks.attempts_on (Ledger.record_call_attempt db p st r t now) p (Clock.to_date t)
  = Checks.attempts_on db p (Clock.to_date t) + 1.
Proof.
  intros [_ Ha]. unfold Checks.attempts_on. rewrite record_attempt_row.
  destruct (call_attempts db !! (p, Clock.to_date t)) as [a|] eqn:E; cbn; [|reflexivity].
  destruct (Ha _ _ E) as [n ->]. reflexivity.
Qed.

Lemma attempts_on_record_other (db : ledger) (p q : string) (st r : option string)
    (t now d : Z) :
  (p, Clock.to_date t) ≠ (q, d) →
  Checks.attempts_on (Ledger.record_call_attempt db p st r t now) q d
  = Checks.attempts_on db q d.
Proof. intros H. unfold Checks.attempts_on. by rewrite record_attempt_other. Qed.

Lemma total_of_record_other (db : ledger) (p q : string) (st r : option string) (t now : Z) :
  p ≠ q →
  Checks.total_of (Ledger.record_call_attempt db p st r t now) q = Checks.total_of db q.
Proof. intros H. unfold Checks.total_of. by rewrite record_history_other. Qed.

Lemma ledger_sound_record (db : ledger) (p : string) (st r : option string) (t now : Z) :
  History.sound db → History.sound (Ledger.record_call_attempt db p st r t now).
Proof.
  intros [Hnn Hin]. split; [by apply counters_not_null_record|].
  intros q d. specialize (Hin q d).
  destruct (decide (p = q)) as [<-|Hne].
  - rewrite total_of_record by done.
    destruct (decide (Clock.to_date t = d)) as [<-|Hd].
    + rewrite attempts_on_record by done. lia.
    + rewrite attempts_on_record_other by congruence. lia.
  - rewrite total_of_record_other, attempts_on_record_other by congruence. done.
Qed.

Lemma ledger_sound_trigger (db : ledger) (c : vapi_call) (now : Z) :
  History.sound db → History.sound (Ledger.trigger_record_call_attempt db c now).
Proof.
  unfold Ledger.trigger_record_call_attempt.
  destruct (vc_phone_number c), (vc_status c); try done. apply ledger_sound_record.
Qed.

Lemma ledger_sound_triggers (fired : list vapi_call) (db : ledger) (now : Z) :
  History.sound db →
  History.sound (foldl (λ d c, Ledger.trigger_record_call_attempt d c now) db fired).
Proof.
  revert db. induction fired as [|c fired IH]; intros db H; cbn; [done|].
  by apply IH, ledger_sound_trigger.
Qed.

Lemma ledger_sound_update (db : ledger) (id : string) (set : vapi_call → vapi_call)
    (now : Z) :
  History.sound db → History.sound (Ledger.update_vapi_calls db id set now).
Proof. intros H. unfold Ledger.update_vapi_calls. apply ledger_sound_triggers. exact H. Qed.

Lemma ledger_sound_apply (db : ledger) (w : History.write) (now : Z) :
  History.sound db → History.sound (History.apply db w now).
Proof.
  intros H. destruct w as [p st r t|phone|new merge|id set]; cbn.
  - by apply ledger_sound_record.
  - by apply ledger_sound_record.
  - unfold Ledger.upsert_vapi_call. case_match.
    + by apply ledger_sound_update.
    + apply ledger_sound_trigger. exact H.
  - by apply ledger_sound_update.
Qed.

(** X5.  Whatever sequence of writes the ledger has seen since its tables
    were created (attempts recorded directly or at dispatch, call rows
    inserted or updated by the provider sync or the analysis, each firing
    the row trigger), no stored counter is NULL and, for every phone number
    and every day, the attempts counted for the day are non-negative and
    never exceed the lifetime attempts of the number. *)
Theorem X5_daily_attempts_within_lifetime
    (s : call_frequency_settings) (max_daily : option Z) (ws : list (History.write * Z)) :
  let db := History.replay (History.fresh s max_daily) ws in
  Checks.counters_not_null db
  ∧ ∀ (p : string) (d : Z), 0 <= Checks.attempts_on db p d <= Checks.total_of db p.
Proof.
  intros db. change (History.sound db). unfold db, History.replay.
  assert (H0 : History.sound (History.fresh s max_daily)).
  { split.
    - split; intros k x H; cbn in H; rewrite lookup_empty in H; discriminate.
    - intros p d. unfold Checks.attempts_on, Checks.total_of. cbn.
      rewrite !lookup_empty. lia. }
  revert H0. generalize (History.fresh s max_daily).
  induction ws as [|[w now] ws IH]; intros db0 H0; cbn; [exact H0|].
  apply IH, ledger_sound_apply, H0.
Qed.

(** ** ORDER BY *)

Section Insertion_sort.
Context {A : Type}.
Variable before : A → A → bool.

Lemma insert_by_perm (x : A) (l : list A) : Ordering.insert_by before x l ≡ₚ x :: l.
Proof.
  induction l as [|y l IH]; cbn; [done|].
  destruct (before x y); [done|]. rewrite IH. apply Permutation_swap.
Qed.

Lemma sort_by_perm (l : list A) : Ordering.sort_by before l ≡ₚ l.
Proof.
  induction l as [|x l IH]; cbn; [done|].
  rewrite insert_by_perm. by rewrite IH.
Qed.

Lemma sort_by_elem_of (l : list A) (x : A) : x ∈ Ordering.sort_by before l ↔ x ∈ l.
Proof. by rewrite sort_by_perm. Qed.

Hypothesis before_total : ∀ a b, before a b = false → before b a = true.
Hypothesis before_trans : ∀ a b c, before a b = true → before b c = true → before a c = true.

Lemma insert_by_sorted (x : A) (l : list A) :
  StronglySorted (λ a b, before a b = true) l →
  StronglySorted (λ a b, before a b = true) (Ordering.insert_by before x l).
Proof.
  induction 1 as [|y l Hl IH Hy]; cbn.
  - repeat constructor.
  - destruct (before x y) eqn:Hxy.
    + constructor; [by constructor|].
      constructor; [exact Hxy|].
      eapply Forall_impl; [exact Hy|]. intros z Hz. by eapply before_trans.
    + constructor; [exact IH|].
      rewrite insert_by_perm. constructor; [by apply before_total|exact Hy].
Qed.

Lemma sort_by_sorted (l : list A) :
  StronglySorted (λ a b, before a b = true) (Ordering.sort_by before l).
Proof.
  induction l as [|x l IH]; cbn; [constructor|]. by apply insert_by_sorted.
Qed.

(** What LIMIT cuts off sorts after everything it keeps. *)
Lemma sort_by_take_first (n : nat) (l : list A) (x y : A) :
  x ∈ take n (Ordering.sort_by before l) →
  y ∈ l → y ∉ take n (Ordering.sort_by before l) →
  before x y = true.
Proof.
  intros Hx Hy Hny.
  pose proof (sort_by_sorted l) as Hs.
  rewrite <- (take_drop n (Ordering.sort_by before l)) in Hs.
  apply (StronglySorted_app_1_elem_of _ _ _ x y Hs Hx).
  apply sort_by_elem_of in Hy.
  rewrite <- (take_drop n (Ordering.sort_by before l)) in Hy.
  apply elem_of_app in Hy as [Hy|Hy]; [contradiction|exact Hy].
Qed.

(** The rows LIMIT keeps come out in order. *)
Lemma sort_by_take_sorted (n : nat) (l : list A) (i j : nat) (x y : A) :
  take n (Ordering.sort_by before l) !! i = Some x →
  take n (Ordering.sort_by before l) !! j = Some y →
  (i < j)%nat → before x y = true.
Proof.
  intros Hi Hj Hlt.
  pose proof (sort_by_sorted l) as Hs.
  rewrite <- (take_drop n (Ordering.sort_by before l)) in Hs.
  apply StronglySorted_app_1_l in Hs.
  revert i j Hi Hj Hlt. induction Hs as [|a k Hk IH Ha]; intros i j Hi Hj Hlt.
  - by rewrite lookup_nil in Hi.
  - destruct i as [|i], j as [|j]; try lia; cbn in Hi, Hj.
    + injection Hi as <-. rewrite Forall_forall in Ha. apply Ha.
      by eapply list_elem_of_lookup_2.
    + apply (IH i j Hi Hj). lia.
Qed.

End Insertion_sort.

(** ** The numbers ready to call *)

Lemma not_dnc_row (h : phone_history) :
  Sql.is_true (Sql.cmp3 Bool.eqb (pnh_permanent_dnc h) (Some false)) = true
  ↔ pnh_permanent_dnc h = Some false.
Proof. destruct (pnh_permanent_dnc h) as [[|]|]; cbn; split; congruence. Qed.

Lemma callable_row_raises (db : ledger) (t now : Z) (phone : string) (h : phone_history) :
  ∃ e, Ready.callable_row db t now phone h = Sql.Raises e.
Proof.
  unfold Ready.callable_row.
  destruct (should_call_004_raises db phone t now) as [e ->]. by exists e.
Qed.

Lemma lateral_rows_cases (db : ledger) (t now : Z) (rows : list (string * phone_history)) :
  (Exists (λ kh, pnh_permanent_dnc (snd kh) = Some false) rows
   ∧ ∃ e, Ready.lateral_rows db t now rows = Sql.Raises e)
  ∨ (Forall (λ kh, pnh_permanent_dnc (snd kh) ≠ Some false) rows
     ∧ Ready.lateral_rows db t now rows = Sql.Returns []).
Proof.
  induction rows as [|[p h] rows IH]; [right; by split|].
  cbn [Ready.lateral_rows fst snd].
  destruct (Sql.is_true _) eqn:E.
  - apply not_dnc_row in E. left. split; [by left|].
    destruct (callable_row_raises db t now p h) as [e ->]. by exists e.
  - assert (Hn : pnh_permanent_dnc h ≠ Some false).
    { intros H. apply not_dnc_row in H. congruence. }
    destruct IH as [[Hex Hr]|[Hall Hr]].
    + left. split; [by right|exact Hr].
    + right. split; [by constructor|exact Hr].
Qed.

Lemma callable_numbers_cases (db : ledger) (t now : Z) :
  ((∃ p h, phone_number_history db !! p = Some h ∧ pnh_permanent_dnc h = Some false)
   ∧ ∃ e, Ready.callable_numbers db t now = Sql.Raises e)
  ∨ ((∀ p h, phone_number_history db !! p = Some h → pnh_permanent_dnc h ≠ Some false)
     ∧ Ready.callable_numbers db t now = Sql.Returns []).
Proof.
  unfold Ready.callable_numbers.
  destruct (lateral_rows_cases db t now (map_to_list (phone_number_history db)))
    as [[Hex Hr]|[Hall Hr]].
  - left. split; [|exact Hr].
    apply Exists_exists in Hex as ([p h] & Hin & Hd).
    exists p, h. split; [by apply elem_of_map_to_list|exact Hd].
  - right. split; [|exact Hr].
    intros p h Hh. rewrite Forall_forall in Hall.
    apply (Hall (p, h)). by apply elem_of_map_to_list.
Qed.



(** X9.  The first attempt ever recorded for a phone number creates its
    history row with one attempt and nothing else: whatever the outcome of
    that call, [last_pickup_call] and [last_successful_call] stay NULL and
    the number is not marked do-not-call, so [get_numbers_ready_to_call]
    still gives it the top priority 100 at any later time. *)
Theorem X9_first_attempt_keeps_top_priority
    (db : ledger) (p : string) (st r : option string) (t now : Z) :
  phone_number_history db !! p = None →
  ∃ h, phone_number_history (Ledger.record_call_attempt db p st r t now) !! p = Some h
       ∧ pnh_total_attempts h = Some 1
       ∧ pnh_last_pickup_call h = None
       ∧ pnh_last_successful_call h = None
       ∧ pnh_permanent_dnc h = Some false
       ∧ ∀ tc, Ready.priority_score h tc = 100.
Proof.
  intros Hnone. eexists. split; [apply record_history_row|].
  rewrite Hnone. cbn. repeat split; reflexivity.
Qed.

Lemma X9_first_attempt_keeps_top_priority_witness :
  ∃ h, phone_number_history Scenario.after_customer_ended !! Scenario.phone = Some h
       ∧ pnh_total_attempts h = Some 1
       ∧ pnh_last_pickup_call h = None
       ∧ pnh_last_successful_call h = None
       ∧ pnh_permanent_dnc h = Some false
       ∧ ∀ tc, Ready.priority_score h tc = 100.
Proof.
  refine (X9_first_attempt_keeps_top_priority Scenario.empty_ledger Scenario.phone
            (Some "ended") (Some "customer-ended-call") (Clock.at_day Scenario.monday 10 0)
            (Clock.at_day Scenario.monday 10 1) _).
  vm_compute. reflexivity.
Defined.

(** ** Schedule predicates *)

Lemma day_type_matches_dayTypeMatch (now : Schedule.wall_clock) (s : Schedule.cron_schedule) :
  Schedule.day_type_matches now s = Schedule.dayTypeMatch now s.
Proof.
  unfold Schedule.day_type_matches, Schedule.dayTypeMatch.
  destruct (String.eqb (Schedule.day_type s) "weekday") eqn:E1.
  { apply String.eqb_eq in E1. rewrite E1. cbn. destruct (_ && _); reflexivity. }
  destruct (String.eqb (Schedule.day_type s) "weekend") eqn:E2.
  { apply String.eqb_eq in E2. rewrite E2. cbn. destruct (_ || _); reflexivity. }
  destruct (String.eqb (Schedule.day_type s) "saturday") eqn:E3.
  { apply String.eqb_eq in E3. rewrite E3. cbn. destruct (_ =? 6); reflexivity. }
  destruct (String.eqb (Schedule.day_type s) "sunday"); cbn [andb orb]; reflexivity.
Qed.

(** What a row that passes the WHERE clause of the schedule query satisfies. *)
Lemma row_matches_true (now : Schedule.wall_clock) (s : Schedule.cron_schedule) :
  Schedule.row_matches now s = Some true ↔
  Schedule.is_active s = true
  ∧ Schedule.start_hour s <= Schedule.hour now <= Schedule.end_hour s
  ∧ Schedule.minute_in_bounds now s = true
  ∧ Schedule.interval_minutes s ≠ 0
  ∧ Z.rem (Schedule.totalMinutesFromStart now s) (Schedule.interval_minutes s) = 0
  ∧ Schedule.day_type_matches now s = true.
Proof.
  unfold Schedule.row_matches, Schedule.totalMinutesFromStart.
  destruct (Schedule.is_active s); cbn; [|split; [discriminate|intros [? _]; discriminate]].
  destruct (Z.leb_spec (Schedule.start_hour s) (Schedule.hour now)); cbn;
    [|split; [discriminate|lia]].
  destruct (Z.leb_spec (Schedule.hour now) (Schedule.end_hour s)); cbn;
    [|split; [discriminate|lia]].
  destruct (Schedule.minute_in_bounds now s); cbn;
    [|split; [discriminate|intros (_ & _ & ? & _); discriminate]].
  destruct (Z.eqb_spec (Schedule.interval_minutes s) 0); cbn;
    [split; [discriminate|intros (_ & _ & _ & ? & _); contradiction]|].
  destruct (Z.eqb_spec (Z.rem ((Schedule.hour now - Schedule.start_hour s) * 60
                               + (Schedule.minute now - Schedule.start_minute s))
                          (Schedule.interval_minutes s)) 0) as [Hr|Hr]; cbn.
  - split; [intros [= ->]; repeat split; auto; lia|intros (_ & _ & _ & _ & _ & ->); done].
  - split; [discriminate|intros (_ & _ & _ & _ & ? & _); contradiction].
Qed.

Lemma matchingSchedule_finds (now : Schedule.wall_clock) (l : list Schedule.cron_schedule)
    (s : Schedule.cron_schedule) :
  s ∈ l →
  Schedule.dayTypeMatch now s && Schedule.inTimeWindow now s
  && (0 <=? Schedule.totalMinutesFromStart now s)
  && Schedule.js_rem_is_zero (Schedule.totalMinutesFromStart now s)
       (Schedule.interval_minutes s) = true →
  is_Some (Schedule.matchingSchedule now l).
Proof.
  intros Hin Hs. induction l as [|x l IH]; [by apply elem_of_nil in Hin|].
  cbn. apply elem_of_cons in Hin as [<-|Hin].
  - rewrite Hs. eauto.
  - case_match; [eauto|by apply IH].
Qed.

(** X10.  The schedule query of [should_call_now] in migration 010 and the
    schedule loop of the dispatch edge function: whenever the query (its
    WHERE clause over the rows of [cron_schedules], ordered, first row)
    yields a row, the loop also finds a matching schedule among the active
    rows, provided the clock minute is not negative and no start minute
    exceeds 60: the loop asks for the same day type, hour range and
    interval and, unlike the query, never looks at the end minute. *)
Theorem X10_schedule_query_row_passes_dispatch_loop
    (cron_schedules : list Schedule.cron_schedule) (now : Schedule.wall_clock)
    (row : Schedule.cron_schedule) :
  0 <= Schedule.minute now →
  (∀ s, s ∈ cron_schedules → Schedule.start_minute s <= 60) →
  Schedule.matching_schedule_query cron_schedules now = Some (Some row) →
  is_Some (Schedule.matchingSchedule now (Schedule.active_schedules cron_schedules)).
Proof.
  intros Hmin Hstart Hquery.
  unfold Schedule.matching_schedule_query in Hquery.
  destruct (Schedule.matching_rows now cron_schedules) as [m|] eqn:Hm; [|discriminate].
  injection Hquery as Hs. rename row into s.
  apply first_in_order_least in Hs as [Hin _].
  apply (matching_rows_spec _ _ _ Hm) in Hin as [Hin Hrow].
  apply row_matches_true in Hrow as (Hact & Hhour & Hbounds & Hnz & Hrem & Hday).
  apply (matchingSchedule_finds now _ s).
  { apply list_elem_of_filter. auto. }
  rewrite <- day_type_matches_dayTypeMatch, Hday.
  unfold Schedule.inTimeWindow, Schedule.js_rem_is_zero.
  rewrite Hrem. destruct (Z.eqb_spec (Schedule.interval_minutes s) 0); [contradiction|].
  cbn. rewrite !andb_true_r, !andb_true_iff, !Z.leb_le.
  split; [lia|].
  specialize (Hstart s Hin).
  unfold Schedule.totalMinutesFromStart.
  unfold Schedule.minute_in_bounds in Hbounds.
  destruct (Z.eqb_spec (Schedule.start_hour s) (Schedule.end_hour s)); [lia|].
  destruct (Z.eqb_spec (Schedule.hour now) (Schedule.start_hour s)); lia.
Qed.

Lemma X10_schedule_query_row_passes_dispatch_loop_witness :
  Schedule.matching_schedule_query [Scenario.weekend_window; Scenario.saturday_window]
    (Scenario.saturday_at 10 10) = Some (Some Scenario.saturday_window)
  ∧ is_Some (Schedule.matchingSchedule (Scenario.saturday_at 10 10)
               (Schedule.active_schedules
                  [Scenario.weekend_window; Scenario.saturday_window])).
Proof.
  split; [reflexivity|].
  refine (X10_schedule_query_row_passes_dispatch_loop
            [Scenario.weekend_window; Scenario.saturday_window] (Scenario.saturday_at 10 10)
            Scenario.saturday_window _ _ _);
    try (vm_compute; congruence).
  intros s Hs. repeat (apply elem_of_cons in Hs as [->|Hs]; [vm_compute; congruence|]).
  by apply elem_of_nil in Hs.
Defined.

(** ** The cron entry point *)

(** X12.  Whenever the POST handler of the cron entry point decides to
    trigger calls, the status the GET handler reports for the same moment
    is one of the ACTIVE windows, never "INACTIVE - Outside calling
    windows". *)
Theorem X12_cron_trigger_within_active_status (now : Schedule.wall_clock) :
  is_Some (Cron.scheduleReason now) →
  Cron.getCurrentStatus now ≠ "INACTIVE - Outside calling windows".
Proof.
  unfold Cron.scheduleReason, Cron.getCurrentStatus. cbn zeta.
  destruct (Cron.isWeekday (Schedule.day_of_week now)).
  - repeat match goal with
           | |- is_Some (if ?c && _ then _ else _) → _ =>
               destruct c; cbn [andb]; [intros _; discriminate|]
           end.
    intros [? H]; discriminate.
  - destruct (Cron.isWeekend (Schedule.day_of_week now)); [|intros [? H]; discriminate].
    repeat match goal with
           | |- is_Some (if (Schedule.hour now =? ?h) && _ then _ else _) → _ =>
               destruct (Schedule.hour now =? h); cbn [andb orb];
               [intros _; discriminate|]
           end.
    intros [? H]; discriminate.
Qed.

Lemma X12_cron_trigger_within_active_status_witness :
  Cron.getCurrentStatus {| Schedule.day_of_week := 1; Schedule.hour := 8; Schedule.minute := 20 |}
  ≠ "INACTIVE - Outside calling windows".
Proof.
  refine (X12_cron_trigger_within_active_status
            {| Schedule.day_of_week := 1; Schedule.hour := 8; Schedule.minute := 20 |} _).
  vm_compute. eauto.
Defined.

Lemma minutes_of_week_elem (now : Schedule.wall_clock) :
  0 <= Schedule.day_of_week now <= 6 →
  0 <= Schedule.hour now <= 23 →
  0 <= Schedule.minute now <= 59 →
  now ∈ Cron.minutes_of_week.
Proof.
  intros Hd Hh Hm. unfold Cron.minutes_of_week.
  apply list_elem_of_bind. exists (Schedule.day_of_week now).
  split; [|apply elem_of_seqZ; lia].
  apply list_elem_of_bind. exists (Schedule.hour now).
  split; [|apply elem_of_seqZ; lia].
  apply list_elem_of_bind. exists (Schedule.minute now).
  split; [|apply elem_of_seqZ; lia].
  destruct now. cbn. apply list_elem_of_here.
Qed.

Lemma every_minute_agrees :
  forallb Cron.agrees_with_schedule_info Cron.minutes_of_week = true.
Proof. vm_compute. reflexivity. Qed.

(** X13.  At every minute of the week the POST handler of the cron entry
    point triggers calls exactly when one of the windows of [schedule_info],
    the timetable its GET handler advertises, matches the moment under the
    WHERE clause of [should_call_now]: the hard-coded conditions and the
    advertised timetable describe the same firing times. *)
Theorem X13_cron_fires_on_the_advertised_timetable (now : Schedule.wall_clock) :
  0 <= Schedule.day_of_week now <= 6 →
  0 <= Schedule.hour now <= 23 →
  0 <= Schedule.minute now <= 59 →
  is_Some (Cron.scheduleReason now)
  ↔ ∃ s, s ∈ Cron.schedule_info ∧ Schedule.row_matches now s = Some true.
Proof.
  intros Hd Hh Hm.
  pose proof every_minute_agrees as Hall.
  rewrite forallb_forall in Hall.
  specialize (Hall now (proj1 (list_elem_of_In _ _) (minutes_of_week_elem now Hd Hh Hm))).
  unfold Cron.agrees_with_schedule_info in Hall. apply bool_decide_eq_true_1 in Hall.
  rewrite Hall, Exists_exists. reflexivity.
Qed.

Lemma X13_cron_fires_on_the_advertised_timetable_witness :
  is_Some (Cron.scheduleReason
             {| Schedule.day_of_week := 6; Schedule.hour := 11; Schedule.minute := 0 |})
  ↔ ∃ s, s ∈ Cron.schedule_info
         ∧ Schedule.row_matches
             {| Schedule.day_of_week := 6; Schedule.hour := 11; Schedule.minute := 0 |} s
           = Some true.
Proof.
  apply (X13_cron_fires_on_the_advertised_timetable
           {| Schedule.day_of_week := 6; Schedule.hour := 11; Schedule.minute := 0 |});
    vm_compute; split; congruence.
Defined.

(** ** Daily queue: preload *)

Lemma formatPhoneForCheck_cases (phone : string) :
  Ledger.formatPhoneForCheck phone
  = match phone with
    | String "0"%char rest => "+44" +:+ rest
    | _ => phone
    end.
Proof.
  unfold Ledger.formatPhoneForCheck.
  destruct (String.prefix "+44" phone) eqn:E; [|reflexivity].
  destruct phone as [|c rest]; [reflexivity|].
  cbn [String.prefix] in E.
  destruct (Ascii.ascii_dec "+" c) as [<-|]; [reflexivity|discriminate].
Qed.

Lemma phoneForCheck_normalised (phone : string) :
  Queue.phoneForCheck phone = Ledger.formatPhoneForCheck phone
  ∧ String.prefix "0" (Ledger.formatPhoneForCheck phone) = false.
Proof.
  rewrite !formatPhoneForCheck_cases. unfold Queue.phoneForCheck.
  destruct phone as [|c rest]; [split; reflexivity|].
  destruct c as [[] [] [] [] [] [] [] []]; split; reflexivity.
Qed.

(** X14.  The phone normalisations of the edge functions agree: the one the
    daily preload applies before it asks for eligibility and stores
    [phone_number] is the function [formatPhoneForCheck] of start-calling on
    every input; normalising twice is the same as normalising once, and a
    normalised number never begins with the national prefix 0. *)
Theorem X14_phone_normalisations_agree (phone : string) :
  Queue.phoneForCheck phone = Ledger.formatPhoneForCheck phone
  ∧ Ledger.formatPhoneForCheck (Ledger.formatPhoneForCheck phone)
    = Ledger.formatPhoneForCheck phone
  ∧ String.prefix "0" (Ledger.formatPhoneForCheck phone) = false.
Proof.
  rewrite !formatPhoneForCheck_cases. unfold Queue.phoneForCheck.
  destruct phone as [|c rest]; [repeat split; reflexivity|].
  destruct c as [[] [] [] [] [] [] [] []]; repeat split; reflexivity.
Qed.

Lemma calculatePriorityScore_bounds (now : Z) (contact : Queue.ghl_contact) :
  50 <= Queue.calculatePriorityScore now contact <= 100.
Proof.
  unfold Queue.calculatePriorityScore.
  destruct (Queue.g_lastActivity contact) as [a|]; [destruct (a <? _)|];
    destruct (existsb _ _);
    (destruct (Queue.g_dateAdded contact) as [d|];
     [destruct (30 <? _); destruct (60 <? _)|]); lia.
Qed.

Lemma insert_all_rows (l : list Queue.new_row) (queue queue' : list Queue.queue_row)
    (d now : Z) :
  Queue.insert_all queue d l now = Some queue' →
  ∃ added, queue' = (queue ++ added)%list
    ∧ ∀ r, r ∈ added →
        ∃ n, n ∈ l
             ∧ Queue.contact_id r = Queue.n_contact_id n
             ∧ Queue.phone_number r = Queue.n_phone_number n
             ∧ Queue.q_contact_data r = Queue.n_contact_data n
             ∧ Queue.priority_score r = Queue.n_priority_score n
             ∧ Queue.q_status r = Queue.pending
             ∧ Queue.queue_date r = d
             ∧ Queue.sent_to_n8n_at r = None
             ∧ Queue.call_initiated_at r = None
             ∧ Queue.skip_reason r = None
             ∧ Queue.created_at r = now
             ∧ Queue.updated_at r = now.
Proof.
  revert queue. induction l as [|n l IH]; intros queue; cbn.
  - intros [= <-]. exists []. split; [by rewrite app_nil_r|].
    intros r Hr. by apply elem_of_nil in Hr.
  - destruct (Queue.has_key queue d (Queue.n_contact_id n)); [discriminate|].
    intros H. apply IH in H as (added & -> & Hadded).
    unfold Queue.insert_row. rewrite <- app_assoc. eexists. split; [reflexivity|].
    intros r [->|Hr]%elem_of_cons.
    + exists n. split; [by left|]. cbn. repeat split; reflexivity.
    + destruct (Hadded r Hr) as (n' & Hn' & Hrest). exists n'. split; [by right|exact Hrest].
Qed.

Lemma all_eligible_elem (f : string → bool) (now : Z) (cs : list Queue.ghl_contact)
    (n : Queue.new_row) :
  n ∈ Queue.all_eligible f now cs →
  ∃ contact phone,
    contact ∈ cs ∧ Queue.g_phone contact = Some phone
    ∧ (8 <= String.length phone)%nat
    ∧ f (Queue.phoneForCheck phone) = true
    ∧ n = Queue.queue_contact now contact phone.
Proof.
  induction cs as [|c cs IH]; cbn; [by intros ?%elem_of_nil|].
  assert (Hrest : n ∈ Queue.all_eligible f now cs →
                  ∃ contact phone,
                    contact ∈ c :: cs ∧ Queue.g_phone contact = Some phone
                    ∧ (8 <= String.length phone)%nat
                    ∧ f (Queue.phoneForCheck phone) = true
                    ∧ n = Queue.queue_contact now contact phone).
  { intros H. destruct (IH H) as (contact & phone & Hin & Hrest).
    exists contact, phone. split; [by right|exact Hrest]. }
  destruct (Queue.g_phone c) as [phone|] eqn:Hp; [|exact Hrest].
  destruct (Nat.leb_spec (String.length phone) 7) as [?|Hlen]; [exact Hrest|].
  destruct (f (Queue.phoneForCheck phone)) eqn:Hf; [|exact Hrest].
  intros [->|H]%elem_of_cons; [|by apply Hrest].
  exists c, phone. split; [by left|]. auto.
Qed.

(** X15.  The daily preload edge function only ever appends rows to the
    queue, and every row it appends is a fresh entry for today: pending,
    dated and stamped with the day and instant of the run, never handed
    over, with a priority between 50 and 100, for a contact of the source
    whose phone has at least 8 characters, stored under the normalised
    number (no leading 0) that the eligibility check accepted, the number as
    the source gave it being kept in the contact snapshot. *)
Theorem X15_preload_adds_fresh_rows
    (can_call_smart : string → bool) (queue : list Queue.queue_row) (now : Z)
    (ghlContacts : list Queue.ghl_contact) :
  ∃ added,
    snd (Queue.preload_handler can_call_smart queue now ghlContacts) = (queue ++ added)%list
    ∧ ∀ r, r ∈ added →
        Queue.q_status r = Queue.pending
        ∧ Queue.queue_date r = Clock.to_date now
        ∧ Queue.created_at r = now
        ∧ Queue.sent_to_n8n_at r = None
        ∧ Queue.call_initiated_at r = None
        ∧ Queue.skip_reason r = None
        ∧ 50 <= Queue.priority_score r <= 100
        ∧ can_call_smart (Queue.phone_number r) = true
        ∧ String.prefix "0" (Queue.phone_number r) = false
        ∧ ∃ contact phone,
            contact ∈ ghlContacts
            ∧ Queue.g_phone contact = Some phone
            ∧ (8 <= String.length phone)%nat
            ∧ Queue.contact_id r = Queue.g_id contact
            ∧ Queue.phone_number r = Ledger.formatPhoneForCheck phone
            ∧ Queue.cd_phone (Queue.q_contact_data r) = Some phone.
Proof.
  assert (Hnone : ∃ added : list Queue.queue_row,
             queue = (queue ++ added)%list
             ∧ ∀ r, r ∈ added →
                 Queue.q_status r = Queue.pending
                 ∧ Queue.queue_date r = Clock.to_date now
                 ∧ Queue.created_at r = now
                 ∧ Queue.sent_to_n8n_at r = None
                 ∧ Queue.call_initiated_at r = None
                 ∧ Queue.skip_reason r = None
                 ∧ 50 <= Queue.priority_score r <= 100
                 ∧ can_call_smart (Queue.phone_number r) = true
                 ∧ String.prefix "0" (Queue.phone_number r) = false
                 ∧ ∃ contact phone,
                     contact ∈ ghlContacts
                     ∧ Queue.g_phone contact = Some phone
                     ∧ (8 <= String.length phone)%nat
                     ∧ Queue.contact_id r = Queue.g_id contact
                     ∧ Queue.phone_number r = Ledger.formatPhoneForCheck phone
                     ∧ Queue.cd_phone (Queue.q_contact_data r) = Some phone).
  { exists []. split; [by rewrite app_nil_r|]. intros r Hr. by apply elem_of_nil in Hr. }
  rewrite preload_handler_unfold. cbn zeta.
  destruct (Queue.targetTotal <=? _); [exact Hnone|].
  destruct ghlContacts as [|c0 cs0]; [exact Hnone|].
  set (cs := c0 :: cs0) in *.
  set (E := take _ (Queue.all_eligible can_call_smart now cs)).
  assert (HE : ∀ n, n ∈ E → n ∈ Queue.all_eligible can_call_smart now cs).
  { intros n Hn. apply elem_of_take in Hn as (i & Hn & _).
    by eapply list_elem_of_lookup_2. }
  destruct E as [|e E']; [exact Hnone|].
  destruct (Queue.insert_all queue _ (e :: E') now) as [queue'|] eqn:Hins; [|exact Hnone].
  apply insert_all_rows in Hins as (added & -> & Hadded).
  exists added. split; [reflexivity|].
  intros r Hr.
  destruct (Hadded r Hr)
    as (n & Hn & Hid & Hph & Hcd & Hpr & Hst & Hdate & Hsent & Hinit & Hskip & Hcr & _).
  apply HE, all_eligible_elem in Hn as (contact & phone & Hin & Hp & Hlen & Hf & ->).
  cbn in Hid, Hph, Hcd, Hpr.
  pose proof (phoneForCheck_normalised phone) as (Hagree & Hzero).
  repeat split; try assumption.
  - rewrite Hpr. apply calculatePriorityScore_bounds.
  - rewrite Hpr. apply calculatePriorityScore_bounds.
  - by rewrite Hph.
  - by rewrite Hph, Hagree.
  - exists contact, phone. rewrite Hcd, Hph, Hagree. cbn. repeat split; assumption.
Qed.




(** X16.  On a date for which the queue holds no row yet, and when none of
    the placeholder numbers is in its two-week cooldown,
    [preload_daily_contacts] loads exactly [p_target_count] contacts: it
    reports that count and the queue then holds that many rows for the
    date, all pending. *)
Theorem X16_sql_preload_fills_an_empty_day
    (db : ledger) (queue : list Queue.queue_row) (p_target_count p_queue_date now : Z) :
  0 <= p_target_count →
  Queue.count_for_date queue p_queue_date = 0 →
  (∀ i, 1 <= i <= p_target_count →
        Queue.in_two_week_cooldown db (Queue.n_phone_number (Queue.mock_contact i)) now
        = false) →
  ∃ added,
    Queue.preload_daily_contacts db queue p_target_count p_queue_date now
    = Some ((p_target_count, Queue.Loaded_contacts p_target_count p_queue_date),
            (Queue.expire_previous_days queue p_queue_date now ++ added)%list)
    ∧ Z.of_nat (length added) = p_target_count
    ∧ Forall (λ r, Queue.queue_date r = p_queue_date ∧ Queue.q_status r = Queue.pending)
        added.
Proof.
  intros Hpos Hzero Hcool. unfold Queue.preload_daily_contacts.
  rewrite count_expire, Hzero. cbn [Z.ltb Z.compare].
  destruct (Z.ltb_spec p_target_count 0) as [?|_]; [lia|].
  assert (Hfilter : filter (λ n, Queue.in_two_week_cooldown db (Queue.n_phone_number n) now
                                 = false)
                      (Queue.mock_contact <$> seqZ 1 p_target_count)
                    = Queue.mock_contact <$> seqZ 1 p_target_count).
  { assert (Hall : Forall (λ i, 1 <= i <= p_target_count) (seqZ 1 p_target_count)).
    { apply Forall_forall. intros i Hi. apply elem_of_seqZ in Hi. lia. }
    induction Hall as [|i l Hi Hl IH]; [done|].
    rewrite fmap_cons, filter_cons_True by (by apply Hcool). by rewrite IH. }
  rewrite Hfilter, take_ge by (rewrite length_fmap, length_seqZ; lia).
  destruct (insert_do_nothing_fresh_keys (Queue.mock_contact <$> seqZ 1 p_target_count)
              (Queue.expire_previous_days queue p_queue_date now) p_queue_date now)
    as (added & Heq & Hlen & Hall).
  { apply mock_contact_ids_NoDup. }
  { intros n _. apply no_row_no_key. by rewrite count_expire. }
  rewrite Heq, length_fmap, length_seqZ, Z2Nat.id by lia.
  exists added. split; [reflexivity|]. split; [|exact Hall].
  rewrite Hlen, length_fmap, length_seqZ. lia.
Qed.

Lemma X16_sql_preload_fills_an_empty_day_witness :
  ∃ added,
    Queue.preload_daily_contacts Scenario.empty_ledger Scenario.left_over 3
      Scenario.tuesday (Clock.at_day Scenario.tuesday 6 0)
    = Some ((3, Queue.Loaded_contacts 3 Scenario.tuesday),
            (Queue.expire_previous_days Scenario.left_over Scenario.tuesday
               (Clock.at_day Scenario.tuesday 6 0) ++ added)%list)
    ∧ Z.of_nat (length added) = 3
    ∧ Forall (λ r, Queue.queue_date r = Scenario.tuesday ∧ Queue.q_status r = Queue.pending)
        added.
Proof.
  refine (X16_sql_preload_fills_an_empty_day Scenario.empty_ledger Scenario.left_over 3
            Scenario.tuesday (Clock.at_day Scenario.tuesday 6 0) _ _ _);
    [vm_compute; congruence|vm_compute; reflexivity|].
  intros i _. vm_compute. reflexivity.
Defined.

(** ** Paging through the contact source *)

Lemma first_pages_S (search : Z → Fetch.search_response) (k : nat) :
  Fetch.first_pages search (S k)
  = (Fetch.first_pages search k ++ Fetch.page_contacts search (Z.of_nat k + 1))%list.
Proof.
  unfold Fetch.first_pages.
  replace (Z.of_nat (S k)) with (Z.of_nat k + 1) by lia.
  rewrite seqZ_app by lia. rewrite fmap_app, join_app.
  change (seqZ (1 + Z.of_nat k) 1) with [0 + (1 + Z.of_nat k)].
  rewrite list_fmap_singleton. cbn [mjoin list_join]. rewrite app_nil_r.
  do 2 f_equal. lia.
Qed.

Lemma fetch_loop_spec (search : Z → Fetch.search_response) (targetCount : Z)
    (fuel k : nat) :
  (k <= 5)%nat → (5 <= fuel + k)%nat →
  ∃ k' : nat,
    (k <= k' <= 5)%nat
    ∧ Fetch.fetch_loop search fuel targetCount (Z.of_nat k + 1) (Fetch.first_pages search k)
      = Some (Fetch.first_pages search k')
    ∧ (∀ i : nat, (k < i <= k')%nat →
         Fetch.page_contacts search (Z.of_nat i) ≠ []
         ∧ Z.of_nat (length (Fetch.first_pages search (i - 1))) < targetCount)
    ∧ (k' = 5%nat
       ∨ targetCount <= Z.of_nat (length (Fetch.first_pages search k'))
       ∨ Fetch.page_contacts search (Z.of_nat k' + 1) = []).
Proof.
  revert k. induction fuel as [|fuel IH]; intros k Hk Hfuel.
  - assert (k = 5%nat) as -> by lia. exists 5%nat. cbn [Fetch.fetch_loop].
    replace (Z.of_nat 5 + 1 <=? 5) with false by reflexivity.
    rewrite andb_false_r. repeat split; try lia; by left.
  - cbn [Fetch.fetch_loop].
    destruct (Z.ltb_spec (Z.of_nat (length (Fetch.first_pages search k))) targetCount)
      as [Hshort|Hfull]; cbn [andb].
    2:{ exists k. repeat split; try lia; right; by left. }
    destruct (Z.leb_spec (Z.of_nat k + 1) 5) as [Hpage|Hpage].
    2:{ exists k. repeat split; try lia; left; lia. }
    assert (Hstop : Fetch.page_contacts search (Z.of_nat k + 1) = [] →
              ∃ k' : nat,
                (k <= k' <= 5)%nat
                ∧ Some (Fetch.first_pages search k) = Some (Fetch.first_pages search k')
                ∧ (∀ i : nat, (k < i <= k')%nat →
                     Fetch.page_contacts search (Z.of_nat i) ≠ []
                     ∧ Z.of_nat (length (Fetch.first_pages search (i - 1))) < targetCount)
                ∧ (k' = 5%nat
                   ∨ targetCount <= Z.of_nat (length (Fetch.first_pages search k'))
                   ∨ Fetch.page_contacts search (Z.of_nat k' + 1) = [])).
    { intros Hnone. exists k. repeat split; try lia; right; by right. }
    unfold Fetch.page_contacts in Hstop.
    destruct (search (Z.of_nat k + 1)) as [[cs|]| |] eqn:Hsearch; cbn [Sql.coalesce];
      try (by apply Hstop).
    destruct cs as [|c cs]; [by apply Hstop|].
    assert (Hpg : Fetch.page_contacts search (Z.of_nat k + 1) = c :: cs).
    { unfold Fetch.page_contacts. by rewrite Hsearch. }
    destruct (IH (S k)) as (k' & Hk' & Hrun & Hpages & Hend); [lia|lia|].
    rewrite first_pages_S, Hpg in Hrun.
    replace (Z.of_nat (S k) + 1) with (Z.of_nat k + 1 + 1) in Hrun by lia.
    exists k'. split; [lia|]. split; [exact Hrun|]. split; [|exact Hend].
    intros i Hi. destruct (decide (i = S k)) as [->|Hne].
    + replace (Z.of_nat (S k)) with (Z.of_nat k + 1) by lia. rewrite Hpg.
      replace (S k - 1)%nat with k by lia. split; [done|exact Hshort].
    + apply Hpages. lia.
Qed.

(** X17.  [fetchGHLContactsWithPagination] always returns (five iterations
    suffice whatever the contact source answers) and what it returns is
    the contacts of the pages 1 to k, in order, for some k of at most 5:
    each of these pages was a successful, non-empty answer requested while
    fewer than [targetCount] contacts were gathered, and the paging stopped
    because page 5 was reached, the target was met, or the next page failed,
    threw or came back empty.  An error never loses the contacts already
    gathered, and the result is not cut down to [targetCount]. *)
Theorem X17_pagination_gathers_the_first_pages
    (search : Z → Fetch.search_response) (targetCount : Z) (fuel : nat) :
  (5 <= fuel)%nat →
  ∃ k : nat,
    (k <= 5)%nat
    ∧ Fetch.fetchGHLContactsWithPagination search fuel targetCount
      = Some (Fetch.first_pages search k)
    ∧ (∀ i : nat, (1 <= i <= k)%nat →
         Fetch.page_contacts search (Z.of_nat i) ≠ []
         ∧ Z.of_nat (length (Fetch.first_pages search (i - 1))) < targetCount)
    ∧ (k = 5%nat
       ∨ targetCount <= Z.of_nat (length (Fetch.first_pages search k))
       ∨ Fetch.page_contacts search (Z.of_nat k + 1) = []).
Proof.
  intros Hfuel.
  destruct (fetch_loop_spec search targetCount fuel 0) as (k & Hk & Hrun & Hpages & Hend);
    [lia|lia|].
  exists k. split; [lia|]. split; [exact Hrun|]. split; [|exact Hend].
  intros i Hi. apply Hpages. lia.
Qed.

Lemma X17_pagination_gathers_the_first_pages_witness :
  ∃ k : nat,
    (k <= 5)%nat
    ∧ Fetch.fetchGHLContactsWithPagination Examples.two_pages 5 500
      = Some (Fetch.first_pages Examples.two_pages k)
    ∧ (∀ i : nat, (1 <= i <= k)%nat →
         Fetch.page_contacts Examples.two_pages (Z.of_nat i) ≠ []
         ∧ Z.of_nat (length (Fetch.first_pages Examples.two_pages (i - 1))) < 500)
    ∧ (k = 5%nat
       ∨ 500 <= Z.of_nat (length (Fetch.first_pages Examples.two_pages k))
       ∨ Fetch.page_contacts Examples.two_pages (Z.of_nat k + 1) = []).
Proof.
  apply (X17_pagination_gathers_the_first_pages Examples.two_pages 500 5). lia.
Defined.

(** ** Dequeue: the order of a batch *)

Lemma insert_ordered_insert_by (r : Queue.queue_row) (l : list Queue.queue_row) :
  Dequeue.insert_ordered r l = Ordering.insert_by Dequeue.ordered_before r l.
Proof. induction l as [|x l IH]; cbn; [done|]. by rewrite IH. Qed.

Lemma order_rows_sort_by (l : list Queue.queue_row) :
  Dequeue.order_rows l = Ordering.sort_by Dequeue.ordered_before l.
Proof.
  unfold Dequeue.order_rows, Ordering.sort_by.
  induction l as [|x l IH]; cbn; [done|]. by rewrite IH, insert_ordered_insert_by.
Qed.

Lemma ordered_before_total (a b : Queue.queue_row) :
  Dequeue.ordered_before a b = false → Dequeue.ordered_before b a = true.
Proof. unfold Dequeue.ordered_before. lia. Qed.

Lemma ordered_before_trans (a b c : Queue.queue_row) :
  Dequeue.ordered_before a b = true → Dequeue.ordered_before b c = true →
  Dequeue.ordered_before a c = true.
Proof. unfold Dequeue.ordered_before. lia. Qed.



(** ** Dispatch: stale rows *)

Lemma reset_stale_one_pass (queue : list Queue.queue_row) (today now : Z) :
  Dispatch.reset_stale queue today now
  = (λ r, if Lifecycle.is_stale today now r
          then Queue.set_status r Queue.pending (Queue.sent_to_n8n_at r)
                 (Queue.call_initiated_at r) (Some "stale_sent_to_n8n_auto_reset") now
          else r) <$> queue.
Proof.
  unfold Dispatch.reset_stale. cbn zeta. rewrite <- list_fmap_compose.
  apply list_fmap_ext. intros _ r _. unfold compose, Lifecycle.is_stale.
  destruct (Queue.queue_date r =? today) eqn:Hd; cbn [andb]; [|by rewrite Hd].
  destruct (bool_decide (Queue.q_status r = Queue.sent_to_n8n)) eqn:Hs; cbn [andb];
    [|by rewrite Hd, Hs].
  destruct (Queue.sent_to_n8n_at r) as [t|] eqn:Ht.
  - destruct (t <? _) eqn:Hlt.
    + cbn. rewrite Hd. reflexivity.
    + rewrite Hd, Hs, Ht. cbn. reflexivity.
  - rewrite Hd, Hs, Ht. cbn. reflexivity.
Qed.

(** X19.  The stale-row reset of a dispatch cycle, two UPDATEs in a row,
    acts as one pass: exactly the rows of today in [sent_to_n8n] whose
    hand-over is more than 15 minutes old (or, without a hand-over time,
    whose last update is) go back to [pending] with the reason
    "stale_sent_to_n8n_auto_reset", and every other row is left as it is,
    in particular a row handed over within the last 15 minutes.  Running
    the reset again at the same instant changes nothing more. *)
Theorem X19_stale_reset_is_one_pass (queue : list Queue.queue_row) (today now : Z) :
  Dispatch.reset_stale queue today now
  = (λ r, if Lifecycle.is_stale today now r
          then Queue.set_status r Queue.pending (Queue.sent_to_n8n_at r)
                 (Queue.call_initiated_at r) (Some "stale_sent_to_n8n_auto_reset") now
          else r) <$> queue
  ∧ Dispatch.reset_stale (Dispatch.reset_stale queue today now) today now
    = Dispatch.reset_stale queue today now.
Proof.
  split; [apply reset_stale_one_pass|].
  rewrite !reset_stale_one_pass, <- list_fmap_compose.
  apply list_fmap_ext. intros _ r _. unfold compose.
  destruct (Lifecycle.is_stale today now r) eqn:Hs; [|by rewrite Hs].
  unfold Lifecycle.is_stale. cbn.
  rewrite bool_decide_eq_false_2 by discriminate. by rewrite andb_false_r.
Qed.

(** ** Dispatch: the daily capacity *)

Lemma processingNow_in_flight (queue : list Queue.queue_row) (today : Z) :
  Dispatch.processingNow queue today
  = Z.of_nat (length (filter (λ r, Lifecycle.in_flight today r = true) queue)).
Proof.
  unfold Dispatch.processingNow, Dispatch.statusCount.
  induction queue as [|r queue IH]; [reflexivity|].
  rewrite !filter_cons.
  assert (Hiff : Lifecycle.in_flight today r = true
                 ↔ (Queue.queue_date r = today ∧ Queue.q_status r = Queue.sent_to_n8n)
                   ∨ (Queue.queue_date r = today ∧ Queue.q_status r = Queue.calling)).
  { unfold Lifecycle.in_flight.
    rewrite andb_true_iff, orb_true_iff, Z.eqb_eq, !bool_decide_eq_true. tauto. }
  repeat case_decide; cbn [length]; try lia; exfalso; intuition congruence.
Qed.

Lemma in_flight_count_fmap (f : Queue.queue_row → Queue.queue_row) (today : Z)
    (queue : list Queue.queue_row) :
  (∀ r, r ∈ queue → Lifecycle.in_flight today (f r) = true →
        Lifecycle.in_flight today r = true) →
  (length (filter (λ r, Lifecycle.in_flight today r = true) (f <$> queue))
   <= length (filter (λ r, Lifecycle.in_flight today r = true) queue))%nat.
Proof.
  induction queue as [|r queue IH]; intros Hf; [done|].
  rewrite fmap_cons, !filter_cons.
  assert (IH' := IH (λ x Hx, Hf x (list_elem_of_further _ _ _ Hx))).
  specialize (Hf r (list_elem_of_here _ _)).
  repeat case_decide; cbn [length]; try lia. exfalso. auto.
Qed.

Lemma claimed_rows_count (ids : list Z) (queue : list Queue.queue_row) :
  NoDup (Queue.id <$> queue) →
  (length (filter (λ r, Queue.id r ∈ ids) queue) <= length ids)%nat.
Proof.
  intros Hnd.
  rewrite <- (length_fmap Queue.id (filter _ queue)).
  apply submseteq_length, NoDup_submseteq.
  - refine (sublist_NoDup _ _ Hnd (fmap_sublist Queue.id _ _ (sublist_filter _ _))).
  - intros x Hx. apply list_elem_of_fmap in Hx as (r & -> & Hr).
    by apply list_elem_of_filter in Hr as [Hr _].
Qed.

Lemma in_flight_count_claim (today now : Z) (ids : list Z) (queue : list Queue.queue_row) :
  NoDup (Queue.id <$> queue) →
  (length (filter (λ r, Lifecycle.in_flight today r = true) (Dequeue.claim_ids now ids queue))
   <= length (filter (λ r, Lifecycle.in_flight today r = true) queue) + length ids)%nat.
Proof.
  intros Hnd.
  etransitivity; [|apply Nat.add_le_mono_l, (claimed_rows_count ids queue Hnd)].
  clear Hnd. unfold Dequeue.claim_ids.
  induction queue as [|r queue IH]; [done|].
  rewrite fmap_cons, !filter_cons.
  destruct (decide (Queue.id r ∈ ids)) as [Hin|Hout].
  - rewrite bool_decide_eq_true_2 by done.
    repeat case_decide; cbn [length]; lia.
  - rewrite bool_decide_eq_false_2 by done.
    repeat case_decide; cbn [length]; lia.
Qed.

Lemma in_flight_count_reset (queue : list Queue.queue_row) (today now : Z) :
  (length (filter (λ r, Lifecycle.in_flight today r = true)
             (Dispatch.reset_stale queue today now))
   <= length (filter (λ r, Lifecycle.in_flight today r = true) queue))%nat.
Proof.
  rewrite reset_stale_one_pass. apply in_flight_count_fmap.
  intros r _. destruct (Lifecycle.is_stale today now r); [|done].
  unfold Lifecycle.in_flight. cbn. by rewrite andb_false_r.
Qed.

Lemma in_flight_count_update_sent (queue : list Queue.queue_row) (today : Z)
    (phoneNumbers : list string) (set : Queue.queue_row → Queue.queue_row) :
  (∀ r, Queue.queue_date (set r) = Queue.queue_date r) →
  (length (filter (λ r, Lifecycle.in_flight today r = true)
             (Dispatch.update_sent_rows queue today phoneNumbers set))
   <= length (filter (λ r, Lifecycle.in_flight today r = true) queue))%nat.
Proof.
  intros Hdate. unfold Dispatch.update_sent_rows. apply in_flight_count_fmap.
  intros r _.
  destruct (Z.eqb_spec (Queue.queue_date r) today) as [Hd|Hd]; cbn [andb]; [|done].
  destruct (existsb _ _); cbn [andb]; [|done].
  destruct (bool_decide (Queue.q_status r = Queue.sent_to_n8n)) eqn:Hs; [|done].
  intros _. unfold Lifecycle.in_flight. rewrite Hs, orb_true_l, andb_true_r.
  by apply Z.eqb_eq.
Qed.

Lemma in_flight_count_send (contacts : list Dispatch.contact)
    (outcome : Dispatch.webhook_outcome) (queue : list Queue.queue_row) (dryRun : bool)
    (now : Z) :
  (length (filter (λ r, Lifecycle.in_flight (Clock.to_date now) r = true)
             (snd (Dispatch.sendContactsToN8N contacts outcome queue dryRun now)))
   <= length (filter (λ r, Lifecycle.in_flight (Clock.to_date now) r = true) queue))%nat.
Proof.
  unfold Dispatch.sendContactsToN8N.
  destruct dryRun; [done|].
  destruct ((λ c, Dispatch.String_ (Dispatch.c_phone c)) <$> contacts) as [|p ps] eqn:Hp.
  - destruct outcome as [code body|message]; [destruct (_ || _)|]; done.
  - destruct outcome as [code body|message]; [destruct (_ || _)|]; cbn [snd];
      by apply in_flight_count_update_sent.
Qed.

Lemma next_call_batch_length (where_ : Queue.queue_row → bool)
    (queue queue' : list Queue.queue_row) (size now : Z) (batch : list Dequeue.batch_row) :
  Dequeue.next_call_batch where_ queue size now = Some (batch, queue') →
  ∃ ids, queue' = Dequeue.claim_ids now ids queue
         ∧ length ids = length batch ∧ Z.of_nat (length batch) <= size.
Proof.
  unfold Dequeue.next_call_batch.
  destruct (Z.ltb_spec size 0); [discriminate|]. intros [= <- <-].
  eexists. split; [reflexivity|]. rewrite !length_fmap, length_take. lia.
Qed.

Lemma ids_reset_stale (queue : list Queue.queue_row) (today now : Z) :
  Queue.id <$> Dispatch.reset_stale queue today now = Queue.id <$> queue.
Proof.
  rewrite reset_stale_one_pass, <- list_fmap_compose.
  apply list_fmap_ext. intros _ r _. unfold compose.
  by destruct (Lifecycle.is_stale today now r).
Qed.

Lemma in_flight_count_dequeue_and_send (q : Dispatch.cycle_input)
    (queue : list Queue.queue_row) (now effective : Z) :
  NoDup (Queue.id <$> queue) → 0 <= effective →
  Z.of_nat (length (filter (λ r, Lifecycle.in_flight (Clock.to_date now) r = true)
                      (snd (Dispatch.dequeue_and_send q queue now (Some effective)))))
  <= Z.of_nat (length (filter (λ r, Lifecycle.in_flight (Clock.to_date now) r = true) queue))
     + effective.
Proof.
  intros Hnd Heff. unfold Dispatch.dequeue_and_send, Dispatch.rpc_get_next_call_batch.
  cbn zeta.
  pose proof (in_flight_count_reset queue (Clock.to_date now) now) as H1.
  set (queue1 := Dispatch.reset_stale queue (Clock.to_date now) now) in *.
  assert (Hnd1 : NoDup (Queue.id <$> queue1)) by (unfold queue1; by rewrite ids_reset_stale).
  unfold Dequeue.get_next_call_batch.
  destruct (Dequeue.next_call_batch _ queue1 effective now) as [[batch queue2]|] eqn:Hb;
    [|cbn [snd]; lia].
  apply next_call_batch_length in Hb as (ids & -> & Hlen & Hsize).
  pose proof (in_flight_count_claim (Clock.to_date now) now ids queue1 Hnd1) as H2.
  set (queue2 := Dequeue.claim_ids now ids queue1) in *.
  destruct batch as [|b batch]; [cbn [snd]; lia|].
  match goal with |- context [Dispatch.slice_to ?n ?l] =>
    destruct (Dispatch.slice_to n l) as [|c cs] end;
    [cbn [snd]; lia|].
  pose proof (in_flight_count_send (c :: cs) (Dispatch.webhook q) queue2 (Dispatch.dryRun q)
                now) as H3.
  destruct (Dispatch.sendContactsToN8N (c :: cs) (Dispatch.webhook q) queue2
              (Dispatch.dryRun q) now) as [[r|m] queue3]; cbn [snd] in *; lia.
Qed.

(** X20.  A dispatch cycle whose batch size is a number never pushes the
    day over its capacity: with unique row ids, the outbound calls placed
    today plus the queue rows in flight ([sent_to_n8n] or [calling]) after
    the cycle do not exceed [max_daily_calls], unless they already did
    before the cycle, in which case they have not grown.  A batch size that
    is not a number escapes the clamp: on a Monday with 25 calls placed, a
    maximum of 30 and eight pending rows, the cycle claims all eight rows,
    sends none of them and leaves 33 calls placed or in flight. *)
Theorem X20_cycle_respects_daily_capacity :
  (∀ (q : Dispatch.cycle_input) (queue : list Queue.queue_row) (now : Z),
     NoDup (Queue.id <$> queue) →
     is_Some (Dispatch.batchSize q) →
     let today := Clock.to_date now in
     let placed := Dispatch.outboundCount (Dispatch.calls q) now in
     let queue' := snd (Dispatch.dispatch_cycle q queue now) in
     placed + Dispatch.processingNow queue' today
     <= Z.max (Dispatch.maxDailyCalls (Dispatch.settingsData q))
              (placed + Dispatch.processingNow queue today))
  ∧ (let now := Clock.at_day Scenario.monday 10 0 in
     let after := Dispatch.dispatch_cycle Examples.nan_request Scenario.eight_pending now in
     Dispatch.maxDailyCalls (Dispatch.settingsData Examples.nan_request) = 30
     ∧ Dispatch.outboundCount (Dispatch.calls Examples.nan_request) now = 25
     ∧ Dispatch.processingNow Scenario.eight_pending (Clock.to_date now) = 0
     ∧ fst after = Dispatch.All_filtered_by_deduplication
     ∧ Dispatch.processingNow (snd after) (Clock.to_date now) = 8).
Proof.
  split; [|vm_compute; repeat split; reflexivity].
  intros q queue now Hnd [size Hsize] today placed queue'.
  unfold queue', Dispatch.dispatch_cycle.
  destruct (Dispatch.schedule_gate q); [cbn [snd]; lia|]. cbn zeta. fold today placed.
  set (maxDaily := Dispatch.maxDailyCalls (Dispatch.settingsData q)).
  set (processing := Dispatch.processingNow queue today).
  unfold Dispatch.remainingCapacity.
  destruct (Z.leb_spec (Z.max 0 (maxDaily - (placed + processing))) 0) as [?|Hrem];
    [cbn [snd]; lia|].
  rewrite Hsize. unfold Dispatch.effectiveBatchSize.
  set (effective := Z.max 0 (Z.min size (Z.max 0 (maxDaily - (placed + processing))))).
  case_bool_decide; [cbn [snd]; fold processing; lia|].
  pose proof (in_flight_count_dequeue_and_send q queue now effective Hnd) as H'.
  fold today in H'. rewrite <- !processingNow_in_flight in H'. fold processing in H'.
  assert (0 <= effective) by (unfold effective; lia). specialize (H' ltac:(assumption)).
  unfold effective in *. lia.
Qed.

Lemma X20_cycle_respects_daily_capacity_witness :
  Dispatch.outboundCount (Dispatch.calls Scenario.clamp_request)
    (Clock.at_day Scenario.monday 10 0)
  + Dispatch.processingNow
      (snd (Dispatch.dispatch_cycle Scenario.clamp_request Scenario.three_in_flight
              (Clock.at_day Scenario.monday 10 0)))
      (Clock.to_date (Clock.at_day Scenario.monday 10 0))
  <= Z.max (Dispatch.maxDailyCalls (Dispatch.settingsData Scenario.clamp_request))
       (Dispatch.outboundCount (Dispatch.calls Scenario.clamp_request)
          (Clock.at_day Scenario.monday 10 0)
        + Dispatch.processingNow Scenario.three_in_flight
            (Clock.to_date (Clock.at_day Scenario.monday 10 0))).
Proof.
  apply (proj1 X20_cycle_respects_daily_capacity Scenario.clamp_request
           Scenario.three_in_flight (Clock.at_day Scenario.monday 10 0)).
  - refine (bool_decide_unpack (NoDup (Queue.id <$> Scenario.three_in_flight)) _).
    vm_compute. exact I.
  - vm_compute. eauto.
Defined.

(** ** The life of a queue row *)

Lemma evolves_refl (r : Queue.queue_row) : Lifecycle.evolves r r.
Proof. split; auto. Qed.

Lemma evolves_trans (r1 r2 r3 : Queue.queue_row) :
  Lifecycle.evolves r1 r2 → Lifecycle.evolves r2 r3 → Lifecycle.evolves r1 r3.
Proof.
  intros [H1 H2 H3 H4 H5 H6 H7 H8 H9] [K1 K2 K3 K4 K5 K6 K7 K8 K9].
  split; try congruence.
  - intros Ht. specialize (H8 Ht). subst r2. auto.
  - intros Hc. destruct (H9 Hc) as [Hs|[Hs|Hs]].
    + auto.
    + rewrite K8 by (by rewrite Hs). auto.
    + rewrite K8 by (by rewrite Hs). auto.
Qed.

Lemma evolves_set_status (r : Queue.queue_row) (st : Queue.status) (sent initiated : option Z)
    (why : option string) (now : Z) :
  Lifecycle.terminal (Queue.q_status r) = false →
  (Queue.q_status r = Queue.calling →
   st = Queue.calling ∨ st = Queue.completed ∨ st = Queue.failed) →
  Lifecycle.evolves r (Queue.set_status r st sent initiated why now).
Proof.
  intros Ht Hc. split; try reflexivity.
  - intros H. congruence.
  - exact Hc.
Qed.

Lemma carried_over_refl (queue : list Queue.queue_row) : Lifecycle.carried_over queue queue.
Proof. intros i r Hr. exists r. split; [done|apply evolves_refl]. Qed.

Lemma carried_over_trans (q1 q2 q3 : list Queue.queue_row) :
  Lifecycle.carried_over q1 q2 → Lifecycle.carried_over q2 q3 → Lifecycle.carried_over q1 q3.
Proof.
  intros H1 H2 i r Hr. destruct (H1 i r Hr) as (r' & Hr' & He).
  destruct (H2 i r' Hr') as (r'' & Hr'' & He'). exists r''. split; [done|].
  by eapply evolves_trans.
Qed.

Lemma carried_over_fmap (f : Queue.queue_row → Queue.queue_row) (queue : list Queue.queue_row) :
  (∀ r, r ∈ queue → Lifecycle.evolves r (f r)) →
  Lifecycle.carried_over queue (f <$> queue)
  ∧ Queue.id <$> (f <$> queue) = Queue.id <$> queue.
Proof.
  intros Hf. split.
  - intros i r Hr. exists (f r). rewrite list_lookup_fmap, Hr. split; [done|].
    apply Hf. by eapply list_elem_of_lookup_2.
  - rewrite <- list_fmap_compose. apply list_fmap_ext. intros i r Hr.
    apply (Lifecycle.same_id r (f r)), Hf. by eapply list_elem_of_lookup_2.
Qed.

Lemma carried_over_app (queue added : list Queue.queue_row) :
  Lifecycle.carried_over queue (queue ++ added).
Proof.
  intros i r Hr. exists r. split; [|apply evolves_refl].
  rewrite lookup_app_l; [done|]. by eapply lookup_lt_Some.
Qed.

Lemma fresh_id_above (queue : list Queue.queue_row) (r : Queue.queue_row) :
  r ∈ queue → Queue.id r < Queue.fresh_id queue.
Proof.
  unfold Queue.fresh_id. induction queue as [|x queue IH]; [by intros ?%elem_of_nil|].
  cbn. intros [->|Hr]%elem_of_cons; [lia|]. specialize (IH Hr). lia.
Qed.

Lemma insert_row_ids (queue : list Queue.queue_row) (d : Z) (n : Queue.new_row) (now : Z) :
  NoDup (Queue.id <$> queue) → NoDup (Queue.id <$> Queue.insert_row queue d n now).
Proof.
  intros Hnd. unfold Queue.insert_row. rewrite fmap_app. cbn.
  apply NoDup_app. split; [done|]. split; [|apply NoDup_singleton].
  intros x Hx ->%list_elem_of_singleton.
  apply list_elem_of_fmap in Hx as (r & Hid & Hr).
  pose proof (fresh_id_above queue r Hr). lia.
Qed.

Lemma insert_all_ids (l : list Queue.new_row) (queue queue' : list Queue.queue_row)
    (d now : Z) :
  Queue.insert_all queue d l now = Some queue' →
  NoDup (Queue.id <$> queue) → NoDup (Queue.id <$> queue').
Proof.
  revert queue. induction l as [|n l IH]; intros queue; cbn.
  - by intros [= <-].
  - destruct (Queue.has_key _ _ _); [discriminate|].
    intros H Hnd. apply (IH _ H). by apply insert_row_ids.
Qed.

Lemma insert_do_nothing_ids (l : list Queue.new_row) (queue : list Queue.queue_row)
    (d now : Z) :
  NoDup (Queue.id <$> queue) →
  NoDup (Queue.id <$> fst (Queue.insert_do_nothing queue d l now)).
Proof.
  revert queue. induction l as [|n l IH]; intros queue Hnd; cbn; [done|].
  destruct (Queue.has_key _ _ _); [by apply IH|].
  specialize (IH (Queue.insert_row queue d n now) (insert_row_ids _ _ _ _ Hnd)).
  by destruct (Queue.insert_do_nothing (Queue.insert_row queue d n now) d l now).
Qed.

Lemma expire_carried_over (queue : list Queue.queue_row) (d now : Z) :
  Lifecycle.carried_over queue (Queue.expire_previous_days queue d now)
  ∧ Queue.id <$> Queue.expire_previous_days queue d now = Queue.id <$> queue.
Proof.
  apply carried_over_fmap. intros r _.
  destruct (Queue.queue_date r <? d); cbn [andb]; [|apply evolves_refl].
  case_bool_decide as Hs; [|apply evolves_refl].
  apply evolves_set_status; rewrite Hs; [done|discriminate].
Qed.

Lemma preload_sql_carried_over (db : ledger) (queue queue' : list Queue.queue_row)
    (n d now : Z) (res : Z * Queue.preload_message) :
  Queue.preload_daily_contacts db queue n d now = Some (res, queue') →
  NoDup (Queue.id <$> queue) →
  NoDup (Queue.id <$> queue') ∧ Lifecycle.carried_over queue queue'.
Proof.
  unfold Queue.preload_daily_contacts. intros H Hnd.
  destruct (expire_carried_over queue d now) as [Hco Hids].
  set (queue1 := Queue.expire_previous_days queue d now) in *.
  assert (Hnd1 : NoDup (Queue.id <$> queue1)) by (by rewrite Hids).
  destruct (0 <? _); [by injection H as _ <-|].
  destruct (n <? 0); [discriminate|].
  match type of H with
  | context [Queue.insert_do_nothing queue1 d ?l now] =>
      pose proof (insert_do_nothing_ids l queue1 d now Hnd1) as Hnd2;
      destruct (insert_do_nothing_appends l queue1 d now) as [added Happ];
      destruct (Queue.insert_do_nothing queue1 d l now) as [queue2 k]
  end.
  injection H as _ <-. cbn [fst] in *. split; [done|].
  rewrite Happ. eapply carried_over_trans; [exact Hco|apply carried_over_app].
Qed.

Lemma preload_edge_carried_over (f : string → bool) (queue : list Queue.queue_row) (now : Z)
    (cs : list Queue.ghl_contact) :
  NoDup (Queue.id <$> queue) →
  NoDup (Queue.id <$> snd (Queue.preload_handler f queue now cs))
  ∧ Lifecycle.carried_over queue (snd (Queue.preload_handler f queue now cs)).
Proof.
  intros Hnd. split.
  - rewrite preload_handler_unfold. cbn zeta.
    repeat (case_match; try done).
    cbn [snd]. by eapply insert_all_ids.
  - destruct (preload_handler_appends f queue now cs) as [added ->].
    apply carried_over_app.
Qed.

Lemma next_call_batch_claims (where_ : Queue.queue_row → bool)
    (queue queue' : list Queue.queue_row) (size now : Z) (batch : list Dequeue.batch_row) :
  Dequeue.next_call_batch where_ queue size now = Some (batch, queue') →
  ∃ rows, queue' = Dequeue.claim_ids now (Queue.id <$> rows) queue
          ∧ ∀ r, r ∈ rows → r ∈ queue ∧ where_ r = true.
Proof.
  unfold Dequeue.next_call_batch.
  destruct (size <? 0); [discriminate|]. intros [= <- <-].
  eexists. split; [reflexivity|].
  intros r Hr. apply elem_of_take in Hr as (i & Hr & _).
  apply list_elem_of_lookup_2 in Hr. rewrite order_rows_perm in Hr.
  apply list_elem_of_filter in Hr as [? ?]. auto.
Qed.

Lemma claim_carried_over (now : Z) (rows queue : list Queue.queue_row) :
  NoDup (Queue.id <$> queue) →
  (∀ r, r ∈ rows → r ∈ queue ∧ Queue.q_status r = Queue.pending) →
  Lifecycle.carried_over queue (Dequeue.claim_ids now (Queue.id <$> rows) queue)
  ∧ Queue.id <$> Dequeue.claim_ids now (Queue.id <$> rows) queue = Queue.id <$> queue.
Proof.
  intros Hnd Hrows. apply carried_over_fmap. intros r Hr.
  case_bool_decide as Hin; [|apply evolves_refl].
  apply list_elem_of_fmap in Hin as (r0 & Hid & Hr0).
  destruct (Hrows r0 Hr0) as [Hq Hp].
  assert (r0 = r) as -> by (by apply (same_id_same_row queue Hnd)).
  apply evolves_set_status; rewrite Hp; [done|discriminate].
Qed.

Lemma next_batch_carried_over (where_ : Queue.queue_row → bool)
    (queue queue' : list Queue.queue_row) (size now : Z) (batch : list Dequeue.batch_row) :
  (∀ r, where_ r = true → Queue.q_status r = Queue.pending) →
  Dequeue.next_call_batch where_ queue size now = Some (batch, queue') →
  NoDup (Queue.id <$> queue) →
  NoDup (Queue.id <$> queue') ∧ Lifecycle.carried_over queue queue'.
Proof.
  intros Hw H Hnd. apply next_call_batch_claims in H as (rows & -> & Hrows).
  destruct (claim_carried_over now rows queue Hnd) as [Hco Hids].
  { intros r Hr. destruct (Hrows r Hr). auto. }
  split; [by rewrite Hids|done].
Qed.

Lemma reset_stale_carried_over (queue : list Queue.queue_row) (today now : Z) :
  Lifecycle.carried_over queue (Dispatch.reset_stale queue today now).
Proof.
  rewrite reset_stale_one_pass. apply carried_over_fmap. intros r _.
  destruct (Lifecycle.is_stale today now r) eqn:Hs; [|apply evolves_refl].
  unfold Lifecycle.is_stale in Hs.
  apply andb_true_iff in Hs as [[_ Hs]%andb_true_iff _].
  apply bool_decide_eq_true in Hs.
  apply evolves_set_status; rewrite Hs; [done|discriminate].
Qed.

Lemma update_sent_carried_over (queue : list Queue.queue_row) (today : Z)
    (phoneNumbers : list string) (st : Queue.status) (sent initiated : Queue.queue_row → option Z)
    (why : Queue.queue_row → option string) (now : Z) :
  Lifecycle.carried_over queue
    (Dispatch.update_sent_rows queue today phoneNumbers
       (λ r, Queue.set_status r st (sent r) (initiated r) (why r) now))
  ∧ Queue.id <$> Dispatch.update_sent_rows queue today phoneNumbers
                   (λ r, Queue.set_status r st (sent r) (initiated r) (why r) now)
    = Queue.id <$> queue.
Proof.
  apply carried_over_fmap. intros r _.
  destruct (_ && _) eqn:Hc; [|apply evolves_refl].
  apply andb_true_iff in Hc as [_ Hs]. apply bool_decide_eq_true in Hs.
  apply evolves_set_status; rewrite Hs; [done|discriminate].
Qed.

Lemma send_carried_over (contacts : list Dispatch.contact) (outcome : Dispatch.webhook_outcome)
    (queue : list Queue.queue_row) (dryRun : bool) (now : Z) :
  Lifecycle.carried_over queue
    (snd (Dispatch.sendContactsToN8N contacts outcome queue dryRun now))
  ∧ Queue.id <$> snd (Dispatch.sendContactsToN8N contacts outcome queue dryRun now)
    = Queue.id <$> queue.
Proof.
  unfold Dispatch.sendContactsToN8N.
  destruct dryRun; [split; [apply carried_over_refl|done]|].
  destruct ((λ c, Dispatch.String_ (Dispatch.c_phone c)) <$> contacts) as [|p ps].
  - destruct outcome as [code body|message]; [destruct (_ || _)|]; cbn [snd];
      (split; [apply carried_over_refl|done]).
  - destruct outcome as [code body|message]; [destruct (_ || _)|]; cbn [snd].
    + apply (update_sent_carried_over _ _ _ Queue.pending Queue.sent_to_n8n_at
               Queue.call_initiated_at (λ _, Some "n8n_webhook_failed")).
    + apply (update_sent_carried_over _ _ _ Queue.calling Queue.sent_to_n8n_at
               (λ _, Some now) Queue.skip_reason).
    + apply (update_sent_carried_over _ _ _ Queue.pending Queue.sent_to_n8n_at
               Queue.call_initiated_at (λ _, Some "n8n_webhook_failed")).
Qed.

Lemma dispatch_carried_over (q : Dispatch.cycle_input) (queue : list Queue.queue_row)
    (now : Z) :
  NoDup (Queue.id <$> queue) →
  NoDup (Queue.id <$> snd (Dispatch.dispatch_cycle q queue now))
  ∧ Lifecycle.carried_over queue (snd (Dispatch.dispatch_cycle q queue now)).
Proof.
  intros Hnd.
  assert (Hsame : NoDup (Queue.id <$> queue) ∧ Lifecycle.carried_over queue queue).
  { split; [done|apply carried_over_refl]. }
  unfold Dispatch.dispatch_cycle.
  destruct (Dispatch.schedule_gate q); [exact Hsame|]. cbn zeta.
  destruct (_ <=? 0); [exact Hsame|].
  case_bool_decide; [exact Hsame|].
  unfold Dispatch.dequeue_and_send. cbn zeta.
  pose proof (reset_stale_carried_over queue (Clock.to_date now) now) as H1.
  pose proof (ids_reset_stale queue (Clock.to_date now) now) as I1.
  set (queue1 := Dispatch.reset_stale queue (Clock.to_date now) now) in *.
  assert (Hnd1 : NoDup (Queue.id <$> queue1)) by (by rewrite I1).
  set (effective := Dispatch.effectiveBatchSize _ _).
  assert (Hrpc : ∃ size, Dispatch.rpc_get_next_call_batch queue1 effective
                           (Clock.to_date now) now
                         = Dequeue.next_call_batch
                             (Dequeue.is_pending_for (Clock.to_date now)) queue1 size now).
  { unfold Dispatch.rpc_get_next_call_batch, Dequeue.get_next_call_batch.
    destruct effective; eauto. }
  destruct Hrpc as [size ->].
  destruct (Dequeue.next_call_batch _ queue1 size now) as [[batch queue2]|] eqn:Hb;
    [|cbn [snd]; done].
  apply next_batch_carried_over in Hb as [Hnd2 H2];
    [|intros r Hr; by apply is_pending_for_status in Hr as [_ ?]|done].
  assert (H12 : Lifecycle.carried_over queue queue2) by (by eapply carried_over_trans).
  destruct batch as [|b batch]; [cbn [snd]; done|].
  match goal with |- context [Dispatch.slice_to ?n ?l] =>
    destruct (Dispatch.slice_to n l) as [|c cs] end;
    [cbn [snd]; done|].
  destruct (send_carried_over (c :: cs) (Dispatch.webhook q) queue2 (Dispatch.dryRun q) now)
    as [H3 I3].
  destruct (Dispatch.sendContactsToN8N (c :: cs) (Dispatch.webhook q) queue2
              (Dispatch.dryRun q) now) as [[r|m] queue3]; cbn [snd] in *;
    (split; [by rewrite I3|by eapply carried_over_trans]).
Qed.

Lemma sync_carried_over (queue : list Queue.queue_row) (call : QueueSync.VapiCall) (now : Z) :
  Lifecycle.carried_over queue (QueueSync.sync_queue_status queue call now)
  ∧ Queue.id <$> QueueSync.sync_queue_status queue call now = Queue.id <$> queue.
Proof.
  assert (Hsame : Lifecycle.carried_over queue queue ∧ Queue.id <$> queue = Queue.id <$> queue).
  { split; [apply carried_over_refl|done]. }
  unfold QueueSync.sync_queue_status.
  destruct (QueueSync.v_customer_number call) as [phone|]; [|exact Hsame].
  destruct (QueueSync.v_startedAt call) as [startedAt|]; [|exact Hsame].
  destruct (_ && _); [|exact Hsame].
  destruct (QueueSync.queueStatus (QueueSync.v_status call)) as [st|] eqn:Hst;
    [|exact Hsame].
  assert (Hnext : st = Queue.calling ∨ st = Queue.completed ∨ st = Queue.failed).
  { unfold QueueSync.queueStatus in Hst.
    repeat (case_match; try discriminate); injection Hst as <-; auto. }
  apply carried_over_fmap. intros r _.
  destruct (_ && _) eqn:Hc; [|apply evolves_refl].
  apply andb_true_iff in Hc as [_ Hs].
  apply orb_true_iff in Hs as [Hs|Hs]; apply bool_decide_eq_true in Hs;
    (apply evolves_set_status; rewrite Hs; [done|try discriminate; auto]).
Qed.

Lemma analysed_carried_over (queue : list Queue.queue_row) (call : vapi_call) (now : Z) :
  Lifecycle.carried_over queue (QueueSync.complete_analysed queue call now)
  ∧ Queue.id <$> QueueSync.complete_analysed queue call now = Queue.id <$> queue.
Proof.
  assert (Hsame : Lifecycle.carried_over queue queue ∧ Queue.id <$> queue = Queue.id <$> queue).
  { split; [apply carried_over_refl|done]. }
  unfold QueueSync.complete_analysed.
  destruct (vc_phone_number call) as [phone|]; [|exact Hsame].
  destruct (_ && _); [|exact Hsame]. cbn zeta.
  apply carried_over_fmap. intros r _.
  destruct (_ && _) eqn:Hc; [|apply evolves_refl].
  apply andb_true_iff in Hc as [_ Hs]. apply bool_decide_eq_true in Hs.
  apply evolves_set_status; rewrite Hs; [done|discriminate].
Qed.

Lemma apply_carried_over (queue : list Queue.queue_row) (w : Lifecycle.write) (now : Z) :
  NoDup (Queue.id <$> queue) →
  NoDup (Queue.id <$> Lifecycle.apply queue w now)
  ∧ Lifecycle.carried_over queue (Lifecycle.apply queue w now).
Proof.
  intros Hnd.
  assert (Hsame : NoDup (Queue.id <$> queue) ∧ Lifecycle.carried_over queue queue).
  { split; [done|apply carried_over_refl]. }
  destruct w as [db n d|f cs|cache n d|n d|q|call|call]; cbn [Lifecycle.apply].
  - destruct (Queue.preload_daily_contacts db queue n d now) as [[res queue']|] eqn:H;
      [|exact Hsame].
    by eapply preload_sql_carried_over.
  - by apply preload_edge_carried_over.
  - destruct (Dequeue.get_next_call_batch_020 cache queue n d now) as [[batch queue']|] eqn:H;
      [|exact Hsame].
    eapply next_batch_carried_over; [|exact H|done].
    intros r Hr. by apply where_clauses_ask_pending, is_pending_for_status in Hr as [_ ?].
  - destruct (Dequeue.get_next_call_batch queue n d now) as [[batch queue']|] eqn:H;
      [|exact Hsame].
    eapply next_batch_carried_over; [|exact H|done].
    intros r Hr. by apply is_pending_for_status in Hr as [_ ?].
  - by apply dispatch_carried_over.
  - destruct (sync_carried_over queue call now) as [H I]. split; [by rewrite I|done].
  - destruct (analysed_carried_over queue call now) as [H I]. split; [by rewrite I|done].
Qed.

Lemma replay_carried_over (ws : list (Lifecycle.write * Z)) (queue0 queue : list Queue.queue_row) :
  NoDup (Queue.id <$> queue) → Lifecycle.carried_over queue0 queue →
  NoDup (Queue.id <$> Lifecycle.replay queue ws)
  ∧ Lifecycle.carried_over queue0 (Lifecycle.replay queue ws).
Proof.
  revert queue. induction ws as [|[w now] ws IH]; intros queue Hnd Hco; [done|].
  destruct (apply_carried_over queue w now Hnd) as [Hnd' Hco'].
  apply (IH (Lifecycle.apply queue w now) Hnd'). by eapply carried_over_trans.
Qed.

(** X21.  The life of a queue row, over any sequence of the writers of the
    queue (the SQL and the edge preload, the dequeue of migration 020 or
    021, a whole dispatch cycle, the queue sync of the provider sync, the
    completion step of the call analysis), starting from a queue with
    unique row ids: ids stay unique; no row is ever removed or moved, and
    each keeps its id, date, contact, phone number, contact snapshot,
    priority and creation time; a row that is completed, failed or skipped
    is never changed again; and a row in [calling] is never put back in the
    queue or handed out again, it can only become completed or failed. *)
Theorem X21_queue_rows_move_forward
    (queue : list Queue.queue_row) (ws : list (Lifecycle.write * Z)) :
  NoDup (Queue.id <$> queue) →
  let queue' := Lifecycle.replay queue ws in
  NoDup (Queue.id <$> queue')
  ∧ ∀ (i : nat) (r : Queue.queue_row),
      queue !! i = Some r →
      ∃ r', queue' !! i = Some r'
            ∧ Queue.id r' = Queue.id r
            ∧ Queue.queue_date r' = Queue.queue_date r
            ∧ Queue.contact_id r' = Queue.contact_id r
            ∧ Queue.phone_number r' = Queue.phone_number r
            ∧ Queue.q_contact_data r' = Queue.q_contact_data r
            ∧ Queue.priority_score r' = Queue.priority_score r
            ∧ Queue.created_at r' = Queue.created_at r
            ∧ (Lifecycle.terminal (Queue.q_status r) = true → r' = r)
            ∧ (Queue.q_status r = Queue.calling →
               Queue.q_status r' = Queue.calling ∨ Queue.q_status r' = Queue.completed
               ∨ Queue.q_status r' = Queue.failed).
Proof.
  intros Hnd queue'.
  destruct (replay_carried_over ws queue queue Hnd (carried_over_refl queue)) as [Hnd' Hco].
  fold queue' in Hnd', Hco. split; [exact Hnd'|].
  intros i r Hr. destruct (Hco i r Hr) as (r' & Hr' & [H1 H2 H3 H4 H5 H6 H7 H8 H9]).
  exists r'. repeat split; assumption.
Qed.

Lemma X21_queue_rows_move_forward_witness :
  NoDup (Queue.id <$> Lifecycle.replay Scenario.three_in_flight
                        [(Lifecycle.Dispatch_cycle Scenario.clamp_request,
                          Clock.at_day Scenario.monday 10 0)]).
Proof.
  refine (proj1 (X21_queue_rows_move_forward Scenario.three_in_flight
            [(Lifecycle.Dispatch_cycle Scenario.clamp_request,
              Clock.at_day Scenario.monday 10 0)] _)).
  refine (bool_decide_unpack (NoDup (Queue.id <$> Scenario.three_in_flight)) _).
  vm_compute. exact I.
Defined.

(** ** The start-calling batch *)

Lemma dedupe_spec (seen : gset string) (l : list Queue.ghl_contact) :
  NoDup (StartCalling.norm <$> StartCalling.dedupe seen l)
  ∧ (StartCalling.dedupe seen l `sublist_of` l)
  ∧ (∀ c, c ∈ StartCalling.dedupe seen l →
          (StartCalling.norm c ∉ seen) ∧ StartCalling.norm c ≠ "")
  ∧ (∀ c, c ∈ l → StartCalling.norm c ≠ "" →
          StartCalling.norm c ∈ seen
          ∨ StartCalling.norm c ∈ StartCalling.norm <$> StartCalling.dedupe seen l).
Proof.
  revert seen. induction l as [|c l IH]; intros seen; cbn [StartCalling.dedupe].
  - split; [constructor|]. split; [constructor|].
    split; intros c Hc; by apply elem_of_nil in Hc.
  - destruct (String.eqb_spec (StartCalling.norm c) "") as [Hempty|Hne].
    { destruct (IH seen) as (H1 & H2 & H3 & H4).
      split; [done|]. split; [by apply sublist_cons|]. split; [done|].
      intros x [->|Hx]%elem_of_cons Hx'; [contradiction|auto]. }
    case_bool_decide as Hseen.
    { destruct (IH seen) as (H1 & H2 & H3 & H4).
      split; [done|]. split; [by apply sublist_cons|]. split; [done|].
      intros x [->|Hx]%elem_of_cons Hx'; [by left|auto]. }
    destruct (IH ({[StartCalling.norm c]} ∪ seen)) as (H1 & H2 & H3 & H4).
    split; [|split; [|split]].
    + rewrite fmap_cons. apply NoDup_cons. split; [|done].
      intros Hin. apply list_elem_of_fmap in Hin as (x & Hx & Hin).
      destruct (H3 x Hin) as [Hout _]. apply Hout. rewrite <- Hx.
      apply elem_of_union. left. by apply elem_of_singleton.
    + by apply sublist_skip.
    + intros x [->|Hx]%elem_of_cons; [done|].
      destruct (H3 x Hx) as [Hout Hnz]. split; [|done].
      intros Hs. apply Hout, elem_of_union. by right.
    + intros x [->|Hx]%elem_of_cons Hx'.
      * right. rewrite fmap_cons. by left.
      * destruct (H4 x Hx Hx') as [Hin|Hin].
        -- apply elem_of_union in Hin as [Hin|Hin]; [|by left].
           apply elem_of_singleton in Hin. right. rewrite fmap_cons, Hin. by left.
        -- right. rewrite fmap_cons. by right.
Qed.

Lemma slice0_sublist {A} (n : option Z) (l : list A) : StartCalling.slice0 n l `sublist_of` l.
Proof.
  destruct n as [n|]; cbn; [|apply sublist_nil_l].
  destruct (n <? 0); apply sublist_take.
Qed.

Lemma norm_nonempty_has_phone (c : Queue.ghl_contact) :
  StartCalling.norm c ≠ "" → StartCalling.no_phone c = false.
Proof.
  unfold StartCalling.norm, StartCalling.no_phone.
  destruct (Queue.g_phone c) as [[|a s]|]; cbn; try done.
Qed.

Lemma filter_callable_no_null_phone (can_call : nat → bool) (k : nat)
    (l : list Queue.ghl_contact) :
  (∀ c, c ∈ l → StartCalling.no_phone c = false) →
  snd (StartCalling.filter_callable can_call k l) = []
  ∧ (fst (StartCalling.filter_callable can_call k l) `sublist_of` l).
Proof.
  revert k. induction l as [|c l IH]; intros k Hl; cbn [StartCalling.filter_callable].
  - split; [done|constructor].
  - destruct (IH (S k)) as [Hn Hs]; [intros x Hx; apply Hl; by right|].
    destruct (StartCalling.filter_callable can_call (S k) l) as [cs np].
    cbn [fst snd] in *. rewrite (Hl c) by (by left).
    destruct (can_call k); cbn [fst snd]; split; try done.
    + by apply sublist_skip.
    + by apply sublist_cons.
Qed.

Lemma batch_distinct_numbers (uiBatchSize : option Z) (fetched : list Queue.ghl_contact) :
  let batch := StartCalling.slice0 uiBatchSize (StartCalling.dedupe ∅ fetched) in
  NoDup (StartCalling.norm <$> batch) ∧ ∀ c, c ∈ batch → StartCalling.no_phone c = false.
Proof.
  intros batch.
  destruct (dedupe_spec ∅ fetched) as (Hnd & Hsub & Hin & Hall).
  assert (Hb : batch `sublist_of` StartCalling.dedupe ∅ fetched) by apply slice0_sublist.
  split.
  - exact (sublist_NoDup _ _ Hnd (fmap_sublist StartCalling.norm _ _ Hb)).
  - intros c Hc. apply norm_nonempty_has_phone.
    apply (Hin c). by eapply elem_of_sublist.
Qed.

(** X22.  The batch start-calling dials never holds the same person twice:
    after the de-duplication and the cut to the batch size, no two contacts
    share a normalised phone number, every contact has a phone, the batch is
    a sub-sequence of what the contact source returned and has at most
    [uiBatchSize] contacts; before the cut every non-empty normalised
    number of the source is represented.  So the branch of the filter loop
    that reports a contact without a phone to the contact source is never
    taken. *)
Theorem X22_batch_has_each_number_once
    (uiBatchSize : option Z) (fetched : list Queue.ghl_contact) :
  let batch := StartCalling.slice0 uiBatchSize (StartCalling.dedupe ∅ fetched) in
  NoDup (StartCalling.norm <$> batch)
  ∧ (batch `sublist_of` fetched)
  ∧ (∀ c, c ∈ batch → StartCalling.no_phone c = false)
  ∧ (∀ n, uiBatchSize = Some n → 0 <= n → Z.of_nat (length batch) <= n)
  ∧ (∀ c, c ∈ fetched → StartCalling.norm c ≠ "" →
          StartCalling.norm c ∈ StartCalling.norm <$> StartCalling.dedupe ∅ fetched)
  ∧ ∀ (can_call : nat → bool) (k : nat),
      snd (StartCalling.filter_callable can_call k batch) = [].
Proof.
  intros batch.
  destruct (dedupe_spec ∅ fetched) as (Hnd & Hsub & Hin & Hall).
  assert (Hb : batch `sublist_of` StartCalling.dedupe ∅ fetched) by apply slice0_sublist.
  assert (Hphone : ∀ c, c ∈ batch → StartCalling.no_phone c = false).
  { intros c Hc. apply norm_nonempty_has_phone.
    apply (Hin c). by eapply elem_of_sublist. }
  split; [|split; [|split; [|split; [|split]]]].
  - exact (sublist_NoDup _ _ Hnd (fmap_sublist StartCalling.norm _ _ Hb)).
  - by etransitivity.
  - exact Hphone.
  - intros n -> Hn. unfold batch. cbn.
    destruct (Z.ltb_spec n 0); [lia|]. rewrite length_take. lia.
  - intros c Hc Hne. destruct (Hall c Hc Hne) as [Hs|Hs]; [|done].
    by apply elem_of_empty in Hs.
  - intros can_call k. by apply filter_callable_no_null_phone.
Qed.

Lemma record_dispatch_total (db : ledger) (phone : string) (now : Z) (p : string) :
  Checks.counters_not_null db →
  Checks.total_of (Ledger.record_dispatch db phone now) p
  = Checks.total_of db p
    + (if String.eqb (Ledger.formatPhoneForCheck phone) p then 1 else 0).
Proof.
  intros Hnn. unfold Ledger.record_dispatch.
  destruct (String.eqb_spec (Ledger.formatPhoneForCheck phone) p) as [<-|Hne].
  - by apply total_of_record.
  - rewrite total_of_record_other by done. lia.
Qed.

Lemma place_calls_spec (vapi : nat → StartCalling.call_result) (record_time : nat → Z)
    (cs : list Queue.ghl_contact) (db : ledger) (k : nat) :
  Checks.counters_not_null db →
  let run := StartCalling.place_calls vapi record_time db k cs in
  fst <$> fst run = cs
  ∧ Checks.counters_not_null (snd run)
  ∧ ∀ p, Checks.total_of (snd run) p
         = Checks.total_of db p
           + Z.of_nat (length (filter (λ r, StartCalling.started (snd r) = true
                                            ∧ StartCalling.norm (fst r) = p) (fst run))).
Proof.
  revert db k. induction cs as [|c cs IH]; intros db k Hnn run; unfold run;
    cbn [StartCalling.place_calls].
  - cbn [fst snd]. split; [done|]. split; [done|]. intros p. rewrite filter_nil. cbn. lia.
  - set (db1 := match vapi k with
                | StartCalling.Call_started _ =>
                    Ledger.record_dispatch db (default "" (Queue.g_phone c)) (record_time k)
                | _ => db
                end).
    assert (Hnn1 : Checks.counters_not_null db1).
    { unfold db1. destruct (vapi k); try done. by apply counters_not_null_record. }
    destruct (IH db1 (S k) Hnn1) as (Hf & Hn & Ht).
    destruct (StartCalling.place_calls vapi record_time db1 (S k) cs) as [results db2].
    cbn [fst snd] in *. split; [by rewrite fmap_cons, Hf|]. split; [done|].
    intros p. rewrite Ht, filter_cons. cbn [fst snd].
    unfold db1. destruct (vapi k) as [id|e|e]; cbn [StartCalling.started].
    + rewrite record_dispatch_total by done. fold (StartCalling.norm c).
      destruct (String.eqb_spec (StartCalling.norm c) p) as [Hp|Hp].
      * rewrite decide_True by done. cbn [length]. lia.
      * rewrite decide_False by (intros [_ ?]; done). lia.
    + rewrite decide_False by (intros [? _]; done). lia.
    + rewrite decide_False by (intros [? _]; done). lia.
Qed.

Lemma started_count_le_one (results : list (Queue.ghl_contact * StartCalling.call_result))
    (p : string) :
  NoDup (StartCalling.norm <$> (fst <$> results)) →
  length (filter (λ r, StartCalling.started (snd r) = true ∧ StartCalling.norm (fst r) = p)
            results)
  = if existsb (λ r, StartCalling.started (snd r)
                     && String.eqb (StartCalling.norm (fst r)) p) results
    then 1%nat else 0%nat.
Proof.
  induction results as [|r results IH]; [done|].
  rewrite !fmap_cons. intros [Hr Hnd]%NoDup_cons. specialize (IH Hnd).
  rewrite filter_cons. cbn [existsb].
  destruct (StartCalling.started (snd r)) eqn:Hs; cbn [andb].
  - destruct (String.eqb_spec (StartCalling.norm (fst r)) p) as [Hp|Hp]; cbn [orb].
    + rewrite decide_True by done. cbn [length]. rewrite IH.
      destruct (existsb _ results) eqn:He; [|done].
      exfalso. apply existsb_exists in He as (x & Hx & Hx').
      apply andb_true_iff in Hx' as [_ Hx']. apply String.eqb_eq in Hx'.
      apply Hr. rewrite Hp, <- Hx'. apply list_elem_of_fmap. exists (fst x). split; [done|].
      apply list_elem_of_fmap. exists x. split; [done|]. by apply list_elem_of_In.
    + rewrite decide_False by (intros [_ ?]; done). exact IH.
  - rewrite decide_False by (intros [? _]; done). exact IH.
Qed.



(** ** The eligibility decision of migration 009 *)

(** X24.  The decision of migration 009 counts attempt rows, one per phone
    and day, not attempts: once a phone has an attempt row for a day, a
    further attempt recorded on that day changes no decision of
    [should_call_phone_number] as migration 009 defines it, for any phone
    and any time; the daily and total counters it reports do not move, and
    its cooldown still runs from the creation of the row with the reason of
    the latest call row. *)
Theorem X24_009_does_not_see_repeated_attempts
    (db : ledger) (p : string) (st r : option string) (t now : Z) :
  is_Some (call_attempts db !! (p, Clock.to_date t)) →
  ∀ (q : string) (tc clock : Z),
    Eligibility.should_call_phone_number_009 (Ledger.record_call_attempt db p st r t now) q tc
      clock
    = Eligibility.should_call_phone_number_009 db q tc clock.
Proof.
  intros [old Hold] q tc clock. apply should_call_009_ext; try reflexivity.
  unfold Eligibility.attempts_of. cbn [call_attempts Ledger.record_call_attempt].
  rewrite Hold. by apply (attempts_of_insert_same_created db _ old).
Qed.

Lemma X24_009_does_not_see_repeated_attempts_witness :
  Eligibility.should_call_phone_number_009
    (Ledger.record_call_attempt Scenario.after_customer_ended Scenario.phone (Some "ended")
       (Some "customer-did-not-answer") (Clock.at_day Scenario.monday 15 0)
       (Clock.at_day Scenario.monday 15 1))
    Scenario.phone (Clock.at_day Scenario.monday 16 0) (Clock.at_day Scenario.monday 16 0)
  = Eligibility.should_call_phone_number_009 Scenario.after_customer_ended Scenario.phone
      (Clock.at_day Scenario.monday 16 0) (Clock.at_day Scenario.monday 16 0).
Proof.
  apply (X24_009_does_not_see_repeated_attempts Scenario.after_customer_ended Scenario.phone
           (Some "ended") (Some "customer-did-not-answer") (Clock.at_day Scenario.monday 15 0)
           (Clock.at_day Scenario.monday 15 1)).
  vm_compute. eauto.
Defined.

(* ===================================================================== *)
(** ** Dialled number; call analysis *)

(** X25.  start-calling dials a contact under the number it checked and
    records: the number [createVAPICall] hands to the provider is
    [formatPhoneForCheck] of the contact's phone, the key of the eligibility
    check and of the attempt recorded after the call, and it never begins
    with the national prefix 0. *)
Theorem X25_dialled_number_is_checked_and_recorded
    (db : ledger) (phone : string) (now : Z) :
  StartCalling.customer_number phone = Ledger.formatPhoneForCheck phone
  ∧ Ledger.record_dispatch db phone now
    = Ledger.record_call_attempt db (StartCalling.customer_number phone)
        (Some "initiated") None now now
  ∧ String.prefix "0" (StartCalling.customer_number phone) = false.
Proof.
  assert (E : StartCalling.customer_number phone = Ledger.formatPhoneForCheck phone).
  { symmetry. apply formatPhoneForCheck_cases. }
  split; [exact E|]. split.
  - unfold Ledger.record_dispatch. by rewrite E.
  - rewrite E. apply phoneForCheck_normalised.
Qed.

Lemma calculateQualityScore_bounds (a : AnalysisRules.CallAnalysisResult) :
  1 <= AnalysisRules.calculateQualityScore a <= 10.
Proof. unfold AnalysisRules.calculateQualityScore. lia. Qed.

Lemma computed_columns_pass (aiAnalysis : AnalysisRules.CallAnalysisResult)
    (ended_at : option Z) :
  let u := AnalysisRules.updateData aiAnalysis ended_at in
  AnalysisRules.check_ai_analysis_status (Some (AnalysisRules.u_ai_analysis_status u)) = true
  ∧ AnalysisRules.check_conversation_quality_score
      (Some (AnalysisRules.u_conversation_quality_score u)) = true
  ∧ AnalysisRules.check_follow_up_type (AnalysisRules.u_follow_up_type u) = true
  ∧ AnalysisRules.check_follow_up_urgency (AnalysisRules.u_follow_up_urgency u) = true.
Proof.
  intros u. pose proof (calculateQualityScore_bounds aiAnalysis) as Hs.
  split; [reflexivity|]. split.
  - unfold u, AnalysisRules.updateData,
      AnalysisRules.check_conversation_quality_score. cbn.
    destruct (Z.geb_spec (AnalysisRules.calculateQualityScore aiAnalysis) 1); [|lia].
    destruct (Z.leb_spec (AnalysisRules.calculateQualityScore aiAnalysis) 10); [|lia].
    reflexivity.
  - unfold u, AnalysisRules.updateData, AnalysisRules.calculateFollowUp.
    destruct (AnalysisRules.truthy (AnalysisRules.call_with_agent_booked aiAnalysis));
      [split; reflexivity|].
    destruct (AnalysisRules.truthy
                (AnalysisRules.asked_explicitly_to_NOT_call_again aiAnalysis));
      [split; reflexivity|].
    destruct (negb _); split; reflexivity.
Qed.

(** X26.  The analysis columns the handler writes to [vapi_calls] and the
    CHECK constraints of the table.  The columns the handler computes
    always pass: the analysis status is "completed", the quality score
    lies between 1 and 10, the follow-up type is NULL or one of the six
    listed types, the urgency is NULL or one of high, medium and low.  The
    sentiment is stored as the model answered it, so the row passes all
    the constraints exactly when the answered sentiment is Positive,
    Neutral, Negative or the empty string; an answer such as "Mixed" makes
    the UPDATE violate the constraint on [user_sentiment]. *)
Theorem X26_stored_analysis_and_the_checks
    (aiAnalysis : AnalysisRules.CallAnalysisResult) (ended_at : option Z) :
  let u := AnalysisRules.updateData aiAnalysis ended_at in
  AnalysisRules.check_ai_analysis_status (Some (AnalysisRules.u_ai_analysis_status u)) = true
  ∧ AnalysisRules.check_conversation_quality_score
      (Some (AnalysisRules.u_conversation_quality_score u)) = true
  ∧ 1 <= AnalysisRules.u_conversation_quality_score u <= 10
  ∧ AnalysisRules.check_follow_up_type (AnalysisRules.u_follow_up_type u) = true
  ∧ AnalysisRules.check_follow_up_urgency (AnalysisRules.u_follow_up_urgency u) = true
  ∧ (AnalysisRules.checks_pass u = true
     ↔ AnalysisRules.user_sentiment aiAnalysis ∈ ["Positive"; "Neutral"; "Negative"; ""])
  ∧ AnalysisRules.checks_pass
      (AnalysisRules.updateData
         {| AnalysisRules.key_details := "Asked about rates";
            AnalysisRules.user_sentiment := "Mixed";
            AnalysisRules.asked_explicitly_to_NOT_call_again := AnalysisRules.Flag_bool false;
            AnalysisRules.follow_up_date := "";
            AnalysisRules.call_with_agent_booked := AnalysisRules.Flag_bool false |}
         ended_at) = false.
Proof.
  intros u.
  destruct (computed_columns_pass aiAnalysis ended_at) as (Hst & Hsc & Hty & Hur).
  fold u in Hst, Hsc, Hty, Hur.
  split; [exact Hst|]. split; [exact Hsc|].
  split; [apply calculateQualityScore_bounds|].
  split; [exact Hty|]. split; [exact Hur|]. split.
  - unfold AnalysisRules.checks_pass. rewrite Hst, Hsc, Hty, Hur, !andb_true_r.
    cbn [andb]. unfold u, AnalysisRules.updateData, AnalysisRules.check_user_sentiment.
    cbn [AnalysisRules.u_user_sentiment Sql.in3 AnalysisRules.check_passes existsb].
    set (s := AnalysisRules.user_sentiment aiAnalysis).
    rewrite !elem_of_cons, elem_of_nil.
    destruct (String.eqb_spec s "Positive"); [cbn; tauto|].
    destruct (String.eqb_spec s "Neutral"); [cbn; tauto|].
    destruct (String.eqb_spec s "Negative"); [cbn; tauto|].
    destruct (String.eqb_spec s ""); [cbn; tauto|].
    cbn. split; [discriminate|tauto].
  - destruct (computed_columns_pass
                {| AnalysisRules.key_details := "Asked about rates";
                   AnalysisRules.user_sentiment := "Mixed";
                   AnalysisRules.asked_explicitly_to_NOT_call_again :=
                     AnalysisRules.Flag_bool false;
                   AnalysisRules.follow_up_date := "";
                   AnalysisRules.call_with_agent_booked := AnalysisRules.Flag_bool false |}
                ended_at) as (H1 & H2 & H3 & H4).
    unfold AnalysisRules.checks_pass. rewrite H1, H2, H3, H4. reflexivity.
Qed.

Lemma to_date_plus_days (t n : Z) :
  Clock.to_date (t + n * Clock.usec_per_day) = Clock.to_date t + n.
Proof. unfold Clock.to_date. apply Z.div_add. by vm_compute. Qed.

(** X27.  The follow-up the analysis stores.  No follow-up date is kept
    exactly when an agent appointment was booked or the customer asked not to
    be called again; a customer who asked so without booking gets no
    follow-up type or urgency either.  Otherwise the date is the one the
    model answered, when it answered one, and else the calendar day 21 days
    after the day the call ended. *)
Theorem X27_follow_up_date_rule
    (aiAnalysis : AnalysisRules.CallAnalysisResult) (ended_at : option Z) :
  let u := AnalysisRules.updateData aiAnalysis ended_at in
  (AnalysisRules.u_follow_up_date u = None
   ↔ AnalysisRules.u_call_with_agent_booked u = true
     ∨ AnalysisRules.u_asked_explicitly_to_not_call_again u = true)
  ∧ (AnalysisRules.u_asked_explicitly_to_not_call_again u = true →
     AnalysisRules.u_call_with_agent_booked u = false →
     AnalysisRules.u_follow_up_type u = None
     ∧ AnalysisRules.u_follow_up_urgency u = None)
  ∧ (AnalysisRules.u_call_with_agent_booked u = false →
     AnalysisRules.u_asked_explicitly_to_not_call_again u = false →
     AnalysisRules.u_follow_up_date u
     = Some (if String.eqb (AnalysisRules.follow_up_date aiAnalysis) ""
             then AnalysisRules.Iso_day (Clock.to_date (Sql.coalesce ended_at 0) + 21)
             else AnalysisRules.As_answered (AnalysisRules.follow_up_date aiAnalysis))).
Proof.
  intros u. unfold u, AnalysisRules.updateData, AnalysisRules.calculateFollowUp. cbn.
  destruct (AnalysisRules.truthy (AnalysisRules.call_with_agent_booked aiAnalysis)).
  { cbn. split; [split; auto|]. split; intros; discriminate. }
  destruct (AnalysisRules.truthy
              (AnalysisRules.asked_explicitly_to_NOT_call_again aiAnalysis)).
  { cbn. split; [split; auto|]. split; [auto|intros; discriminate]. }
  destruct (String.eqb_spec (AnalysisRules.follow_up_date aiAnalysis) "") as [E|E];
    cbn [negb AnalysisRules.fu_date AnalysisRules.fu_type AnalysisRules.fu_urgency
         AnalysisRules.date_or_null].
  - rewrite to_date_plus_days.
    split; [split; [discriminate|intros [|]; discriminate]|].
    split; [intros; discriminate|reflexivity].
  - assert (D : AnalysisRules.date_or_null
                  (Some (AnalysisRules.As_answered (AnalysisRules.follow_up_date aiAnalysis)))
                = Some (AnalysisRules.As_answered (AnalysisRules.follow_up_date aiAnalysis))).
    { destruct (AnalysisRules.follow_up_date aiAnalysis); [done|reflexivity]. }
    cbn [AnalysisRules.date_or_null] in D. rewrite D.
    split; [split; [discriminate|intros [|]; discriminate]|].
    split; [intros; discriminate|reflexivity].
Qed.

(** A voicemail on 3 January 1970 is retried on the 24th; a refusal keeps
    no date although the model answered one. *)
Lemma X27_follow_up_date_rule_witness :
  AnalysisRules.u_follow_up_date
    (AnalysisRules.updateData AnalysisRules.voicemail (Some (Clock.at_day 2 17 30)))
  = Some (AnalysisRules.Iso_day 23)
  ∧ AnalysisRules.u_follow_up_date
      (AnalysisRules.updateData AnalysisRules.refused (Some (Clock.at_day 2 17 30)))
    = None.
Proof.
  pose proof (X27_follow_up_date_rule AnalysisRules.voicemail
                (Some (Clock.at_day 2 17 30))) as (_ & _ & H1).
  pose proof (X27_follow_up_date_rule AnalysisRules.refused
                (Some (Clock.at_day 2 17 30))) as (H2 & _ & _).
  split.
  - rewrite H1; reflexivity.
  - apply H2. right. reflexivity.
Defined.

Lemma count_status_cons (s : string) (c : AnalysisRules.tool_call)
    (l : list AnalysisRules.tool_call) :
  AnalysisRules.count_status s (c :: l)
  = (if decide (AnalysisRules.status c = s) then 1 else 0)
    + AnalysisRules.count_status s l.
Proof.
  unfold AnalysisRules.count_status. rewrite filter_cons.
  destruct (decide (AnalysisRules.status c = s)); cbn [length]; lia.
Qed.

Lemma count_status_nonneg (s : string) (l : list AnalysisRules.tool_call) :
  0 <= AnalysisRules.count_status s l.
Proof. unfold AnalysisRules.count_status. lia. Qed.

Lemma counters_at_most_total (l : list AnalysisRules.tool_call) :
  AnalysisRules.count_status "success" l + AnalysisRules.count_status "warning" l
  + AnalysisRules.count_status "error" l + AnalysisRules.count_status "no_result" l
  <= Z.of_nat (length l).
Proof.
  induction l as [|c l IH]; [by vm_compute|].
  rewrite !count_status_cons. cbn [length].
  repeat case_decide; try lia; congruence.
Qed.

Lemma counters_partition (l : list AnalysisRules.tool_call) :
  Forall (λ c, AnalysisRules.status c ∈ ["success"; "warning"; "error"; "no_result"]) l →
  AnalysisRules.count_status "success" l + AnalysisRules.count_status "warning" l
  + AnalysisRules.count_status "error" l + AnalysisRules.count_status "no_result" l
  = Z.of_nat (length l).
Proof.
  induction 1 as [|c l Hc _ IH]; [by vm_compute|].
  rewrite !count_status_cons. cbn [length].
  repeat case_decide; try lia; try congruence.
  exfalso. rewrite !elem_of_cons, elem_of_nil in Hc.
  destruct Hc as [|[|[|[|[]]]]]; congruence.
Qed.

Ltac known_status :=
  solve [repeat first [apply list_elem_of_here | apply list_elem_of_further]].

Lemma status_of_known (json_error : string → option bool) (resText : string) :
  AnalysisRules.status_of json_error resText
  ∈ ["success"; "warning"; "error"; "no_result"].
Proof.
  unfold AnalysisRules.status_of.
  case_bool_decide; [known_status|].
  destruct (String.eqb _ _); [known_status|].
  destruct (json_error resText) as [[]|]; known_status.
Qed.

Lemma extracted_status_known (trim : string → string) (json_error : string → option bool)
    (msgs : list AnalysisRules.message) (invocations : list AnalysisRules.invocation) :
  Forall (λ c, AnalysisRules.status c ∈ ["success"; "warning"; "error"; "no_result"])
    (AnalysisRules.match_invocation trim json_error msgs <$> invocations).
Proof.
  apply Forall_fmap, Forall_forall. intros call _. cbn.
  unfold AnalysisRules.match_invocation.
  destruct (find _ msgs); cbn; [apply status_of_known|known_status].
Qed.

(** X28.  Tool-call counters.  Every tool call extracted from a transcript
    is counted in exactly one of the four counters, so successes, warnings,
    errors and calls without result add up to the total, which is the
    number of invocations in the messages.  What the handler stores has the
    total equal to the length of the stored list and the four counters never
    above it; they add up to it whenever the transcript itself had a
    call.  A successful booking or calendar check is stored only with the
    attempt flag set. *)
Theorem X28_tool_call_counters_add_up
    (trim : string → string) (json_error : string → option bool)
    (msgs : list AnalysisRules.message)
    (stored : option (list AnalysisRules.tool_call)) :
  let s := AnalysisRules.extractToolCalls trim json_error msgs in
  let u := AnalysisRules.tool_calls_update trim json_error msgs stored in
  AnalysisRules.successes s + AnalysisRules.warnings s
  + AnalysisRules.errors s + AnalysisRules.no_result s = AnalysisRules.total s
  ∧ AnalysisRules.total s
    = Z.of_nat (length (msgs ≫= AnalysisRules.invocations_of))
  ∧ AnalysisRules.tool_calls_total u
    = Z.of_nat (length (AnalysisRules.tool_calls_analysis u))
  ∧ AnalysisRules.tool_calls_successful u + AnalysisRules.tool_calls_warnings u
    + AnalysisRules.tool_calls_failed u + AnalysisRules.tool_calls_no_result u
    <= AnalysisRules.tool_calls_total u
  ∧ (AnalysisRules.calls s ≠ [] →
     AnalysisRules.tool_calls_analysis u = AnalysisRules.calls s
     ∧ AnalysisRules.tool_calls_successful u + AnalysisRules.tool_calls_warnings u
       + AnalysisRules.tool_calls_failed u + AnalysisRules.tool_calls_no_result u
       = AnalysisRules.tool_calls_total u)
  ∧ (AnalysisRules.booking_attempt_success u = true →
     AnalysisRules.booking_attempted u = true)
  ∧ (AnalysisRules.calendar_checked_success u = true →
     AnalysisRules.calendar_check_attempted u = true).
Proof.
  intros s u. subst s u.
  unfold AnalysisRules.tool_calls_update, AnalysisRules.extractToolCalls.
  cbn [AnalysisRules.total AnalysisRules.successes AnalysisRules.warnings
       AnalysisRules.errors AnalysisRules.no_result AnalysisRules.calls
       AnalysisRules.tool_calls_total AnalysisRules.tool_calls_successful
       AnalysisRules.tool_calls_warnings AnalysisRules.tool_calls_failed
       AnalysisRules.tool_calls_no_result AnalysisRules.tool_calls_analysis
       AnalysisRules.booking_attempt_success AnalysisRules.booking_attempted
       AnalysisRules.calendar_checked_success AnalysisRules.calendar_check_attempted].
  pose proof (extracted_status_known trim json_error msgs
                (msgs ≫= AnalysisRules.invocations_of)) as Hk.
  apply counters_partition in Hk.
  assert (Hlen : length (AnalysisRules.match_invocation trim json_error msgs
                         <$> msgs ≫= AnalysisRules.invocations_of)
                 = length (msgs ≫= AnalysisRules.invocations_of))
    by apply length_fmap.
  rewrite <- Hlen. clear Hlen.
  set (cl := AnalysisRules.match_invocation trim json_error msgs
             <$> msgs ≫= AnalysisRules.invocations_of) in *.
  clearbody cl.
  assert (Hflag : ∀ l : list AnalysisRules.tool_call,
             existsb (λ c, String.eqb (AnalysisRules.status c) "success") l = true →
             negb (bool_decide (l = [])) = true).
  { intros [|c l]; [discriminate|reflexivity]. }
  split; [exact Hk|]. split; [reflexivity|].
  assert (Hnil : bool_decide (@nil AnalysisRules.tool_call = []) = true) by done.
  destruct cl as [|c cs].
  - destruct stored as [[|c' arr]|]; cbv beta iota zeta; rewrite Hnil;
      cbn [andb negb default AnalysisRules.total AnalysisRules.successes
           AnalysisRules.warnings AnalysisRules.errors AnalysisRules.no_result].
    + repeat split; try done; apply Hflag.
    + rewrite (bool_decide_eq_false_2 (c' :: arr = [])) by done.
      pose proof (counters_at_most_total (c' :: arr)) as Hle.
      cbn [andb negb default AnalysisRules.total AnalysisRules.successes
           AnalysisRules.warnings AnalysisRules.errors AnalysisRules.no_result].
      repeat split; try done; apply Hflag.
    + repeat split; try done; apply Hflag.
  - cbv beta iota zeta.
    rewrite (bool_decide_eq_false_2 (c :: cs = [])) by done.
    cbn [andb negb default AnalysisRules.total AnalysisRules.successes
         AnalysisRules.warnings AnalysisRules.errors AnalysisRules.no_result].
    repeat split; try done; try apply Hflag. lia.
Qed.

(** Two invocations, one answered with an empty object and one never
    answered: one success, one call without result. *)
Lemma X28_tool_call_counters_add_up_witness :
  let s := AnalysisRules.extractToolCalls id (λ _, None) AnalysisRules.two_tool_calls in
  AnalysisRules.total s = 2
  ∧ AnalysisRules.successes s = 1
  ∧ AnalysisRules.no_result s = 1
  ∧ AnalysisRules.successes s + AnalysisRules.warnings s
    + AnalysisRules.errors s + AnalysisRules.no_result s = AnalysisRules.total s.
Proof.
  cbv zeta. split; [reflexivity|]. split; [reflexivity|]. split; [reflexivity|].
  exact (proj1 (X28_tool_call_counters_add_up id (λ _, None)
                  AnalysisRules.two_tool_calls None)).
Defined.

Lemma retry_loop_spec (runAIAnalysis : nat → bool → AnalysisRules.outcome)
    (needs : string → bool) (maxRetries : Z) (fuel : nat) :
  ∀ (attempt : Z) (lastError : option string)
    (requests : list AnalysisRules.outcome) (slept : Z),
    attempt = maxRetries - Z.of_nat fuel + 1 →
    1 <= attempt →
    Forall (λ o, AnalysisRules.threw o = true) requests →
    (∀ e, lastError = Some e → last requests = Some (AnalysisRules.Threw e)) →
    (lastError = None → requests = []) →
    ∃ more,
      AnalysisRules.requests
        (AnalysisRules.retry_loop runAIAnalysis needs maxRetries attempt fuel
           lastError requests slept)
      = (requests ++ more)%list
      ∧ Z.of_nat (length more) <= 2 * Z.of_nat fuel
      ∧ (fuel ≠ O → more ≠ [])
      ∧ slept <= AnalysisRules.slept
                   (AnalysisRules.retry_loop runAIAnalysis needs maxRetries attempt fuel
                      lastError requests slept)
      ∧ AnalysisRules.slept
          (AnalysisRules.retry_loop runAIAnalysis needs maxRetries attempt fuel
             lastError requests slept) - slept
        <= (if fuel is O then 0 else 1000 * (2 ^ (maxRetries - 1) - 2 ^ (attempt - 1)))
      ∧ AnalysisRules.slept
          (AnalysisRules.retry_loop runAIAnalysis needs maxRetries attempt fuel
             lastError requests slept) - slept
        <= 10000 * Z.max 0 (Z.of_nat fuel - 1)
      ∧ match AnalysisRules.result
                (AnalysisRules.retry_loop runAIAnalysis needs maxRetries attempt fuel
                   lastError requests slept) with
        | AnalysisRules.Answered a =>
            ∃ before,
              AnalysisRules.requests
                (AnalysisRules.retry_loop runAIAnalysis needs maxRetries attempt fuel
                   lastError requests slept)
              = (before ++ [AnalysisRules.Answered a])%list
              ∧ Forall (λ o, AnalysisRules.threw o = true) before
        | AnalysisRules.Threw e =>
            Forall (λ o, AnalysisRules.threw o = true)
              (AnalysisRules.requests
                 (AnalysisRules.retry_loop runAIAnalysis needs maxRetries attempt fuel
                    lastError requests slept))
            ∧ (AnalysisRules.requests
                 (AnalysisRules.retry_loop runAIAnalysis needs maxRetries attempt fuel
                    lastError requests slept) ≠ [] →
               last (AnalysisRules.requests
                       (AnalysisRules.retry_loop runAIAnalysis needs maxRetries attempt
                          fuel lastError requests slept))
               = Some (AnalysisRules.Threw e))
        end.
Proof.
  induction fuel as [|fuel IH];
    intros attempt lastError requests slept Ha H1 Hall Hlast Hnone.
  - exists []. cbn [AnalysisRules.retry_loop AnalysisRules.requests
                    AnalysisRules.slept AnalysisRules.result].
    rewrite app_nil_r.
    split; [done|]. split; [cbn; lia|]. split; [done|].
    split; [lia|]. split; [lia|]. split; [lia|].
    split; [exact Hall|].
    destruct lastError as [e|]; [intros _; cbn; by apply Hlast|].
    intros Hne. by destruct Hne; apply Hnone.
  - cbn [AnalysisRules.retry_loop].
    assert (Hpow : 0 < 2 ^ (attempt - 1)) by (apply Z.pow_pos_nonneg; lia).
    assert (Hpow2 : 2 ^ (attempt + 1 - 1) = 2 * 2 ^ (attempt - 1)).
    { replace (attempt + 1 - 1) with (Z.succ (attempt - 1)) by lia.
      apply Z.pow_succ_r. lia. }
    assert (Hm : fuel = O → 2 ^ (maxRetries - 1) = 2 ^ (attempt - 1)).
    { intros ->. f_equal. lia. }
    assert (Hmono : 2 ^ (attempt - 1) <= 2 ^ (maxRetries - 1))
      by (apply Z.pow_le_mono_r; lia).
    set (slept' := if attempt <? maxRetries
                   then slept + Z.min (1000 * 2 ^ (attempt - 1)) 10000 else slept).
    assert (Hs : slept <= slept' ∧ slept' - slept <= 10000
                 ∧ slept' - slept <= 1000 * 2 ^ (attempt - 1)
                 ∧ (fuel = O → slept' = slept)).
    { unfold slept'. destruct (Z.ltb_spec attempt maxRetries); lia. }
    destruct (runAIAnalysis (length requests) true) as [a|e] eqn:E1.
    { exists [AnalysisRules.Answered a].
      cbn [AnalysisRules.requests AnalysisRules.slept AnalysisRules.result].
      split; [done|]. split; [cbn; lia|]. split; [done|].
      split; [lia|]. split; [destruct fuel; [rewrite Hm by done|]; lia|].
      split; [lia|]. by exists requests. }
    assert (Hall1 : Forall (λ o, AnalysisRules.threw o = true)
                      (requests ++ [AnalysisRules.Threw e])).
    { apply Forall_app. split; [exact Hall|]. by constructor. }
    destruct (needs e).
    + destruct (runAIAnalysis (length (requests ++ [AnalysisRules.Threw e])) false)
        as [a|e'] eqn:E2.
      { exists [AnalysisRules.Threw e; AnalysisRules.Answered a].
        cbn [AnalysisRules.requests AnalysisRules.slept AnalysisRules.result].
        split; [by rewrite <- app_assoc|]. split; [cbn; lia|]. split; [done|].
        split; [lia|]. split; [destruct fuel; [rewrite Hm by done|]; lia|].
        split; [lia|]. by exists (requests ++ [AnalysisRules.Threw e])%list. }
      fold slept'.
      destruct (IH (attempt + 1) (Some e')
                  ((requests ++ [AnalysisRules.Threw e]) ++ [AnalysisRules.Threw e'])%list
                  slept')
        as (more & Hreq & Hlen & Hne & Hle & Hb1 & Hb2 & Hres).
      { lia. } { lia. }
      { apply Forall_app. split; [exact Hall1|]. by constructor. }
      { intros ? [= <-]. apply last_snoc. }
      { discriminate. }
      exists (AnalysisRules.Threw e :: AnalysisRules.Threw e' :: more).
      split; [by rewrite Hreq, <- !app_assoc|].
      split; [cbn [length]; lia|]. split; [done|].
      split; [lia|].
      split; [destruct fuel; [rewrite Hm by done; lia|rewrite Hpow2 in Hb1; lia]|].
      split; [destruct fuel; lia|]. exact Hres.
    + fold slept'.
      destruct (IH (attempt + 1) (Some e) (requests ++ [AnalysisRules.Threw e])%list slept')
        as (more & Hreq & Hlen & Hne & Hle & Hb1 & Hb2 & Hres).
      { lia. } { lia. } { exact Hall1. }
      { intros ? [= <-]. apply last_snoc. }
      { discriminate. }
      exists (AnalysisRules.Threw e :: more).
      split; [by rewrite Hreq, <- !app_assoc|].
      split; [cbn [length]; lia|]. split; [done|].
      split; [lia|].
      split; [destruct fuel; [rewrite Hm by done; lia|rewrite Hpow2 in Hb1; lia]|].
      split; [destruct fuel; lia|]. exact Hres.
Qed.

(** X29.  The analysis request is retried a bounded number of times.  With
    [maxRetries] rounds the handler sends at most two requests per round
    (the second without the response format), none when [maxRetries] is
    below 1; it sleeps at most [1000 * (2 ^ (maxRetries - 1) - 1)]
    milliseconds in all, and at most [10000 * (maxRetries - 1)].
    An answer is returned as soon as one request is answered: every request
    before it failed and none follows it.  The call throws only after all
    its requests failed, with the message of the last one. *)
Theorem X29_analysis_retries_are_bounded
    (runAIAnalysis : nat → bool → AnalysisRules.outcome)
    (needsJsonFormatFallback : string → bool) (maxRetries : Z) :
  let r := AnalysisRules.runAIAnalysisWithRetry runAIAnalysis needsJsonFormatFallback
             maxRetries in
  Z.of_nat (length (AnalysisRules.requests r)) <= 2 * Z.max 0 maxRetries
  ∧ (AnalysisRules.requests r = [] ↔ maxRetries < 1)
  ∧ 0 <= AnalysisRules.slept r
  ∧ AnalysisRules.slept r <= 10000 * Z.max 0 (maxRetries - 1)
  ∧ AnalysisRules.slept r <= 1000 * (2 ^ (Z.max 1 maxRetries - 1) - 1)
  ∧ match AnalysisRules.result r with
    | AnalysisRules.Answered a =>
        ∃ before,
          AnalysisRules.requests r = (before ++ [AnalysisRules.Answered a])%list
          ∧ Forall (λ o, AnalysisRules.threw o = true) before
    | AnalysisRules.Threw e =>
        Forall (λ o, AnalysisRules.threw o = true) (AnalysisRules.requests r)
        ∧ (AnalysisRules.requests r ≠ [] →
           last (AnalysisRules.requests r) = Some (AnalysisRules.Threw e))
        ∧ (AnalysisRules.requests r = [] →
           e = "AI Analysis failed after all retries")
    end.
Proof.
  intros r. unfold r, AnalysisRules.runAIAnalysisWithRetry.
  destruct (Z.lt_ge_cases maxRetries 1) as [Hm|Hm].
  - replace (Z.to_nat maxRetries) with O by lia.
    cbn [AnalysisRules.retry_loop AnalysisRules.requests AnalysisRules.slept
         AnalysisRules.result length default].
    replace (Z.max 1 maxRetries - 1) with 0 by lia.
    repeat split; try done; try lia.
  - destruct (retry_loop_spec runAIAnalysis needsJsonFormatFallback maxRetries
                (Z.to_nat maxRetries) 1 None [] 0)
      as (more & Hreq & Hlen & Hne & Hle & Hb1 & Hb2 & Hres);
      [lia|lia|constructor|discriminate|done|].
    set (run := AnalysisRules.retry_loop _ _ _ _ _ _ _ _) in *.
    rewrite app_nil_l in Hreq.
    assert (Hfuel : Z.to_nat maxRetries ≠ O) by lia.
    replace (Z.max 1 maxRetries - 1) with (maxRetries - 1) by lia.
    destruct (Z.to_nat maxRetries) as [|fuel] eqn:Ef; [done|].
    change (2 ^ (1 - 1)) with 1 in Hb1.
    split; [rewrite Hreq; lia|].
    split; [split; [intros E; rewrite Hreq in E; by apply Hne in E|lia]|].
    split; [lia|]. split; [lia|]. split; [lia|].
    destruct (AnalysisRules.result run); [exact Hres|].
    destruct Hres as [? ?]. split; [done|]. split; [done|].
    intros E. rewrite Hreq in E. by apply Hne in E.
Qed.

(** Three rounds against a service that fails twice: three requests, the
    third answered, after 1 + 2 seconds of sleep. *)
Lemma X29_analysis_retries_are_bounded_witness :
  let r := AnalysisRules.runAIAnalysisWithRetry AnalysisRules.third_time_lucky
             (λ _, false) 3 in
  AnalysisRules.result r = AnalysisRules.Answered AnalysisRules.voicemail
  ∧ length (AnalysisRules.requests r) = 3%nat
  ∧ AnalysisRules.slept r = 3000
  ∧ AnalysisRules.slept r <= 1000 * (2 ^ (Z.max 1 3 - 1) - 1).
Proof.
  cbv zeta. split; [reflexivity|]. split; [reflexivity|]. split; [reflexivity|].
  exact (proj1 (proj2 (proj2 (proj2 (proj2
    (X29_analysis_retries_are_bounded AnalysisRules.third_time_lucky (λ _, false) 3)))))).
Defined.
